(** * Auto-Claude: the built-in tool set and the provider engines

    A shallow embedding of [core/tools/builtin.py] and [core/engine.py].
    Python values are modelled as follows.

    - [str] is [string]; one [ascii] stands for one character.
    - A call either returns a value or raises: [result].  Code with side
      effects on the file system threads the file system explicitly and
      returns the state reached, also when it raises.
    - The file system is a finite map from path strings to nodes.  Every
      file and directory is held once, under the path by which the code
      names it; a path that is no key names nothing.  A regular file
      carries its permissions and its text as a read in text mode
      ([open(..., 'r', encoding='utf-8')]) hands it over, that is, decoded
      and with its line ends as line feeds.
    - What the host provides and the sources do not define (the current
      directory, the process environment, [Path.rglob], [re], [json], the
      security policy, [subprocess.run], installed packages) is a record
      [Host]. *)

From Stdlib Require Import ZArith Lia List Ascii String.
From stdpp Require Import base option list gmap strings pretty.

Set Warnings "-register-all".

Local Open Scope Z_scope.
Local Open Scope stdpp_scope.

(** Let [simpl] compute string concatenation on constructors. *)
#[global] Arguments String.append !s1 s2 / : simpl nomatch.
#[global] Arguments String.prefix : simpl never.

(* ===================================================================== *)
(** ** Python primitives *)
(* ===================================================================== *)

Module Py.

(** Exceptions the modelled code can meet.  All are subclasses of
    [Exception], so a blanket [except Exception] catches each of them. *)
Inductive exn : Type :=
  | FileNotFoundError (path : string)
  | IsADirectoryError (path : string)
  | NotADirectoryError (path : string)
  | FileExistsError (path : string)
  | PermissionError (path : string)
  | UnicodeDecodeError (why : string)
  | ValueError (msg : string)
  | TypeError (msg : string)
  | KeyError (key : string)
  | IndexError (msg : string)
  | NotImplementedError (msg : string)
  | RuntimeError (msg : string)
  | ImportError (name : string)
  | AttributeError (msg : string)
  | ReError (msg : string)
  | TimeoutExpired (cmd : string)
  | OSError (msg : string).

(** [str(e)] *)
Definition exn_str (e : exn) : string :=
  match e with
  | FileNotFoundError p => "[Errno 2] No such file or directory: '" +:+ p +:+ "'"
  | IsADirectoryError p => "[Errno 21] Is a directory: '" +:+ p +:+ "'"
  | NotADirectoryError p => "[Errno 20] Not a directory: '" +:+ p +:+ "'"
  | FileExistsError p => "[Errno 17] File exists: '" +:+ p +:+ "'"
  | PermissionError p => "[Errno 13] Permission denied: '" +:+ p +:+ "'"
  | UnicodeDecodeError why => why
  | ValueError m => m
  | TypeError m => m
  | KeyError k => "'" +:+ k +:+ "'"
  | IndexError m => m
  | NotImplementedError m => m
  | RuntimeError m => m
  | ImportError n => "No module named '" +:+ n +:+ "'"
  | AttributeError m => m
  | ReError m => m
  | TimeoutExpired c => "Command '" +:+ c +:+ "' timed out after 300 seconds"
  | OSError m => m
  end.

Inductive result (A : Type) : Type :=
  | Ok (a : A)
  | Raise (e : exn).
Arguments Ok {A} a.
Arguments Raise {A} e.

Definition is_ok {A} (r : result A) : bool :=
  match r with Ok _ => true | Raise _ => false end.

(** Truthiness of a string and of an optional string ([None] and [""] are
    falsy). *)
Definition truthy (s : string) : bool :=
  match s with EmptyString => false | String _ _ => true end.

Definition truthy_opt (o : option string) : bool :=
  match o with Some s => truthy s | None => false end.

(** [a or b] on optional strings. *)
Definition or_else (a b : option string) : option string :=
  if truthy_opt a then a else b.

(** [needle in hay] *)
Fixpoint str_in (needle hay : string) : bool :=
  String.prefix needle hay ||
  match hay with
  | EmptyString => false
  | String _ rest => str_in needle rest
  end.

(** [sep.join(parts)] *)
Fixpoint join (sep : string) (parts : list string) : string :=
  match parts with
  | [] => ""
  | [p] => p
  | p :: rest => p +:+ sep +:+ join sep rest
  end.

(** [s.replace(old, new)]: every non-overlapping occurrence, scanning from
    the left.  [skip] counts the characters of a matched occurrence still
    to be passed over. *)
Fixpoint replace_go (old new : string) (skip : nat) (s : string) : string :=
  match s with
  | EmptyString => ""
  | String c rest =>
      match skip with
      | S k => replace_go old new k rest
      | O =>
          if String.prefix old s
          then new +:+ replace_go old new (String.length old - 1) rest
          else String c (replace_go old new 0 rest)
      end
  end.

(** With an empty [old], Python inserts [new] before every character and at
    the end. *)
Fixpoint replace_empty (new : string) (s : string) : string :=
  match s with
  | EmptyString => new
  | String c rest => new +:+ String c (replace_empty new rest)
  end.

Definition str_replace (s old new : string) : string :=
  match old with
  | EmptyString => replace_empty new s
  | String _ _ => replace_go old new 0 s
  end.

(** The pieces between the occurrences that [replace_go] replaces
    ([s.split(old)] for a non-empty [old]). *)
Fixpoint split_go (sep : string) (skip : nat) (s : string) : list string :=
  match s with
  | EmptyString => [""]
  | String c rest =>
      match skip with
      | S k => split_go sep k rest
      | O =>
          if String.prefix sep s
          then "" :: split_go sep (String.length sep - 1) rest
          else match split_go sep 0 rest with
               | p :: ps => String c p :: ps
               | [] => [String c ""]
               end
      end
  end.

(** The rest of a string after its first [n] characters. *)
Fixpoint str_drop (n : nat) (s : string) : string :=
  match n, s with
  | O, _ => s
  | S k, String _ rest => str_drop k rest
  | S _, EmptyString => ""
  end.

(** [c.isspace()] for the characters below 256. *)
Definition is_space (c : ascii) : bool :=
  match c with
  | " "%char | "009"%char | "010"%char | "011"%char | "012"%char | "013"%char
  | "028"%char | "029"%char | "030"%char | "031"%char | "133"%char | "160"%char => true
  | _ => false
  end.

Fixpoint lstrip (s : string) : string :=
  match s with
  | EmptyString => ""
  | String c rest => if is_space c then lstrip rest else s
  end.

Fixpoint rstrip (s : string) : string :=
  match s with
  | EmptyString => ""
  | String c rest =>
      match rstrip rest with
      | EmptyString => if is_space c then "" else String c ""
      | r => String c r
      end
  end.

(** [s.strip()] *)
Definition strip (s : string) : string := rstrip (lstrip s).

(** [c.lower()] for the characters below 256: the capital letters of
    ASCII and of Latin-1 (the multiplication sign, 215, is no letter). *)
Definition lower_char (c : ascii) : ascii :=
  let n := nat_of_ascii c in
  if (((65 <=? n)%nat && (n <=? 90)%nat)
      || ((192 <=? n)%nat && (n <=? 222)%nat && negb (n =? 215)%nat))%bool
  then ascii_of_nat (n + 32) else c.

(** [s.lower()] *)
Fixpoint lower (s : string) : string :=
  match s with
  | EmptyString => ""
  | String c rest => String (lower_char c) (lower rest)
  end.

(** [f.readlines()]: the lines of a text, each keeping its newline. *)
Fixpoint readlines_go (cur : string) (s : string) : list string :=
  match s with
  | EmptyString => match cur with EmptyString => [] | _ => [cur] end
  | String c rest =>
      if Ascii.eqb c "010"%char
      then (cur +:+ String c "") :: readlines_go "" rest
      else readlines_go (cur +:+ String c "") rest
  end.

Definition readlines (s : string) : list string := readlines_go "" s.

(** A slice bound clamped the way [l[start:end]] does it. *)
Definition clamp (len i : Z) : nat :=
  Z.to_nat (if i <? 0 then Z.max (i + len) 0 else Z.min i len).

(** [l[start:end]] *)
Definition slice {A} (l : list A) (start stop : Z) : list A :=
  let len := Z.of_nat (length l) in
  let a := clamp len start in
  let b := clamp len stop in
  take (b - a)%nat (drop a l).

(** The values [json.loads] gives.  A number without fraction and
    exponent is an [int]; any other number is a [float], kept as Python
    prints it.  A Python [dict] keeps its items in insertion order. *)
Inductive json : Type :=
  | JNull
  | JBool (b : bool)
  | JNum (n : Z)
  | JFloat (printed : string)
  | JStr (s : string)
  | JArr (items : list json)
  | JObj (fields : list (string * json)).

(** [d.get(k)] and [k in d].  When a key is repeated the last item wins, as
    in a [dict] built from a JSON text. *)
Fixpoint dict_get (k : string) (fields : list (string * json)) : option json :=
  match fields with
  | [] => None
  | (k', v) :: rest =>
      match dict_get k rest with
      | Some v' => Some v'
      | None => if String.eqb k k' then Some v else None
      end
  end.

Definition dict_has (k : string) (fields : list (string * json)) : bool :=
  match dict_get k fields with Some _ => true | None => false end.

(** [d[k] = v] *)
Fixpoint dict_set (k : string) (v : json) (fields : list (string * json))
    : list (string * json) :=
  match fields with
  | [] => [(k, v)]
  | (k', v') :: rest =>
      if String.eqb k k' then (k, v) :: rest else (k', v') :: dict_set k v rest
  end.

(** The double quote character. *)
Definition dquote : ascii := "034"%char.

Definition json_ws (c : ascii) : bool :=
  match c with
  | " "%char | "009"%char | "010"%char | "013"%char => true
  | _ => false
  end.

Fixpoint skip_ws (s : string) : string :=
  match s with
  | String c rest => if json_ws c then skip_ws rest else s
  | EmptyString => ""
  end.

Definition digit_of (c : ascii) : option Z :=
  let n := nat_of_ascii c in
  if ((48 <=? n)%nat && (n <=? 57)%nat)%bool then Some (Z.of_nat (n - 48)) else None.

Fixpoint parse_digits (acc : Z) (s : string) : Z * string :=
  match s with
  | String c rest =>
      match digit_of c with
      | Some dgt => parse_digits (10 * acc + dgt) rest
      | None => (acc, s)
      end
  | EmptyString => (acc, "")
  end.

(** An integer without leading zeros; a fraction or an exponent is outside
    the modelled fragment. *)
Definition parse_nat (s : string) : option (Z * string) :=
  match s with
  | String c rest =>
      match digit_of c with
      | Some dgt =>
          let '(n, rest') := if dgt =? 0 then (0, rest) else parse_digits dgt rest in
          match rest' with
          | String c' _ =>
              if (Ascii.eqb c' "." || Ascii.eqb c' "e" || Ascii.eqb c' "E")%bool
              then None
              else match digit_of c' with Some _ => None | None => Some (n, rest') end
          | EmptyString => Some (n, rest')
          end
      | None => None
      end
  | EmptyString => None
  end.

(** The characters of a string literal after its opening quote.  Control
    characters are refused; [\u] escapes are outside the modelled
    fragment. *)
Fixpoint parse_chars (s : string) : option (string * string) :=
  match s with
  | EmptyString => None
  | String c rest =>
      if Ascii.eqb c dquote then Some ("", rest)
      else if Ascii.eqb c "\"%char then
        match rest with
        | String e rest' =>
            let lit (x : ascii) :=
              match parse_chars rest' with
              | Some (t, r) => Some (String x t, r)
              | None => None
              end in
            if Ascii.eqb e dquote then lit dquote
            else if Ascii.eqb e "\"%char then lit "\"%char
            else if Ascii.eqb e "/"%char then lit "/"%char
            else if Ascii.eqb e "b"%char then lit "008"%char
            else if Ascii.eqb e "f"%char then lit "012"%char
            else if Ascii.eqb e "n"%char then lit "010"%char
            else if Ascii.eqb e "r"%char then lit "013"%char
            else if Ascii.eqb e "t"%char then lit "009"%char
            else None
        | EmptyString => None
        end
      else if (nat_of_ascii c <? 32)%nat then None
      else match parse_chars rest with
           | Some (t, r) => Some (String c t, r)
           | None => None
           end
  end.

Fixpoint parse_value (fuel : nat) (s : string) : option (json * string) :=
  match fuel with
  | O => None
  | S f =>
      match skip_ws s with
      | String c rest =>
          if Ascii.eqb c "{"%char then
            match skip_ws rest with
            | String c' rest' =>
                if Ascii.eqb c' "}"%char then Some (JObj [], rest')
                else match parse_members f (String c' rest') with
                     | Some (fields, r) => Some (JObj fields, r)
                     | None => None
                     end
            | EmptyString => None
            end
          else if Ascii.eqb c "["%char then
            match skip_ws rest with
            | String c' rest' =>
                if Ascii.eqb c' "]"%char then Some (JArr [], rest')
                else match parse_elements f (String c' rest') with
                     | Some (items, r) => Some (JArr items, r)
                     | None => None
                     end
            | EmptyString => None
            end
          else if Ascii.eqb c dquote then
            match parse_chars rest with
            | Some (t, r) => Some (JStr t, r)
            | None => None
            end
          else if Ascii.eqb c "-"%char then
            match parse_nat rest with
            | Some (n, r) => Some (JNum (- n), r)
            | None => None
            end
          else if String.prefix "true" (String c rest)
          then Some (JBool true, str_drop 4 (String c rest))
          else if String.prefix "false" (String c rest)
          then Some (JBool false, str_drop 5 (String c rest))
          else if String.prefix "null" (String c rest)
          then Some (JNull, str_drop 4 (String c rest))
          else match parse_nat (String c rest) with
               | Some (n, r) => Some (JNum n, r)
               | None => None
               end
      | EmptyString => None
      end
  end
with parse_elements (fuel : nat) (s : string) : option (list json * string) :=
  match fuel with
  | O => None
  | S f =>
      match parse_value f s with
      | Some (v, r) =>
          match skip_ws r with
          | String c rest =>
              if Ascii.eqb c "]"%char then Some ([v], rest)
              else if Ascii.eqb c ","%char then
                match parse_elements f rest with
                | Some (vs, r') => Some (v :: vs, r')
                | None => None
                end
              else None
          | EmptyString => None
          end
      | None => None
      end
  end
with parse_members (fuel : nat) (s : string) : option (list (string * json) * string) :=
  match fuel with
  | O => None
  | S f =>
      match skip_ws s with
      | String c rest =>
          if Ascii.eqb c dquote then
            match parse_chars rest with
            | Some (k, r) =>
                match skip_ws r with
                | String c' r' =>
                    if Ascii.eqb c' ":"%char then
                      match parse_value f r' with
                      | Some (v, r'') =>
                          match skip_ws r'' with
                          | String c'' rest'' =>
                              if Ascii.eqb c'' "}"%char then Some ([(k, v)], rest'')
                              else if Ascii.eqb c'' ","%char then
                                match parse_members f rest'' with
                                | Some (kvs, r3) => Some ((k, v) :: kvs, r3)
                                | None => None
                                end
                              else None
                          | EmptyString => None
                          end
                      | None => None
                      end
                    else None
                | EmptyString => None
                end
            | None => None
            end
          else None
      | EmptyString => None
      end
  end.

(** [repr] of a value built from JSON, as an f-string prints a [dict];
    strings are put between single quotes as they are. *)
Fixpoint py_repr (v : json) : string :=
  match v with
  | JNull => "None"
  | JBool b => if b then "True" else "False"
  | JNum n => pretty n
  | JFloat printed => printed
  | JStr s => "'" +:+ s +:+ "'"
  | JArr items => "[" +:+ join ", " (map py_repr items) +:+ "]"
  | JObj fields =>
      "{" +:+ join ", " (map (λ kv, "'" +:+ kv.1 +:+ "': " +:+ py_repr kv.2) fields) +:+ "}"
  end.

(** [json.loads(s)] on the texts of a fragment of JSON: integers for
    numbers, no [\u] escapes.  On such a text [None] stands for
    [JSONDecodeError]; a text beyond the fragment gives [None] as well. *)
Definition json_loads (s : string) : option json :=
  match parse_value (S (String.length s)) s with
  | Some (v, rest) =>
      match skip_ws rest with
      | EmptyString => Some v
      | String _ _ => None
      end
  | None => None
  end.

End Py.

Export Py.

(* ===================================================================== *)
(** ** The file system and the host *)
(* ===================================================================== *)

Module Os.

(** What [open(..., 'r', encoding='utf-8')] finds in a regular file: text,
    or bytes that do not decode (with the decoder's message). *)
Inductive filedata : Type :=
  | Text (s : string)
  | Undecodable (why : string).

Inductive node : Type :=
  | Dir
  | File (readable writable : bool) (d : filedata).

Abbreviation FS := (gmap string node).

(** Computations that read and change a state and may raise.  The state
    reached is returned also when the computation raises. *)
Definition eff (S A : Type) : Type := S → result A * S.

Definition ret {S A} (a : A) : eff S A := λ s, (Ok a, s).

Definition raise {S A} (e : exn) : eff S A := λ s, (Raise e, s).

Definition bind {S A B} (m : eff S A) (k : A → eff S B) : eff S B :=
  λ s, match m s with
       | (Ok a, s') => k a s'
       | (Raise e, s') => (Raise e, s')
       end.

(** [try: body  except ...: handler]; a handler that does not cover an
    exception raises it again. *)
Definition try_except {S A} (body : eff S A) (handler : exn → eff S A) : eff S A :=
  λ s, match body s with
       | (Ok a, s') => (Ok a, s')
       | (Raise e, s') => handler e s'
       end.

(** A call that only looks at the state. *)
Definition observe {S A} (f : S → A) : eff S A := λ s, (Ok (f s), s).

Definition lift {S A} (f : S → result A) : eff S A := λ s, (f s, s).

(** A value or an exception computed without the state. *)
Definition of_result {S A} (r : result A) : eff S A := λ s, (r, s).

(** A call that only changes the state. *)
Definition modify {S} (f : S → S) : eff S unit := λ s, (Ok tt, f s).

(** Computations on the file system. *)
Abbreviation io := (eff FS).

(** The bytes a character takes in a path handed to the system (UTF-8). *)
Definition utf8_size (c : ascii) : nat :=
  if (nat_of_ascii c <? 128)%nat then 1%nat else 2%nat.

Fixpoint utf8_length (s : string) : nat :=
  match s with
  | EmptyString => 0%nat
  | String c rest => (utf8_size c + utf8_length rest)%nat
  end.

(** The size in bytes of the longest name of a path, the names being what
    stands between the slashes; [cur] is the size of the name being
    read and [best] the longest before it. *)
Fixpoint longest_name_go (cur best : nat) (s : string) : nat :=
  match s with
  | EmptyString => Nat.max best cur
  | String c rest =>
      if Ascii.eqb c "/"%char
      then longest_name_go 0 (Nat.max best cur) rest
      else longest_name_go (cur + utf8_size c) best rest
  end.

Definition longest_name (p : string) : nat := longest_name_go 0 0 p.

(** A path no file can have.  A NUL character is refused by every call
    before the system is asked ([ValueError]); a name of more than 255
    bytes or a path of more than 4095 is refused by the system with
    [ENAMETOOLONG]. *)
Definition path_fault (p : string) : option exn :=
  if str_in (String "000"%char "") p
  then Some (ValueError "embedded null byte")
  else if ((255 <? longest_name p)%nat || (4095 <? utf8_length p)%nat)%bool
  then Some (OSError ("[Errno 36] File name too long: '" +:+ p +:+ "'"))
  else None.

(** [Path.exists()]: the [ValueError] of a path that cannot be encoded
    counts as absence, an error of the system other than absence is
    raised. *)
Definition exists_ (fs : FS) (p : string) : result bool :=
  match fs !! p with
  | Some _ => Ok true
  | None =>
      match path_fault p with
      | Some (ValueError _) | None => Ok false
      | Some e => Raise e
      end
  end.

(** [Path.is_file()] on what [rglob] found. *)
Definition is_file (fs : FS) (p : string) : bool :=
  match fs !! p with Some (File _ _ _) => true | _ => false end.

(** [Path.is_absolute()] on POSIX *)
Definition is_absolute (p : string) : bool := String.prefix "/" p.

(** [root / rel] for a relative [rel] *)
Definition path_join (root rel : string) : string :=
  if String.eqb root "." then rel else root +:+ "/" +:+ rel.

(** What stands between the slashes of a path. *)
Fixpoint names_go (cur : string) (s : string) : list string :=
  match s with
  | EmptyString => [cur]
  | String c rest =>
      if Ascii.eqb c "/"%char then cur :: names_go "" rest
      else names_go (cur +:+ String c "") rest
  end.

(** The names of a path as [pathlib] keeps them: without the empty names
    and the names ["."]. *)
Definition names (p : string) : list string :=
  filter (λ n, n ≠ "" ∧ n ≠ ".") (names_go "" p).

(** The root of a path on POSIX: two leading slashes are kept, any other
    number of them is one. *)
Definition root_of (p : string) : string :=
  match p with
  | String "/" (String "/" rest) => if String.prefix "/" rest then "/" else "//"
  | String "/" _ => "/"
  | _ => ""
  end.

(** [str(Path(a) / Path(b))] for a relative [b]: the names of both behind
    the root of [a]; ["."] when nothing is left. *)
Definition path_div (a b : string) : string :=
  let s := root_of a +:+ join "/" (names a ++ names b) in
  if truthy s then s else ".".

(** [str(Path(p))] *)
Definition path_str (p : string) : string := path_div p "".

(** [open(p, 'r', encoding='utf-8')] followed by reading everything. *)
Definition read_text (fs : FS) (p : string) : result string :=
  match fs !! p with
  | None => Raise (default (FileNotFoundError p) (path_fault p))
  | Some Dir => Raise (IsADirectoryError p)
  | Some (File r _ d) =>
      if r then
        match d with
        | Text s => Ok s
        | Undecodable why => Raise (UnicodeDecodeError why)
        end
      else Raise (PermissionError p)
  end.

(** [open(p, 'w', encoding='utf-8')] followed by [f.write(content)].
    What can fail here is the [open]: then nothing is written.  A write
    that fails behind the [open], which has emptied the file by then, is
    not in the model. *)
Definition write_text (p content : string) : io unit := λ fs,
  match fs !! p with
  | None =>
      match path_fault p with
      | Some e => (Raise e, fs)
      | None => (Ok tt, <[p := File true true (Text content)]> fs)
      end
  | Some Dir => (Raise (IsADirectoryError p), fs)
  | Some (File r w _) =>
      if w then (Ok tt, <[p := File r w (Text content)]> fs)
      else (Raise (PermissionError p), fs)
  end.

(** [open(p, 'a')] followed by [f.write(text)]. *)
Definition append_text (p text : string) : io unit := λ fs,
  match fs !! p with
  | None =>
      match path_fault p with
      | Some e => (Raise e, fs)
      | None => (Ok tt, <[p := File true true (Text text)]> fs)
      end
  | Some Dir => (Raise (IsADirectoryError p), fs)
  | Some (File r w d) =>
      if w then
        (Ok tt,
         <[p := File r w match d with
                         | Text old => Text (old +:+ text)
                         | Undecodable why => Undecodable why
                         end]> fs)
      else (Raise (PermissionError p), fs)
  end.

(** The directories above a path, outermost first: ["a/b/c"] gives
    [["a"; "a/b"]].  The root directory is not listed. *)
Fixpoint ancestors_go (seen : string) (s : string) : list string :=
  match s with
  | EmptyString => []
  | String c rest =>
      if Ascii.eqb c "/"%char
      then match seen with
           | EmptyString => ancestors_go "/" rest
           | _ => seen :: ancestors_go (seen +:+ "/") rest
           end
      else ancestors_go (seen +:+ String c "") rest
  end.

Definition ancestors (p : string) : list string := ancestors_go "" p.

(** [Path(p).parent] *)
Definition parent (p : string) : string :=
  match last (ancestors p) with
  | Some d => d
  | None => if is_absolute p then "/" else "."
  end.

(** [Path(p).parent.mkdir(parents=True, exist_ok=True)]: missing
    directories are created from the top; a regular file in the way, or a
    name that cannot be, raises. *)
Fixpoint mkdir_chain (target : string) (ds : list string) : io unit := λ fs,
  match ds with
  | [] => (Ok tt, fs)
  | d :: rest =>
      match fs !! d with
      | None =>
          match path_fault d with
          | Some e => (Raise e, fs)
          | None => mkdir_chain target rest (<[d := Dir]> fs)
          end
      | Some Dir => mkdir_chain target rest fs
      | Some (File _ _ _) =>
          (Raise (if String.eqb d target then FileExistsError target
                  else NotADirectoryError target), fs)
      end
  end.

Definition mkdir_parents (p : string) : io unit :=
  mkdir_chain (parent p) (ancestors p).

(** The collaborators the sources import but do not define. *)
Record Host : Type := {
  (** [Path.cwd()] *)
  getcwd : string;
  (** [os.environ] *)
  environ : gmap string string;
  (** packages that can be imported *)
  installed : string → bool;
  (** [root.rglob(pattern)] for a relative pattern: the matches, relative
      to [root] *)
  rglob : FS → string → string → result (list string);
  (** [re.compile(query, re.IGNORECASE)]; [None] when the pattern is not a
      regular expression ([re.error]); otherwise [regex.search] *)
  re_compile : string → option (string → bool);
  (** [json.loads(text)]; [None] when it raises *)
  loads : string → option json;
  (** [security.hooks.validate_command(command, project_dir)] *)
  validate_command : string → string → bool * string;
  (** [subprocess.run(command, shell=True, cwd=cwd, capture_output=True,
      text=True, timeout=300)]: the captured [(stdout, stderr)], or
      [TimeoutExpired], or another exception; the command may change
      files *)
  run : string → option string → FS → result (string * string) * FS
}.

End Os.

Export Os.

Notation "'do' x <- m ; k" := (bind m (λ x, k))
  (at level 10, x name, m at level 100, k at level 200,
   format "'[v' 'do'  x  <-  m ; '/' k ']'").
Notation "m ;;; k" := (bind m (λ _, k))
  (at level 100, k at level 200, right associativity).

(* ===================================================================== *)
(** ** core/tools/builtin.py *)
(* ===================================================================== *)

Module Builtin.

Section WithHost.
Context (h : Host).

(** The test [path.exists()] stands before the handler: what it raises
    leaves the function. *)
Definition read_file (file_path : string) (start_line end_line : option Z)
    : io string :=
  do present <- lift (λ fs, exists_ fs file_path);
  if negb present then ret ("Error: File not found: " +:+ file_path)
  else
    try_except
      (do text <- lift (λ fs, read_text fs file_path);
       let lines := readlines text in
       match start_line, end_line with
       | None, None => ret (join "" lines)
       | _, _ =>
           let start :=
             match start_line with
             | Some n => if n =? 0 then 0 else n - 1
             | None => 0
             end in
           let stop :=
             match end_line with
             | Some n => if n =? 0 then Z.of_nat (length lines) else n
             | None => Z.of_nat (length lines)
             end in
           ret (join "" (slice lines start stop))
       end)
      (λ e, ret ("Error reading file: " +:+ exn_str e)).

Definition write_file (file_path content : string) : io string :=
  try_except
    (mkdir_parents file_path ;;;
     write_text file_path content ;;;
     ret ("Successfully wrote to " +:+ file_path))
    (λ e, ret ("Error writing file: " +:+ exn_str e)).

(** Here too [path.exists()] stands before the handler. *)
Definition edit_file (file_path target_content replacement_content : string)
    : io string :=
  do present <- lift (λ fs, exists_ fs file_path);
  if negb present then ret ("Error: File not found: " +:+ file_path)
  else
    try_except
      (do content <- lift (λ fs, read_text fs file_path);
       if negb (str_in target_content content)
       then ret ("Error: Target content not found in " +:+ file_path)
       else
         let new_content := str_replace content target_content replacement_content in
         write_text file_path new_content ;;;
         ret ("Successfully edited " +:+ file_path))
      (λ e, ret ("Error editing file: " +:+ exn_str e)).

(** [root.rglob(pattern)]: pathlib refuses a pattern that is not relative
    before it looks at the file system. *)
Definition path_rglob (root pattern : string) : io (list string) :=
  if is_absolute pattern
  then raise (NotImplementedError "Non-relative patterns are unsupported")
  else lift (λ fs, rglob h fs root pattern).

(** No handler here: what [rglob] raises leaves the function. *)
Definition glob_files (pattern root_dir : string) : io (list string) :=
  do rels <- path_rglob root_dir pattern;
  observe (λ fs, filter (λ rel, is_file fs (path_join root_dir rel) = true) rels).

(** The matching lines of one file, numbered from [i]. *)
Fixpoint grep_lines (search : string → bool) (rel : string) (i : nat)
    (lines : list string) : list string :=
  match lines with
  | [] => []
  | line :: rest =>
      (if search line
       then [rel +:+ ":" +:+ pretty i +:+ ": " +:+ strip line]
       else []) ++ grep_lines search rel (S i) rest
  end.

(** One round of the loop over the matches: [UnicodeDecodeError] and
    [PermissionError] skip the file, any other exception goes on. *)
Definition grep_one (search : string → bool) (root rel : string)
    : io (list string) :=
  do regular <- observe (λ fs, is_file fs (path_join root rel));
  if regular then
    try_except
      (do text <- lift (λ fs, read_text fs (path_join root rel));
       ret (grep_lines search rel 1 (readlines text)))
      (λ e, match e with
            | UnicodeDecodeError _ | PermissionError _ => ret []
            | _ => raise e
            end)
  else ret [].

Fixpoint grep_all (search : string → bool) (root : string) (rels : list string)
    : io (list string) :=
  match rels with
  | [] => ret []
  | rel :: rest =>
      do found <- grep_one search root rel;
      do more <- grep_all search root rest;
      ret (found ++ more)
  end.

(** [re.compile] and [rglob] are called outside any handler. *)
Definition grep_files (query pattern root_dir : string) : io string :=
  match re_compile h query with
  | None => raise (ReError ("invalid pattern: " +:+ query))
  | Some search =>
      do rels <- path_rglob root_dir pattern;
      do results <- grep_all search root_dir rels;
      ret (match results with
           | [] => "No matches found."
           | _ => join (String "010"%char "") results
           end)
  end.

Definition execute_bash (command : string) (cwd_arg : option string) : io string :=
  let project_dir := if truthy_opt cwd_arg then default "" cwd_arg else getcwd h in
  let '(is_allowed, reason) := validate_command h command project_dir in
  if negb is_allowed
  then ret ("Error: Command blocked by security policy: " +:+ reason)
  else
    try_except
      (do out <- run h command cwd_arg;
       let '(stdout, stderr) := out in
       let output :=
         if truthy stderr
         then stdout +:+ String "010"%char "Stderr:" +:+ String "010"%char stderr
         else stdout in
       ret (if truthy output then output else "[Command executed with no output]"))
      (λ e, match e with
            | TimeoutExpired _ => ret "Error: Command timed out after 300 seconds."
            | _ => ret ("Error executing command: " +:+ exn_str e)
            end).

End WithHost.

End Builtin.

(* ===================================================================== *)
(** ** core/engine.py: options, envelopes, tool schemas, tool dispatch *)
(* ===================================================================== *)

Module Engine.

(** [AgentOptions].  [mcp_servers] and [hooks] are opaque to the engines
    modelled here and left out. *)
Record AgentOptions : Type := {
  model : string;
  system_prompt : string;
  provider : option string;
  spec_dir : option string;
  allowed_tools : list string;
  max_turns : Z;
  cwd : option string;
  settings : option string;
  env : option (gmap string string);
  verbose : bool
}.

Definition with_system_prompt (o : AgentOptions) (p : string) : AgentOptions :=
  {| model := model o; system_prompt := p; provider := provider o;
     spec_dir := spec_dir o; allowed_tools := allowed_tools o;
     max_turns := max_turns o; cwd := cwd o; settings := settings o;
     env := env o; verbose := verbose o |}.

Definition with_max_turns (o : AgentOptions) (n : Z) : AgentOptions :=
  {| model := model o; system_prompt := system_prompt o; provider := provider o;
     spec_dir := spec_dir o; allowed_tools := allowed_tools o;
     max_turns := n; cwd := cwd o; settings := settings o;
     env := env o; verbose := verbose o |}.

(** [options.env or {}] *)
Definition env_or_empty (o : AgentOptions) : gmap string string :=
  default ∅ (env o).

(** What a tool hands back: a string, or the list of [glob_files]. *)
Inductive tool_value : Type :=
  | VStr (s : string)
  | VList (l : list string).

(** [str(result)]; the [repr] of a list item is the item between single
    quotes (items holding quotes or backslashes are printed differently by
    Python). *)
Definition py_str (v : tool_value) : string :=
  match v with
  | VStr s => s
  | VList l => "[" +:+ join ", " (map (λ s, "'" +:+ s +:+ "'") l) +:+ "]"
  end.

(** The envelopes handed to the caller: [AssistantMessage(chunk)] wraps
    what the backend sent, [UserMessage(tool_use_id, content)] carries the
    result of a tool. *)
Inductive envelope (C : Type) : Type :=
  | AssistantMessage (chunk : C)
  | UserMessage (tool_use_id : string) (content : tool_value) (is_error : bool).
Arguments AssistantMessage {C} chunk.
Arguments UserMessage {C} tool_use_id content is_error.

(** *** Tool schemas *)

(** The JSON schema of one tool: its properties with their types and the
    required ones. *)
Record schema : Type := {
  name : string;
  description : string;
  properties : list (string * string);
  required : list string
}.

(** [{"function_declarations": [...]}] *)
Record gemini_tool : Type := { function_declarations : list schema }.

(** [{"type": "function", "function": {...}}] *)
Record openai_tool : Type := { type_ : string; function : schema }.

Definition _make_gemini_tool (n d : string) (props : list (string * string))
    (req : list string) : gemini_tool :=
  {| function_declarations :=
       [ {| name := n; description := d; properties := props; required := req |} ] |}.

(** The loop of [get_agent_allowed_tools] in
    [GeminiAgentEngine._initialize_model]; [_configure_tools] repeats it
    word for word. *)
Fixpoint get_agent_allowed_tools (allowed_tools_list : list string) : list gemini_tool :=
  match allowed_tools_list with
  | [] => []
  | tool_name :: rest =>
      (if String.eqb tool_name "Read" then
         [_make_gemini_tool "Read" "Read a file or a specific range of lines."
            [("file_path", "string"); ("start_line", "integer"); ("end_line", "integer")]
            ["file_path"]]
       else if String.eqb tool_name "Write" then
         [_make_gemini_tool "Write" "Create or overwrite a file."
            [("file_path", "string"); ("content", "string")]
            ["file_path"; "content"]]
       else if String.eqb tool_name "Edit" then
         [_make_gemini_tool "Edit"
            "Edit a file by replacing target_content with replacement_content."
            [("file_path", "string"); ("target_content", "string");
             ("replacement_content", "string")]
            ["file_path"; "target_content"; "replacement_content"]]
       else if String.eqb tool_name "Glob" then
         [_make_gemini_tool "Glob" "List files matching a pattern."
            [("pattern", "string")] ["pattern"]]
       else if String.eqb tool_name "Grep" then
         [_make_gemini_tool "Grep" "Search for a string in files."
            [("query", "string"); ("pattern", "string")] ["query"]]
       else if String.eqb tool_name "Bash" then
         [_make_gemini_tool "Bash" "Execute a bash command."
            [("command", "string")] ["command"]]
       else [])
      ++ get_agent_allowed_tools rest
  end.

Definition openai_function (n d : string) (props : list (string * string))
    (req : list string) : openai_tool :=
  {| type_ := "function";
     function := {| name := n; description := d; properties := props; required := req |} |}.

(** [OpenAIAgentEngine._get_openai_tools] *)
Fixpoint _get_openai_tools (allowed_tools_list : list string) : list openai_tool :=
  match allowed_tools_list with
  | [] => []
  | tool_name :: rest =>
      (if String.eqb tool_name "Read" then
         [openai_function "Read" "Read file content"
            [("file_path", "string"); ("start_line", "integer"); ("end_line", "integer")]
            ["file_path"]]
       else if String.eqb tool_name "Write" then
         [openai_function "Write" "Create/Overwrite file"
            [("file_path", "string"); ("content", "string")]
            ["file_path"; "content"]]
       else if String.eqb tool_name "Edit" then
         [openai_function "Edit" "Edit file content"
            [("file_path", "string"); ("target_content", "string");
             ("replacement_content", "string")]
            ["file_path"; "target_content"; "replacement_content"]]
       else if String.eqb tool_name "Glob" then
         [openai_function "Glob" "List files" [("pattern", "string")] ["pattern"]]
       else if String.eqb tool_name "Grep" then
         [openai_function "Grep" "Search in files"
            [("query", "string"); ("pattern", "string")] ["query"]]
       else if String.eqb tool_name "Bash" then
         [openai_function "Bash" "Run bash command" [("command", "string")] ["command"]]
       else [])
      ++ _get_openai_tools rest
  end.

(** The parameters a schema declares, each with whether it is required. *)
Definition declared (s : schema) : list (string * bool) :=
  map (λ p, (p.1, bool_decide (p.1 ∈ required s))) (properties s).

(** The schemas a backend receives from each adapter. *)
Definition gemini_registered (allowed : list string) : list schema :=
  concat (map function_declarations (get_agent_allowed_tools allowed)).

Definition openai_registered (allowed : list string) : list schema :=
  map function (_get_openai_tools allowed).

(** *** Calling the built-in tools with the arguments of a tool call *)

Section Dispatch.
Context (h : Host).

(** A call with unpacked keyword arguments: an unknown keyword or a
    missing required parameter is a [TypeError] raised by the call
    itself. *)
Definition bind_kwargs (fname : string) (params : list (string * bool))
    (args : list (string * json)) : result unit :=
  match filter (λ kv, kv.1 ∉ map fst params) args with
  | (k, _) :: _ =>
      Raise (TypeError (fname +:+ "() got an unexpected keyword argument '" +:+ k +:+ "'"))
  | [] =>
      match filter (λ p, p.2 = true ∧ dict_has p.1 args = false) params with
      | (k, _) :: _ =>
          Raise (TypeError (fname +:+ "() missing 1 required positional argument: '"
                            +:+ k +:+ "'"))
      | [] => Ok tt
      end
  end.

(** The arguments are used with their annotated types.  A value of another
    type is outside the modelled fragment and reported as [TypeError]. *)
Definition arg_str (k : string) (args : list (string * json)) : result string :=
  match dict_get k args with
  | Some (JStr s) => Ok s
  | _ => Raise (TypeError ("argument '" +:+ k +:+ "' is not a string"))
  end.

Definition arg_str_or (k dflt : string) (args : list (string * json)) : result string :=
  match dict_get k args with
  | None => Ok dflt
  | Some (JStr s) => Ok s
  | Some _ => Raise (TypeError ("argument '" +:+ k +:+ "' is not a string"))
  end.

Definition arg_int (k : string) (args : list (string * json)) : result (option Z) :=
  match dict_get k args with
  | None | Some JNull => Ok None
  | Some (JNum n) => Ok (Some n)
  | Some _ => Raise (TypeError ("argument '" +:+ k +:+ "' is not an integer"))
  end.

Definition call_read_file (args : list (string * json)) : io tool_value :=
  do _ <- of_result (bind_kwargs "read_file"
            [("file_path", true); ("start_line", false); ("end_line", false)] args);
  do p <- of_result (arg_str "file_path" args);
  do a <- of_result (arg_int "start_line" args);
  do b <- of_result (arg_int "end_line" args);
  do r <- Builtin.read_file p a b;
  ret (VStr r).

Definition call_write_file (args : list (string * json)) : io tool_value :=
  do _ <- of_result (bind_kwargs "write_file"
            [("file_path", true); ("content", true)] args);
  do p <- of_result (arg_str "file_path" args);
  do c <- of_result (arg_str "content" args);
  do r <- Builtin.write_file p c;
  ret (VStr r).

Definition call_edit_file (args : list (string * json)) : io tool_value :=
  do _ <- of_result (bind_kwargs "edit_file"
            [("file_path", true); ("target_content", true);
             ("replacement_content", true)] args);
  do p <- of_result (arg_str "file_path" args);
  do t <- of_result (arg_str "target_content" args);
  do r <- of_result (arg_str "replacement_content" args);
  do out <- Builtin.edit_file p t r;
  ret (VStr out).

Definition call_glob_files (args : list (string * json)) : io tool_value :=
  do _ <- of_result (bind_kwargs "glob_files"
            [("pattern", true); ("root_dir", false)] args);
  do p <- of_result (arg_str "pattern" args);
  do root <- of_result (arg_str_or "root_dir" "." args);
  do r <- Builtin.glob_files h p root;
  ret (VList r).

Definition call_grep_files (args : list (string * json)) : io tool_value :=
  do _ <- of_result (bind_kwargs "grep_files"
            [("query", true); ("pattern", false); ("root_dir", false)] args);
  do q <- of_result (arg_str "query" args);
  do p <- of_result (arg_str_or "pattern" "*" args);
  do root <- of_result (arg_str_or "root_dir" "." args);
  do r <- Builtin.grep_files h q p root;
  ret (VStr r).

(** [execute_bash(command=args.get("command"), cwd=self.options.cwd)] *)
Definition call_execute_bash (o : AgentOptions) (args : list (string * json))
    : io tool_value :=
  do c <- of_result (arg_str "command" args);
  do r <- Builtin.execute_bash h c (cwd o);
  ret (VStr r).

(** [Path(self.options.cwd) if self.options.cwd else Path.cwd()] *)
Definition working_dir (o : AgentOptions) : string :=
  if truthy_opt (cwd o) then default "" (cwd o) else getcwd h.

(** A relative [file_path] becomes [str(cwd / fp)]; an absolute one stays
    as it is written, and a value that is not a path is left for the tool
    to report. *)
Definition resolve_file_path (o : AgentOptions) (args : list (string * json))
    : list (string * json) :=
  match dict_get "file_path" args with
  | Some (JStr fp) =>
      if is_absolute fp then args
      else dict_set "file_path" (JStr (path_div (working_dir o) fp)) args
  | _ => args
  end.

Definition default_root_dir (o : AgentOptions) (args : list (string * json))
    : list (string * json) :=
  if dict_has "root_dir" args then args
  else dict_set "root_dir" (JStr (working_dir o)) args.

(** The [if fc.name == ...] chain shared by both adapters; they differ in
    the message for a name outside the six. *)
Definition dispatch (o : AgentOptions) (unknown : string → string)
    (tool : string) (args : list (string * json)) : io tool_value :=
  if String.eqb tool "Read" then call_read_file args
  else if String.eqb tool "Write" then call_write_file args
  else if String.eqb tool "Edit" then call_edit_file args
  else if String.eqb tool "Glob" then call_glob_files (default_root_dir o args)
  else if String.eqb tool "Grep" then call_grep_files (default_root_dir o args)
  else if String.eqb tool "Bash" then call_execute_bash o args
  else ret (VStr (unknown tool)).

End Dispatch.

(** *** OpenAIAgentEngine *)

Module OpenAI.

(** [{"id": ..., "type": "function", "function": {"name": ..., "arguments": ...}}] *)
Record tool_call : Type := {
  tc_id : string;
  tc_type : string;
  tc_name : string;
  tc_arguments : string
}.

(** The entries of [self.history]. *)
Inductive entry : Type :=
  (** [{"role": role, "content": content}] *)
  | Message (role content : string)
  (** [{"role": "assistant", "content": content or None, "tool_calls": calls}] *)
  | ToolCallsMessage (content : option string) (calls : list tool_call)
  (** [{"role": "tool", "tool_call_id": id, "name": name, "content": content}] *)
  | ToolMessage (tool_call_id name content : string).

(** [entry["role"]] *)
Definition role_of (e : entry) : string :=
  match e with
  | Message r _ => r
  | ToolCallsMessage _ _ => "assistant"
  | ToolMessage _ _ _ => "tool"
  end.

(** [entry["content"] = c] *)
Definition set_content (c : string) (e : entry) : entry :=
  match e with
  | Message r _ => Message r c
  | ToolCallsMessage _ calls => ToolCallsMessage (Some c) calls
  | ToolMessage i n _ => ToolMessage i n c
  end.

Record engine : Type := {
  options : AgentOptions;
  api_key : string;
  base_url : string;
  system_prompt : string;
  history : list entry
}.

Definition with_history (e : engine) (hist : list entry) : engine :=
  {| options := options e; api_key := api_key e; base_url := base_url e;
     system_prompt := system_prompt e; history := hist |}.

Definition _set_system_prompt_msg (e : engine) : engine :=
  with_history e
    match history e with
    | [] => [Message "system" (system_prompt e)]
    | first :: rest =>
        if String.eqb (role_of first) "system"
        then set_content (system_prompt e) first :: rest
        else Message "system" (system_prompt e) :: first :: rest
    end.

Definition set_system_prompt (prompt : string) (e : engine) : engine :=
  _set_system_prompt_msg
    {| options := options e; api_key := api_key e; base_url := base_url e;
       system_prompt := prompt; history := history e |}.

Definition query (message : string) (e : engine) : engine :=
  with_history e (history e ++ [Message "user" message]).

(** [OpenAIAgentEngine.__init__] *)
Definition init (h : Host) (o : AgentOptions) : result engine :=
  if negb (installed h "openai")
  then Raise (RuntimeError "openai package not installed. Run 'pip install openai'")
  else
    let env := env_or_empty o in
    let key :=
      or_else (or_else (or_else (env !! "ZAI_API_KEY") (env !! "OPENAI_API_KEY"))
                       (environ h !! "ZAI_API_KEY"))
              (environ h !! "OPENAI_API_KEY") in
    let url0 :=
      default "" (or_else (or_else (env !! "OPENAI_BASE_URL")
                                   (environ h !! "OPENAI_BASE_URL"))
                          (Some "https://api.openai.com/v1")) in
    let url :=
      if (str_in "z.ai" url0 || str_in "glm" (lower (model o)))%bool
      then if (negb (truthy url0) || str_in "api.openai.com" url0)%bool
           then "https://api.z.ai/api/coding/paas/v4"
           else url0
      else url0 in
    let key := if truthy_opt key then default "" key else "dummy-key" in
    Ok (_set_system_prompt_msg
          {| options := o; api_key := key; base_url := url;
             system_prompt := Engine.system_prompt o; history := [] |}).

(** One fragment of a tool call in a streamed delta. *)
Record tc_chunk : Type := {
  index : nat;
  id : option string;
  function_name : option string;
  function_arguments : option string
}.

(** [chunk.choices[i].delta] *)
Record delta : Type := {
  content : option string;
  tool_calls : option (list tc_chunk)
}.

Record chunk : Type := { choices : list delta }.

(** The keyword arguments of [client.chat.completions.create]; [tools] and
    [tool_choice="auto"] are passed when [tools] is not empty. *)
Record request : Type := {
  req_model : string;
  req_messages : list entry;
  req_tools : list openai_tool
}.

Definition empty_call : tool_call :=
  {| tc_id := ""; tc_type := "function"; tc_name := ""; tc_arguments := "" |}.

(** [field += part] when [part] is truthy. *)
Definition add_part (field : string) (part : option string) : string :=
  if truthy_opt part then field +:+ default "" part else field.

Definition extend (tc : tool_call) (c : tc_chunk) : tool_call :=
  {| tc_id := add_part (tc_id tc) (id c);
     tc_type := tc_type tc;
     tc_name := add_part (tc_name tc) (function_name c);
     tc_arguments := add_part (tc_arguments tc) (function_arguments c) |}.

(** The body of [for tc_chunk in delta.tool_calls]: at most one slot is
    appended, then slot [index] is read, which raises when it is still
    missing. *)
Definition collect_one (calls : list tool_call) (c : tc_chunk)
    : result (list tool_call) :=
  let calls := if (length calls <=? index c)%nat then calls ++ [empty_call] else calls in
  match calls !! index c with
  | Some tc => Ok (<[index c := extend tc c]> calls)
  | None => Raise (IndexError "list index out of range")
  end.

Fixpoint collect (calls : list tool_call) (cs : list tc_chunk)
    : result (list tool_call) :=
  match cs with
  | [] => Ok calls
  | c :: rest =>
      match collect_one calls c with
      | Ok calls' => collect calls' rest
      | Raise e => Raise e
      end
  end.

(** What the caller and the backend see, in order. *)
Inductive event : Type :=
  (** [await self.client.chat.completions.create(...)] and its stream *)
  | Call (req : request) (response : list chunk)
  (** [yield] *)
  | Yield (e : envelope chunk).

Definition six : list string := ["Read"; "Write"; "Edit"; "Glob"; "Grep"; "Bash"].

Section Backend.
Context (h : Host).
(** The backend: its state and its answer to a request. *)
Context {B : Type} (create : B → request → B * list chunk).

Record world : Type := {
  eng : engine;
  files : FS;
  backend : B;
  trace : list event
}.

Definition emit (ev : event) : eff world unit :=
  modify (λ w, {| eng := eng w; files := files w; backend := backend w;
                  trace := trace w ++ [ev] |}).

Definition append_history (e : entry) : eff world unit :=
  modify (λ w, {| eng := with_history (eng w) (history (eng w) ++ [e]);
                  files := files w; backend := backend w; trace := trace w |}).

(** Runs a tool on the files of the world. *)
Definition on_files {A} (m : io A) : eff world A :=
  λ w, let '(r, fs) := m (files w) in
       (r, {| eng := eng w; files := fs; backend := backend w; trace := trace w |}).

(** [await self.client.chat.completions.create(...)] with
    [messages=self.history] *)
Definition send (tools : list openai_tool) : eff world (list chunk) :=
  λ w, let req := {| req_model := model (options (eng w));
                     req_messages := history (eng w);
                     req_tools := tools |} in
       let '(b, response) := create (backend w) req in
       (Ok response,
        {| eng := eng w; files := files w; backend := b;
           trace := trace w ++ [Call req response] |}).

(** The body of [async for chunk in response_stream]. *)
Definition consume_chunk (acc : list tool_call * string) (c : chunk)
    : eff world (list tool_call * string) :=
  let '(calls, current_content) := acc in
  match choices c with
  | [] => raise (IndexError "list index out of range")
  | d :: _ =>
      do current_content <-
        (if truthy_opt (content d)
         then emit (Yield (AssistantMessage c)) ;;;
              ret (current_content +:+ default "" (content d))
         else ret current_content);
      do calls <-
        (match tool_calls d with
         | Some ((_ :: _) as cs) => of_result (collect calls cs)
         | _ => ret calls
         end);
      ret (calls, current_content)
  end.

Fixpoint consume (acc : list tool_call * string) (stream : list chunk)
    : eff world (list tool_call * string) :=
  match stream with
  | [] => ret acc
  | c :: rest => do acc' <- consume_chunk acc c; consume acc' rest
  end.

Definition unknown_tool (tool : string) : string :=
  "Error: Tool " +:+ tool +:+ " not found".

(** Path resolution and dispatch on what [json.loads] gave ([{}] when it
    raised).  A list or a string passes the membership tests and fails in
    the call; any other value fails the first test. *)
Definition run_tool (o : AgentOptions) (tool : string) (arguments : string)
    : io tool_value :=
  match default (JObj []) (loads h arguments) with
  | JObj args => dispatch h o unknown_tool tool (resolve_file_path h o args)
  | JArr _ | JStr _ =>
      if bool_decide (tool ∈ six)
      then raise (if String.eqb tool "Bash"
                  then AttributeError "object has no attribute 'get'"
                  else TypeError "argument after ** must be a mapping")
      else ret (VStr (unknown_tool tool))
  | _ => raise (TypeError "argument is not iterable")
  end.

(** [_handle_tool_calls]: each call is run, recorded in the history as a
    [tool] entry and handed to the caller. *)
Fixpoint _handle_tool_calls (calls : list tool_call) : eff world unit :=
  match calls with
  | [] => ret tt
  | tc :: rest =>
      do o <- observe (λ w, options (eng w));
      do result <- on_files (run_tool o (tc_name tc) (tc_arguments tc));
      append_history (ToolMessage (tc_id tc) (tc_name tc) (py_str result)) ;;;
      emit (Yield (UserMessage (tc_id tc) (VStr (py_str result)) false)) ;;;
      _handle_tool_calls rest
  end.

(** How a run of the loop stopped: it left the loop, or the rounds granted
    to the run were used up while the loop was still going. *)
Inductive ending : Type := Finished | Running.

(** [while True:] of [receive_response], for at most [fuel] rounds. *)
Fixpoint receive_loop (tools : list openai_tool) (fuel : nat) : eff world ending :=
  match fuel with
  | O => ret Running
  | S fuel' =>
      do response_stream <- send tools;
      do acc <- consume ([], "") response_stream;
      let '(calls, current_content) := acc in
      (if truthy current_content
       then append_history (Message "assistant" current_content)
       else ret tt) ;;;
      match calls with
      | [] => ret Finished
      | _ :: _ =>
          append_history
            (ToolCallsMessage
               (if truthy current_content then Some current_content else None)
               calls) ;;;
          _handle_tool_calls calls ;;;
          receive_loop tools fuel'
      end
  end.

Definition receive_response (fuel : nat) : eff world ending :=
  do o <- observe (λ w, options (eng w));
  receive_loop (_get_openai_tools (allowed_tools o)) fuel.

End Backend.

End OpenAI.

(** *** GeminiAgentEngine *)

Module Gemini.

(** [part.function_call] *)
Record function_call : Type := {
  fc_name : string;
  fc_args : list (string * json)
}.

(** A part of [candidate.content.parts]; an absent or empty field is
    [None]. *)
Record part : Type := {
  text : option string;
  part_function_call : option function_call
}.

Record candidate : Type := { parts : list part }.

Record chunk : Type := { candidates : list candidate }.

(** [{"function_response": {"name": ..., "response": {"result": ...}}}] *)
Record function_response : Type := {
  fr_name : string;
  fr_result : tool_value
}.

(** What [send_message_async] is given: the user's message, or the
    results of the tools of one pass. *)
Inductive input : Type :=
  | UserText (message : string)
  | ToolResults (results : list function_response).

(** [genai.GenerativeModel(model_name, system_instruction, tools)] *)
Record generative_model : Type := {
  model_name : string;
  system_instruction : string;
  tools : list gemini_tool
}.

Inductive event : Type :=
  (** [await self.chat_session.send_message_async(..., stream=True)] and
      the stream it opens *)
  | Send (i : input) (response : list chunk)
  (** [yield] *)
  | Yield (e : envelope chunk).

Record engine : Type := {
  options : AgentOptions;
  api_key : string;
  gen_model : generative_model;
  (** the chunks of [self._current_response] not read yet *)
  _current_response : option (list chunk);
  _pending_tool_results : list (envelope chunk);
  _tools_configured : bool
}.

Definition _initialize_model (o : AgentOptions) : generative_model :=
  {| model_name := model o;
     system_instruction := system_prompt o;
     tools := get_agent_allowed_tools (allowed_tools o) |}.

Section Backend.
Context (h : Host).
(** The chat session of the SDK: [start_chat] opens one for a model and a
    history, [send_message] answers with a stream. *)
Context {B Item : Type}.
Context (start_chat : generative_model → list Item → B).
Context (session_history : B → list Item).
Context (send_message : B → input → B * list chunk).

Record world : Type := {
  eng : engine;
  files : FS;
  chat_session : B;
  trace : list event
}.

Definition _debug_log_path : string := path_join (getcwd h) "gemini_debug.txt".

(** [GeminiAgentEngine.__init__] *)
Definition init (o : AgentOptions) : io (engine * B) :=
  if negb (installed h "google.generativeai")
  then raise (ImportError "google.generativeai")
  else
    let key := or_else (env_or_empty o !! "GEMINI_API_KEY")
                       (environ h !! "GEMINI_API_KEY") in
    let key := if truthy_opt key then key
               else or_else (env_or_empty o !! "GOOGLE_API_KEY")
                            (environ h !! "GOOGLE_API_KEY") in
    if negb (truthy_opt key)
    then raise (ValueError "GEMINI_API_KEY or GOOGLE_API_KEY must be provided")
    else
      let m := _initialize_model o in
      (if verbose o
       then append_text _debug_log_path
              (String "010"%char "--- SESSION START: " +:+ model o +:+ " ---"
               +:+ String "010"%char "")
       else ret tt) ;;;
      ret ({| options := o; api_key := default "" key; gen_model := m;
              _current_response := None; _pending_tool_results := [];
              _tools_configured := false |},
           start_chat m []).

Definition update (f : engine → engine) : eff world unit :=
  modify (λ w, {| eng := f (eng w); files := files w;
                  chat_session := chat_session w; trace := trace w |}).

Definition emit (ev : event) : eff world unit :=
  modify (λ w, {| eng := eng w; files := files w;
                  chat_session := chat_session w; trace := trace w ++ [ev] |}).

Definition on_files {A} (m : io A) : eff world A :=
  λ w, let '(r, fs) := m (files w) in
       (r, {| eng := eng w; files := fs; chat_session := chat_session w;
              trace := trace w |}).

Definition restart_chat (m : generative_model) (hist : list Item) : eff world unit :=
  modify (λ w, {| eng := {| options := options (eng w); api_key := api_key (eng w);
                            gen_model := m;
                            _current_response := _current_response (eng w);
                            _pending_tool_results := _pending_tool_results (eng w);
                            _tools_configured := _tools_configured (eng w) |};
                  files := files w; chat_session := start_chat m hist;
                  trace := trace w |}).

Definition set_options (o : AgentOptions) (e : engine) : engine :=
  {| options := o; api_key := api_key e; gen_model := gen_model e;
     _current_response := _current_response e;
     _pending_tool_results := _pending_tool_results e;
     _tools_configured := _tools_configured e |}.

Definition set_current (r : option (list chunk)) (e : engine) : engine :=
  {| options := options e; api_key := api_key e; gen_model := gen_model e;
     _current_response := r;
     _pending_tool_results := _pending_tool_results e;
     _tools_configured := _tools_configured e |}.

Definition set_pending (p : list (envelope chunk)) (e : engine) : engine :=
  {| options := options e; api_key := api_key e; gen_model := gen_model e;
     _current_response := _current_response e;
     _pending_tool_results := p;
     _tools_configured := _tools_configured e |}.

Definition set_configured (e : engine) : engine :=
  {| options := options e; api_key := api_key e; gen_model := gen_model e;
     _current_response := _current_response e;
     _pending_tool_results := _pending_tool_results e;
     _tools_configured := true |}.

(** The chat is restarted on the new model with the history it had. *)
Definition set_system_prompt (prompt : string) : eff world unit :=
  do hist <- observe (λ w, session_history (chat_session w));
  update (λ e, set_options (with_system_prompt (options e) prompt) e) ;;;
  do o <- observe (λ w, options (eng w));
  restart_chat (_initialize_model o) hist.

(** [self.history] of the base class is never written by this engine. *)
Definition _configure_tools : eff world unit :=
  do o <- observe (λ w, options (eng w));
  (match get_agent_allowed_tools (allowed_tools o) with
   | [] => ret tt
   | gemini_tools =>
       restart_chat {| model_name := model o;
                       system_instruction := system_prompt o;
                       tools := gemini_tools |} []
   end) ;;;
  update set_configured.

(** [self._current_response = await
    self.chat_session.send_message_async(i, stream=True)] *)
Definition send (i : input) : eff world unit :=
  λ w, let '(b, response) := send_message (chat_session w) i in
       (Ok tt,
        {| eng := set_current (Some response) (eng w); files := files w;
           chat_session := b; trace := trace w ++ [Send i response] |}).

Definition query (message : string) : eff world unit :=
  do configured <- observe (λ w, _tools_configured (eng w));
  (if configured then ret tt else _configure_tools) ;;;
  send (UserText message).

Definition unknown_tool (tool : string) : string :=
  "Error: Tool " +:+ tool +:+ " not implemented.".

(** The text written to standard error and to the debug log. *)
Definition debug_message (fc : function_call) (args : list (string * json))
    (result : tool_value) : string :=
  String "010"%char "[DEBUG] Tool " +:+ fc_name fc +:+ " called with "
  +:+ py_repr (JObj args)
  +:+ String "010"%char "[DEBUG] Result (first 100 chars): "
  +:+ String.substring 0 100 (py_str result) +:+ "..." +:+ String "010"%char "".

(** The body of [for fc in function_calls]. *)
Definition run_call (fc : function_call)
    : eff world (function_response * envelope chunk) :=
  do o <- observe (λ w, options (eng w));
  let args := resolve_file_path h o (fc_args fc) in
  do result <- on_files (dispatch h o unknown_tool (fc_name fc) args);
  let args := if (String.eqb (fc_name fc) "Glob" || String.eqb (fc_name fc) "Grep")%bool
              then default_root_dir h o args else args in
  (if verbose o
   then on_files (append_text _debug_log_path (debug_message fc args result))
   else ret tt) ;;;
  ret ({| fr_name := fc_name fc; fr_result := result |},
       UserMessage "dummy_id" result false).

Fixpoint run_calls (function_calls : list function_call)
    : eff world (list function_response) :=
  match function_calls with
  | [] => ret []
  | fc :: rest =>
      do r <- run_call fc;
      update (λ e, set_pending (_pending_tool_results e ++ [r.2]) e) ;;;
      do more <- run_calls rest;
      ret (r.1 :: more)
  end.

(** [_handle_tool_calls]: all the calls are run, then their results are
    sent; the envelopes wait in [_pending_tool_results]. *)
Definition _handle_tool_calls (function_calls : list function_call) : eff world bool :=
  match function_calls with
  | [] => ret false
  | _ :: _ =>
      update (set_pending []) ;;;
      do tool_results <- run_calls function_calls;
      send (ToolResults tool_results) ;;;
      ret true
  end.

(** The function calls in the parts of the first candidate. *)
Definition function_calls_of (c : chunk) : list function_call :=
  match candidates c with
  | [] => []
  | first :: _ => omap part_function_call (parts first)
  end.

(** [async for chunk in self._current_response]: every chunk is handed
    on at once and searched for function calls. *)
Fixpoint consume (stream : list chunk) : eff world (list function_call) :=
  match stream with
  | [] => ret []
  | c :: rest =>
      emit (Yield (AssistantMessage c)) ;;;
      update (set_current (Some rest)) ;;;
      do more <- consume rest;
      ret (function_calls_of c ++ more)
  end.

Fixpoint yield_all (envelopes : list (envelope chunk)) : eff world unit :=
  match envelopes with
  | [] => ret tt
  | e :: rest => emit (Yield e) ;;; yield_all rest
  end.

Inductive ending : Type := Finished | Running.

(** [while True:] of [receive_response], for at most [fuel] rounds. *)
Fixpoint receive_loop (fuel : nat) : eff world ending :=
  match fuel with
  | O => ret Running
  | S fuel' =>
      do stream <- observe (λ w, default [] (_current_response (eng w)));
      do collected_function_calls <- consume stream;
      match stream with
      | [] => ret Finished
      | _ :: _ =>
          match collected_function_calls with
          | [] => ret Finished
          | _ :: _ =>
              do handled <- _handle_tool_calls collected_function_calls;
              if handled then
                do pending <- observe (λ w, _pending_tool_results (eng w));
                yield_all pending ;;;
                update (set_pending []) ;;;
                receive_loop fuel'
              else ret Finished
          end
      end
  end.

Definition receive_response (fuel : nat) : eff world ending :=
  do current <- observe (λ w, _current_response (eng w));
  match current with
  | None => ret Finished
  | Some _ => receive_loop fuel
  end.

End Backend.

End Gemini.

(** *** CustomCliAgentEngine: the session marker and the command line *)

Module CustomCli.

Record engine : Type := {
  options : AgentOptions;
  prompt : string;
  session_id : option string
}.

(** [Path(self.options.spec_dir) / ".droid_session_id"] *)
Definition session_file (o : AgentOptions) : string :=
  path_div (default "" (spec_dir o)) ".droid_session_id".

(** The test [session_file.exists()] stands before the handler: what it
    raises leaves the function, and the constructor. *)
Definition _load_session_id (fs : FS) (e : engine) : result engine :=
  if negb (truthy_opt (spec_dir (options e))) then Ok e
  else
    match exists_ fs (session_file (options e)) with
    | Raise err => Raise err
    | Ok false => Ok e
    | Ok true =>
        match read_text fs (session_file (options e)) with
        | Ok marker =>
            Ok {| options := options e; prompt := prompt e;
                  session_id := Some (strip marker) |}
        | Raise _ => Ok e
        end
    end.

(** [CustomCliAgentEngine.__init__] *)
Definition init (fs : FS) (o : AgentOptions) : result engine :=
  _load_session_id fs {| options := o; prompt := ""; session_id := None |}.

Definition query (message : string) (e : engine) : engine :=
  {| options := options e; prompt := message; session_id := session_id e |}.

(** **** [str.format] with the four keyword arguments *)

Definition is_digit (c : ascii) : bool :=
  match digit_of c with Some _ => true | None => false end.

Fixpoint all_chars (p : ascii → bool) (s : string) : bool :=
  match s with
  | EmptyString => true
  | String c rest => p c && all_chars p rest
  end.

Fixpoint any_char (p : ascii → bool) (s : string) : bool :=
  match s with
  | EmptyString => false
  | String c rest => p c || any_char p rest
  end.

(** The characters that begin a conversion, a format specification, an
    attribute or an index in a replacement field. *)
Definition field_syntax (c : ascii) : bool :=
  match c with
  | "!"%char | ":"%char | "."%char | "["%char | "{"%char => true
  | _ => false
  end.

(** The value of a replacement field.  Fields with a conversion, a format
    specification or a lookup are outside the modelled fragment and
    reported as [ValueError]. *)
Definition field_value (kwargs : list (string * string)) (field : string)
    : result string :=
  if any_char field_syntax field
  then Raise (ValueError "replacement field outside the modelled fragment")
  else if all_chars is_digit field
  then Raise (IndexError "Replacement index out of range for positional args tuple")
  else match list_find (λ kv, kv.1 = field) kwargs with
       | Some (_, (_, v)) => Ok v
       | None => Raise (KeyError field)
       end.

Inductive fmode : Type :=
  | FText
  | FOpen
  | FField (field : string)
  | FClose.

Definition prepend (c : ascii) (r : result string) : result string :=
  match r with Ok s => Ok (String c s) | Raise e => Raise e end.

Fixpoint format_go (kwargs : list (string * string)) (m : fmode) (s : string)
    : result string :=
  match s with
  | EmptyString =>
      match m with
      | FText => Ok ""
      | FOpen => Raise (ValueError "Single '{' encountered in format string")
      | FField _ => Raise (ValueError "expected '}' before end of string")
      | FClose => Raise (ValueError "Single '}' encountered in format string")
      end
  | String c rest =>
      let close_field (field : string) :=
        match field_value kwargs field with
        | Ok v =>
            match format_go kwargs FText rest with
            | Ok s' => Ok (v +:+ s')
            | Raise e => Raise e
            end
        | Raise e => Raise e
        end in
      match m with
      | FText =>
          if Ascii.eqb c "{"%char then format_go kwargs FOpen rest
          else if Ascii.eqb c "}"%char then format_go kwargs FClose rest
          else prepend c (format_go kwargs FText rest)
      | FOpen =>
          if Ascii.eqb c "{"%char then prepend c (format_go kwargs FText rest)
          else if Ascii.eqb c "}"%char then close_field ""
          else format_go kwargs (FField (String c "")) rest
      | FField field =>
          if Ascii.eqb c "}"%char then close_field field
          else format_go kwargs (FField (field +:+ String c "")) rest
      | FClose =>
          if Ascii.eqb c "}"%char then prepend c (format_go kwargs FText rest)
          else Raise (ValueError "Single '}' encountered in format string")
      end
  end.

(** [template.format(model=..., projectDir=..., specDir=..., sessionId=...)] *)
Definition format (template : string) (kwargs : list (string * string))
    : result string :=
  format_go kwargs FText template.

(** **** [shlex.split] (POSIX mode, no comments) *)

Definition shlex_ws (c : ascii) : bool :=
  match c with
  | " "%char | "009"%char | "013"%char | "010"%char => true
  | _ => false
  end.

Definition shlex_quote (c : ascii) : bool :=
  (Ascii.eqb c "'"%char || Ascii.eqb c dquote)%bool.

Definition shlex_escape (c : ascii) : bool := Ascii.eqb c "\"%char.

(** The states of the lexer: between words, in a word, in a quotation, or
    after the escape character (within a double quotation or not). *)
Inductive lexstate : Type :=
  | LSpace
  | LWord
  | LQuote (q : ascii)
  | LEscape (within : option ascii).

(** [token] is the word read so far and [quoted] tells whether a quotation
    was part of it, so that an empty quotation still makes a word. *)
Fixpoint lex (st : lexstate) (token : string) (quoted : bool) (s : string)
    : result (list string) :=
  let push (c : ascii) := token +:+ String c "" in
  match s with
  | EmptyString =>
      match st with
      | LSpace => Ok []
      | LWord => Ok (if (truthy token || quoted)%bool then [token] else [])
      | LQuote _ => Raise (ValueError "No closing quotation")
      | LEscape _ => Raise (ValueError "No escaped character")
      end
  | String c rest =>
      match st with
      | LSpace =>
          if shlex_ws c then lex LSpace "" false rest
          else if shlex_escape c then lex (LEscape None) "" false rest
          else if shlex_quote c then lex (LQuote c) "" false rest
          else lex LWord (String c "") false rest
      | LWord =>
          if shlex_ws c then
            if (truthy token || quoted)%bool
            then match lex LSpace "" false rest with
                 | Ok words => Ok (token :: words)
                 | Raise e => Raise e
                 end
            else lex LSpace "" false rest
          else if shlex_quote c then lex (LQuote c) token quoted rest
          else if shlex_escape c then lex (LEscape None) token quoted rest
          else lex LWord (push c) quoted rest
      | LQuote q =>
          if Ascii.eqb c q then lex LWord token true rest
          else if (shlex_escape c && Ascii.eqb q dquote)%bool
          then lex (LEscape (Some q)) token true rest
          else lex (LQuote q) (push c) true rest
      | LEscape None => lex LWord (push c) quoted rest
      | LEscape (Some q) =>
          if (negb (shlex_escape c) && negb (Ascii.eqb c q))%bool
          then lex (LQuote q) (token +:+ String "\"%char (String c "")) quoted rest
          else lex (LQuote q) (push c) quoted rest
      end
  end.

(** [shlex.split(s)] *)
Definition shlex_split (s : string) : result (list string) := lex LSpace "" false s.

(** **** The command line *)

Definition default_template : string :=
  "droid exec --model {model} --output-format stream-json --input-format stream-json --auto low".

Definition is_value_flag (arg : string) : bool :=
  bool_decide (arg ∈ ["--session-id"; "-s"; "--spec-dir"; "--project-dir"]).

(** The clean-up loop: a flag followed by an empty argument is dropped
    together with that argument. *)
Fixpoint filter_args (skip_next : bool) (args : list string) : list string :=
  match args with
  | [] => []
  | arg :: rest =>
      if skip_next then filter_args false rest
      else if (is_value_flag arg
               && match rest with next :: _ => negb (truthy next) | [] => false end)%bool
      then filter_args true rest
      else arg :: filter_args false rest
  end.

(** The template after the automatic session flag. *)
Definition effective_template (h : Host) (e : engine) : string :=
  let template :=
    default default_template (environ h !! "AUTO_CLAUDE_CUSTOM_CLI_TEMPLATE") in
  if (truthy_opt (session_id e)
      && negb (str_in "{sessionId}" template)
      && negb (str_in "-s" template)
      && negb (str_in "--session-id" template))%bool
  then template +:+ " -s {sessionId}"
  else template.

Definition template_kwargs (e : engine) : list (string * string) :=
  let o := options e in
  [("model", if truthy (model o) then model o else "custom:GLM-4.7-[Z.AI-Coding-Plan]-7");
   ("projectDir", if truthy_opt (cwd o) then default "" (cwd o) else ".");
   ("specDir", if truthy_opt (spec_dir o) then default "" (spec_dir o) else ".");
   ("sessionId", if truthy_opt (session_id e) then default "" (session_id e) else "")].

(** [cmd_str] of [receive_response] *)
Definition cmd_str (h : Host) (e : engine) : result string :=
  format (effective_template h e) (template_kwargs e).

Definition is_streaming (h : Host) (e : engine) : bool :=
  str_in "stream-json" (effective_template h e).

(** [args] after the clean-up loop *)
Definition filtered_args (h : Host) (e : engine) : result (list string) :=
  match cmd_str h e with
  | Ok c =>
      match shlex_split c with
      | Ok args => Ok (filter_args false args)
      | Raise err => Raise err
      end
  | Raise err => Raise err
  end.

(** The arguments of [asyncio.create_subprocess_exec]: the prompt is the
    last one unless it goes through standard input. *)
Definition spawn_args (h : Host) (e : engine) : result (list string) :=
  match filtered_args h e with
  | Ok args => Ok (if is_streaming h e then args else args ++ [prompt e])
  | Raise err => Raise err
  end.

(** **** Saving the session marker *)

(** [Path.write_text]: the file is opened for writing in the directory
    that holds it, which has to be there. *)
Definition write_in_place (p content : string) : io unit := λ fs,
  match last (ancestors p) with
  | Some d =>
      match fs !! d with
      | Some Dir => write_text p content fs
      | Some (File _ _ _) => (Raise (NotADirectoryError p), fs)
      | None => (Raise (FileNotFoundError p), fs)
      end
  | None => write_text p content fs
  end.

(** [_save_session_id] for an identifier that is a string: it is kept in
    memory first, then written to the marker file; a write that fails is
    passed over. *)
Definition _save_session_id (session_id' : string) (e : engine) : io engine :=
  if (negb (truthy_opt (spec_dir (options e))) || negb (truthy session_id'))%bool
  then ret e
  else
    try_except (write_in_place (session_file (options e)) session_id')
               (λ _, ret tt) ;;;
    ret {| options := options e; prompt := prompt e; session_id := Some session_id' |}.

End CustomCli.

(** *** The envelopes as the caller reads them *)

Module Messages.

(** The content blocks of [AssistantMessage] and [UserMessage]. *)
Inductive block : Type :=
  | TextBlock (text : string)
  | ToolUseBlock (name : string) (input : list (string * json)) (id : string)
  | ToolResultBlock (content : tool_value) (is_error : bool) (tool_use_id : string).

(** [AssistantMessage._parse_content] on a string chunk, as the subprocess
    adapter hands them on. *)
Definition _parse_content_str (chunk : string) : list block :=
  if truthy (strip chunk) then [TextBlock chunk] else [].

(** The blocks of one part: its text, then its function call. *)
Definition part_blocks (p : Gemini.part) : list block :=
  (if truthy_opt (Gemini.text p) then [TextBlock (default "" (Gemini.text p))] else [])
  ++ match Gemini.part_function_call p with
     | Some fc => [ToolUseBlock (Gemini.fc_name fc) (Gemini.fc_args fc) "dummy_id"]
     | None => []
     end.

(** [AssistantMessage._parse_content] on a Gemini chunk: the parts of
    every candidate, in order. *)
Definition _parse_content (chunk : Gemini.chunk) : list block :=
  flat_map (λ candidate, flat_map part_blocks (Gemini.parts candidate))
           (Gemini.candidates chunk).

(** [msg.content] for the envelopes of the Gemini adapter. *)
Definition content_of (e : envelope Gemini.chunk) : list block :=
  match e with
  | AssistantMessage chunk => _parse_content chunk
  | UserMessage tool_use_id content is_error =>
      [ToolResultBlock content is_error tool_use_id]
  end.

End Messages.

End Engine.

(* ===================================================================== *)
(** ** The tool schemas as section 6 of the specification fixes them *)
(* ===================================================================== *)

Module Spec6.

(** [Read{file_path, start_line?, end_line?}], [Write{file_path, content}],
    [Edit{file_path, target_content, replacement_content}],
    [Glob{pattern, root_dir?}], [Grep{query, pattern?, root_dir?}],
    [Bash{command}]; [true] marks a required parameter. *)
Definition fixed_schema (tool : string) : option (list (string * bool)) :=
  if String.eqb tool "Read"
  then Some [("file_path", true); ("start_line", false); ("end_line", false)]
  else if String.eqb tool "Write"
  then Some [("file_path", true); ("content", true)]
  else if String.eqb tool "Edit"
  then Some [("file_path", true); ("target_content", true); ("replacement_content", true)]
  else if String.eqb tool "Glob"
  then Some [("pattern", true); ("root_dir", false)]
  else if String.eqb tool "Grep"
  then Some [("query", true); ("pattern", false); ("root_dir", false)]
  else if String.eqb tool "Bash"
  then Some [("command", true)]
  else None.

End Spec6.

(* ===================================================================== *)
(** ** Hosts and file systems used in the examples *)
(* ===================================================================== *)

Module Fixtures.

(** A host with an empty environment on which every package is installed,
    no pattern matches, every command is allowed and prints nothing.  The
    texts that the examples decode are in the fragment of [json_loads]. *)
Definition quiet_host : Host := {|
  getcwd := "/work";
  environ := ∅;
  installed := λ _, true;
  rglob := λ _ _ _, Ok [];
  re_compile := λ _, Some (λ _, false);
  loads := json_loads;
  validate_command := λ _ _, (true, "");
  run := λ _ _ fs, (Ok ("", ""), fs)
|}.




(** A directory [d] and a text file [notes.txt]. *)
Definition small_fs : FS :=
  <["d" := Dir]> (<["notes.txt" := File true true (Text "one two one")]> ∅).

(** Options with nothing set but a model name and a turn budget of 2. *)
Definition bare_options : Engine.AgentOptions := {|
  Engine.model := "test-model";
  Engine.system_prompt := "You are a coding agent.";
  Engine.provider := None;
  Engine.spec_dir := None;
  Engine.allowed_tools := [];
  Engine.max_turns := 2;
  Engine.cwd := None;
  Engine.settings := None;
  Engine.env := None;
  Engine.verbose := false
|}.

(** The same options with the working directory [/work/], written with a
    slash at its end. *)
Definition slash_options : Engine.AgentOptions := {|
  Engine.model := "test-model";
  Engine.system_prompt := "You are a coding agent.";
  Engine.provider := None;
  Engine.spec_dir := None;
  Engine.allowed_tools := [];
  Engine.max_turns := 2;
  Engine.cwd := Some "/work/";
  Engine.settings := None;
  Engine.env := None;
  Engine.verbose := false
|}.

(** The two deltas of the scenario of section 8: the name and the opening
    of the arguments, then the rest of the arguments, both for index 0. *)
Definition bash_deltas : list Engine.OpenAI.tc_chunk :=
  [ {| Engine.OpenAI.index := 0; Engine.OpenAI.id := None;
       Engine.OpenAI.function_name := Some "Bash";
       Engine.OpenAI.function_arguments := Some ("{" +:+ String dquote "comm") |};
    {| Engine.OpenAI.index := 0; Engine.OpenAI.id := None;
       Engine.OpenAI.function_name := None;
       Engine.OpenAI.function_arguments :=
         Some ("and" +:+ String dquote ":" +:+ String dquote "ls" +:+ String dquote "}") |} ].

(** A lone delta for index 1 when no slot exists yet. *)
Definition stray_delta : Engine.OpenAI.tc_chunk :=
  {| Engine.OpenAI.index := 1; Engine.OpenAI.id := Some "call_1";
     Engine.OpenAI.function_name := Some "Bash";
     Engine.OpenAI.function_arguments := None |}.

(** An OpenAI-style backend that answers every request with some text and
    one call of a tool named Noop, which no adapter implements. *)
Definition insistent_chunk : Engine.OpenAI.chunk :=
  {| Engine.OpenAI.choices :=
       [ {| Engine.OpenAI.content := Some "thinking";
            Engine.OpenAI.tool_calls :=
              Some [ {| Engine.OpenAI.index := 0; Engine.OpenAI.id := Some "c";
                        Engine.OpenAI.function_name := Some "Noop";
                        Engine.OpenAI.function_arguments := Some "{}" |} ] |} ] |}.

Definition insistent (b : unit) (req : Engine.OpenAI.request)
    : unit * list Engine.OpenAI.chunk :=
  (tt, [insistent_chunk]).

(** A Gemini-style chunk with one candidate holding one part. *)
Definition one_part (p : Engine.Gemini.part) : Engine.Gemini.chunk :=
  {| Engine.Gemini.candidates := [ {| Engine.Gemini.parts := [p] |} ] |}.

(** A chat that answers every message with a call of the unknown tool. *)
Definition noop_chunk : Engine.Gemini.chunk :=
  one_part {| Engine.Gemini.text := None;
              Engine.Gemini.part_function_call :=
                Some {| Engine.Gemini.fc_name := "Noop"; Engine.Gemini.fc_args := [] |} |}.

Definition insistent_chat (b : unit) (i : Engine.Gemini.input)
    : unit * list Engine.Gemini.chunk :=
  (tt, [noop_chunk]).

Definition unit_chat (m : Engine.Gemini.generative_model) (hist : list unit) : unit := tt.

(** The chat of the scenario of section 8: the first answer is one chunk
    with a [Read{file_path: "a.txt"}] part and no text, every later answer
    is one chunk of text.  The state counts the messages received. *)
Definition read_chunk : Engine.Gemini.chunk :=
  one_part {| Engine.Gemini.text := None;
              Engine.Gemini.part_function_call :=
                Some {| Engine.Gemini.fc_name := "Read";
                        Engine.Gemini.fc_args := [("file_path", JStr "a.txt")] |} |}.

Definition text_chunk : Engine.Gemini.chunk :=
  one_part {| Engine.Gemini.text := Some "The file says hello.";
              Engine.Gemini.part_function_call := None |}.

Definition scripted_chat (n : nat) (i : Engine.Gemini.input)
    : nat * list Engine.Gemini.chunk :=
  (S n, match n with O => [read_chunk] | S _ => [text_chunk] end).

Definition counting_chat (m : Engine.Gemini.generative_model) (hist : list unit) : nat := 0.

(** The working directory of [quiet_host] with the file [a.txt]. *)
Definition work_fs : FS :=
  <["/work" := Dir]> (<["/work/a.txt" := File true true (Text "hello")]> ∅).

(** A Gemini adapter with the [Read] tool enabled, before its first
    query. *)
Definition read_options : Engine.AgentOptions := {|
  Engine.model := "test-model";
  Engine.system_prompt := "You are a coding agent.";
  Engine.provider := None;
  Engine.spec_dir := None;
  Engine.allowed_tools := ["Read"];
  Engine.max_turns := 2;
  Engine.cwd := None;
  Engine.settings := None;
  Engine.env := Some {["GEMINI_API_KEY" := "key"]};
  Engine.verbose := false
|}.

Definition gemini_world {B : Type} (o : Engine.AgentOptions) (fs : FS) (b : B)
    : Engine.Gemini.world :=
  {| Engine.Gemini.eng :=
       {| Engine.Gemini.options := o;
          Engine.Gemini.api_key := "key";
          Engine.Gemini.gen_model := Engine.Gemini._initialize_model o;
          Engine.Gemini._current_response := None;
          Engine.Gemini._pending_tool_results := [];
          Engine.Gemini._tools_configured := false |};
     Engine.Gemini.files := fs;
     Engine.Gemini.chat_session := b;
     Engine.Gemini.trace := [] |}.

(** Options of the subprocess adapter with a spec directory. *)
Definition cli_options : Engine.AgentOptions := {|
  Engine.model := "test-model";
  Engine.system_prompt := "";
  Engine.provider := None;
  Engine.spec_dir := Some "specs/001";
  Engine.allowed_tools := [];
  Engine.max_turns := 1000;
  Engine.cwd := None;
  Engine.settings := None;
  Engine.env := None;
  Engine.verbose := false
|}.

(** The content of a marker file written with a final newline. *)
Definition marker_line : string := "sess-42" +:+ String "010"%char "".

(** A file system whose spec directory holds the given session marker. *)
Definition marked_fs (marker : string) : FS :=
  <["specs/001/.droid_session_id" := File true true (Text marker)]>
    (<["specs/001" := Dir]> ∅).

(** A host whose environment sets the command template of the subprocess
    adapter. *)
Definition template_host (template : string) : Host := {|
  getcwd := "/work";
  environ := {["AUTO_CLAUDE_CUSTOM_CLI_TEMPLATE" := template]};
  installed := λ _, true;
  rglob := λ _ _ _, Ok [];
  re_compile := λ _, Some (λ _, false);
  loads := json_loads;
  validate_command := λ _ _, (true, "");
  run := λ _ _ fs, (Ok ("", ""), fs)
|}.

(** A line feed. *)
Definition nl : string := String "010"%char "".

(** A text file of three lines. *)
Definition poem_fs : FS :=
  <["poem.txt" := File true true
      (Text ("one" +:+ nl +:+ "two" +:+ nl +:+ "three" +:+ nl))]> ∅.

(** A host whose policy refuses every command, and on which a command
    that ran would leave no file behind. *)
Definition strict_host : Host := {|
  getcwd := "/work";
  environ := ∅;
  installed := λ _, true;
  rglob := λ _ _ _, Ok [];
  re_compile := λ _, Some (λ _, false);
  loads := json_loads;
  validate_command := λ _ _, (false, "Command 'rm' is not in the allowed commands list");
  run := λ _ _ _, (Ok ("", ""), ∅)
|}.

(** A host to search with: every pattern matches the three entries of
    [search_fs], and a query is looked for as it stands, whatever the
    case of the letters. *)
Definition search_host : Host := {|
  getcwd := "/work";
  environ := ∅;
  installed := λ _, true;
  rglob := λ _ _ _, Ok ["a.txt"; "locked.txt"; "d"];
  re_compile := λ query, Some (λ line, str_in (lower query) (lower line));
  loads := json_loads;
  validate_command := λ _ _, (true, "");
  run := λ _ _ fs, (Ok ("", ""), fs)
|}.

(** A text file of three lines, a file that cannot be read, and a
    directory. *)
Definition search_fs : FS :=
  <["a.txt" := File true true
      (Text ("alpha" +:+ nl +:+ "BETA" +:+ nl +:+ "gamma" +:+ nl))]>
    (<["locked.txt" := File false true (Text ("beta" +:+ nl))]>
       (<["d" := Dir]> ∅)).

(** An OpenAI-style backend that answers every request with two chunks of
    text. *)
Definition text_delta (s : string) : Engine.OpenAI.chunk :=
  {| Engine.OpenAI.choices :=
       [ {| Engine.OpenAI.content := Some s; Engine.OpenAI.tool_calls := None |} ] |}.

Definition talkative (b : unit) (req : Engine.OpenAI.request)
    : unit * list Engine.OpenAI.chunk :=
  (tt, [text_delta "Hel"; text_delta "lo"]).

(** A Gemini-style chunk with two candidates: the first says something,
    the second asks for a command to be run. *)
Definition two_candidates : Engine.Gemini.chunk :=
  {| Engine.Gemini.candidates :=
       [ {| Engine.Gemini.parts :=
              [ {| Engine.Gemini.text := Some "Done.";
                   Engine.Gemini.part_function_call := None |} ] |};
         {| Engine.Gemini.parts :=
              [ {| Engine.Gemini.text := None;
                   Engine.Gemini.part_function_call :=
                     Some {| Engine.Gemini.fc_name := "Bash";
                             Engine.Gemini.fc_args := [("command", JStr "ls")] |} |} ] |} ] |}.

(** A Gemini adapter that has just received [stream] from its chat. *)
Definition reading_world (stream : list Engine.Gemini.chunk)
    : Engine.Gemini.world (B:=unit) :=
  {| Engine.Gemini.eng :=
       Engine.Gemini.set_current (Some stream)
         (Engine.Gemini.eng (gemini_world bare_options small_fs tt));
     Engine.Gemini.files := small_fs;
     Engine.Gemini.chat_session := tt;
     Engine.Gemini.trace := [] |}.

(** An engine of the subprocess adapter that has no session yet. *)
Definition cli_engine : Engine.CustomCli.engine :=
  {| Engine.CustomCli.options := cli_options;
     Engine.CustomCli.prompt := "";
     Engine.CustomCli.session_id := None |}.

(** A spec directory without a session marker. *)
Definition spec_fs : FS := <["specs/001" := Dir]> (<["specs" := Dir]> ∅).

End Fixtures.
(* ===================================================================== *)
(** ** Predicates used in the statements *)
(* ===================================================================== *)

Local Close Scope Z_scope.

(** A text without carriage returns.  Text mode reads no other text, and
    hands such a text back as it was written; a carriage return that is
    written comes back as a line feed. *)
Definition unix_text (s : string) : bool :=
  negb (str_in (String "013"%char "") s).




(** What a registered schema declares: the parameters of section 6 without
    [root_dir]. *)
Definition as_registered (s : Engine.schema) : Prop :=
  Some (Engine.declared s)
  = filter (λ p, p.1 ≠ "root_dir") <$> Spec6.fixed_schema (Engine.name s).

(** No provider key is to be found under any of the given names, neither
    in the options nor in the process environment. *)
Definition no_key (h : Host) (o : Engine.AgentOptions) (names : list string) : Prop :=
  Forall (λ k, truthy_opt (Engine.env_or_empty o !! k) = false ∧
               truthy_opt (environ h !! k) = false) names.

(** The fragments of a stream of tool-call deltas arrive in order when no
    delta names a slot beyond the first free one; [n] is the number of
    slots so far. *)
Fixpoint in_order (n : nat) (cs : list Engine.OpenAI.tc_chunk) : Prop :=
  match cs with
  | [] => True
  | c :: rest =>
      (Engine.OpenAI.index c ≤ n)%nat ∧
      in_order (n `max` S (Engine.OpenAI.index c)) rest
  end.

(** The parts of one field that the deltas addressed to slot [i] carry,
    put together in the order of arrival. *)
Fixpoint parts_for (i : nat) (field : Engine.OpenAI.tc_chunk → option string)
    (cs : list Engine.OpenAI.tc_chunk) : string :=
  match cs with
  | [] => ""
  | c :: rest =>
      (if bool_decide (Engine.OpenAI.index c = i) then default "" (field c) else "")
      +:+ parts_for i field rest
  end.

(** Slot [i] after the deltas [cs]: the slot there was, or a fresh one when
    a delta names [i], with the parts addressed to [i] appended to its
    identifier, name and argument string. *)
Definition slot_after (calls : list Engine.OpenAI.tool_call)
    (cs : list Engine.OpenAI.tc_chunk) (i : nat) : option Engine.OpenAI.tool_call :=
  if bool_decide ((i < length calls)%nat ∨ i ∈ map Engine.OpenAI.index cs) then
    let base := default Engine.OpenAI.empty_call (calls !! i) in
    Some {| Engine.OpenAI.tc_id :=
              Engine.OpenAI.tc_id base +:+ parts_for i Engine.OpenAI.id cs;
            Engine.OpenAI.tc_type := Engine.OpenAI.tc_type base;
            Engine.OpenAI.tc_name :=
              Engine.OpenAI.tc_name base +:+ parts_for i Engine.OpenAI.function_name cs;
            Engine.OpenAI.tc_arguments :=
              Engine.OpenAI.tc_arguments base
              +:+ parts_for i Engine.OpenAI.function_arguments cs |}
  else None.

(** The invariant of the conversation history: at most one entry has the
    role [system], and an entry with that role is the first one. *)
Definition system_first (hist : list Engine.OpenAI.entry) : Prop :=
  length (filter (λ e, Engine.OpenAI.role_of e = "system") hist) ≤ 1 ∧
  ∀ i e, hist !! i = Some e → Engine.OpenAI.role_of e = "system" → i = 0.

(** What a caller can do with an OpenAI adapter once it is constructed.
    A response is consumed for at most [fuel] rounds of the loop; the
    adapter stays usable whether the rounds ended, raised or went on. *)
Inductive operation : Type :=
  | SetSystemPrompt (prompt : string)
  | Query (message : string)
  | ReceiveResponse (fuel : nat).

Definition perform (h : Host) {B : Type}
    (create : B → Engine.OpenAI.request → B * list Engine.OpenAI.chunk)
    (w : Engine.OpenAI.world) (op : operation) : Engine.OpenAI.world :=
  let on_engine f :=
    {| Engine.OpenAI.eng := f (Engine.OpenAI.eng w);
       Engine.OpenAI.files := Engine.OpenAI.files w;
       Engine.OpenAI.backend := Engine.OpenAI.backend w;
       Engine.OpenAI.trace := Engine.OpenAI.trace w |} in
  match op with
  | SetSystemPrompt prompt => on_engine (Engine.OpenAI.set_system_prompt prompt)
  | Query message => on_engine (Engine.OpenAI.query message)
  | ReceiveResponse fuel => (Engine.OpenAI.receive_response h create fuel w).2
  end.

(** The adapter right after its construction. *)
Definition fresh {B : Type} (e : Engine.OpenAI.engine) (fs : FS) (b : B)
    : Engine.OpenAI.world :=
  {| Engine.OpenAI.eng := e; Engine.OpenAI.files := fs;
     Engine.OpenAI.backend := b; Engine.OpenAI.trace := [] |}.

(** The shape the history has from construction on: a [system] entry,
    then entries with other roles. *)
Definition headed (hist : list Engine.OpenAI.entry) : Prop :=
  ∃ c rest,
    hist = Engine.OpenAI.Message "system" c :: rest ∧
    Forall (λ e, Engine.OpenAI.role_of e ≠ "system") rest.

(** A computation keeps the history headed, however it ends. *)
Definition keeps {B A} (m : eff (Engine.OpenAI.world (B:=B)) A) : Prop :=
  ∀ w, headed (Engine.OpenAI.history (Engine.OpenAI.eng w)) →
       headed (Engine.OpenAI.history (Engine.OpenAI.eng (m w).2)).

(** A computation only adds events to the trace of the world, and what it
    adds is related to how it ends by [Q]. *)
Definition emits {W E A : Type} (tr : W → list E) (m : eff W A)
    (Q : result A → list E → Prop) : Prop :=
  ∀ w, ∃ added, tr (m w).2 = tr w ++ added ∧ Q (m w).1 added.

(** The backend round-trips among the events of the OpenAI adapter. *)
Definition is_call (ev : Engine.OpenAI.event) : bool :=
  match ev with
  | Engine.OpenAI.Call _ _ => true
  | Engine.OpenAI.Yield _ => false
  end.

Definition round_trips (t : list Engine.OpenAI.event) : nat :=
  length (filter (λ ev, is_call ev = true) t).

(** The requests the Gemini adapter sends among its events. *)
Definition is_send (ev : Engine.Gemini.event) : bool :=
  match ev with
  | Engine.Gemini.Send _ _ => true
  | Engine.Gemini.Yield _ => false
  end.

Definition sends (t : list Engine.Gemini.event) : nat :=
  length (filter (λ ev, is_send ev = true) t).

(** Steps of the OpenAI adapter that make no round-trip. *)
Definition silent {B A} (m : eff (Engine.OpenAI.world (B:=B)) A) : Prop :=
  emits Engine.OpenAI.trace m (λ _ t, round_trips t = 0).

(** At most [n] round-trips, and exactly [n] when the loop is still going. *)
Definition within (n : nat) (r : result Engine.OpenAI.ending)
    (t : list Engine.OpenAI.event) : Prop :=
  round_trips t ≤ n ∧ (r = Ok Engine.OpenAI.Running → round_trips t = n).

(** What the OpenAI adapter hands to the caller when the backend is
    [Fixtures.insistent]: the chunk of the backend, or the outcome of the
    call of the unknown tool. *)
Definition insistent_event (ev : Engine.OpenAI.event) : Prop :=
  is_call ev = true ∨
  ev = Engine.OpenAI.Yield (Engine.AssistantMessage Fixtures.insistent_chunk) ∨
  ev = Engine.OpenAI.Yield
         (Engine.UserMessage "c" (Engine.VStr "Error: Tool Noop not found") false).

(** The envelope that wraps a chunk of the Gemini backend, as an event. *)
Definition chunk_event (c : Engine.Gemini.chunk) : Engine.Gemini.event :=
  Engine.Gemini.Yield (Engine.AssistantMessage c).

(** The envelope that carries the result of one tool call. *)
Definition outcome_of (r : Engine.Gemini.function_response)
    : Engine.envelope Engine.Gemini.chunk :=
  Engine.UserMessage "dummy_id" (Engine.Gemini.fr_result r) false.

Definition outcome_event (r : Engine.Gemini.function_response) : Engine.Gemini.event :=
  Engine.Gemini.Yield (outcome_of r).

(** The events of a turn of the Gemini adapter, pass by pass: a pass hands
    on the chunks of the current response; when it found tool calls and
    ran them, the request with their results is sent, then their outcomes
    are handed on, then the next pass begins. *)
Inductive passes : list Engine.Gemini.event → Prop :=
  | passes_last (chunks : list Engine.Gemini.chunk) :
      passes (map chunk_event chunks)
  | passes_round (chunks : list Engine.Gemini.chunk)
      (results : list Engine.Gemini.function_response)
      (response : list Engine.Gemini.chunk) (rest : list Engine.Gemini.event) :
      passes rest →
      passes (map chunk_event chunks
              ++ Engine.Gemini.Send (Engine.Gemini.ToolResults results) response
                 :: map outcome_event results ++ rest).


(** The function calls among the parts of a candidate. *)
Definition calls_in (c : Engine.Gemini.candidate) : list Engine.Gemini.function_call :=
  omap Engine.Gemini.part_function_call (Engine.Gemini.parts c).

(** The calls a pass of the Gemini adapter finds in a stream: those of
    the first candidate of every chunk, in order. *)
Definition collected (stream : list Engine.Gemini.chunk)
    : list Engine.Gemini.function_call :=
  flat_map (λ c, flat_map calls_in (take 1 (Engine.Gemini.candidates c))) stream.





(** At most [n] requests, and exactly [n] when the loop is still going. *)
Definition within_sends (n : nat) (r : result Engine.Gemini.ending)
    (t : list Engine.Gemini.event) : Prop :=
  sends t ≤ n ∧ (r = Ok Engine.Gemini.Running → sends t = n).

(** What the Gemini adapter hands to the caller when the chat is
    [Fixtures.insistent_chat]: the chunk of the chat, or the outcome of the
    call of the unknown tool. *)
Definition insistent_chat_event (ev : Engine.Gemini.event) : Prop :=
  is_send ev = true ∨
  ev = chunk_event Fixtures.noop_chunk ∨
  ev = Engine.Gemini.Yield
         (Engine.UserMessage "dummy_id"
            (Engine.VStr "Error: Tool Noop not implemented.") false).

(** The argument list of a subprocess adapter constructed on the files
    [fs]: [__init__], then the arguments as [receive_response] builds and
    cleans them. *)
Definition command_line (h : Host) (fs : FS) (o : Engine.AgentOptions)
    : result (list string) :=
  match Engine.CustomCli.init fs o with
  | Ok e => Engine.CustomCli.filtered_args h e
  | Raise err => Raise err
  end.


(* ===================================================================== *)
(** ** Predicates used in the further properties *)
(* ===================================================================== *)

(** *** Files *)

(** A path in its one spelling: it is as [pathlib] writes it (no empty
    name, no name ["."], no slash at the end), takes no step back
    (no name [".."]), begins with at most one slash, is not the current
    directory itself, and no name in it is too long.  Two such paths that
    both start at the root, or both at the current directory, name the
    same file only when they are equal. *)
Definition plain_path (p : string) : bool :=
  String.eqb (path_str p) p
  && negb (String.eqb p ".")
  && negb (String.prefix "//" p)
  && forallb (λ n, negb (String.eqb n "..")) (names p)
  && match path_fault p with None => true | Some _ => false end.

(** Both paths start at the root, or both at the current directory. *)
Definition same_start (p q : string) : bool :=
  Bool.eqb (is_absolute p) (is_absolute q).

(** The path is free, or names a regular file that can be read and
    written. *)
Definition free_or_open (fs : FS) (path : string) : bool :=
  match fs !! path with
  | None | Some (File true true _) => true
  | _ => false
  end.

(** The lines [first] to [last] of a list of lines, counted from 1. *)
Definition lines_between (first last : nat) (lines : list string) : list string :=
  take (last - (first - 1)) (drop (first - 1) lines).

(** A line bound that [read_file] takes as absent. *)
Definition no_bound (b : option Z) : bool :=
  match b with
  | None | Some 0%Z => true
  | Some _ => false
  end.



(** *** Tool calls *)

(** The parameters of [read_file]. *)
Definition read_file_params : list string := ["file_path"; "start_line"; "end_line"].

(** The path a [file_path] argument stands for. *)
Definition resolved (h : Host) (o : Engine.AgentOptions) (file_path : string) : string :=
  if is_absolute file_path then file_path
  else path_div (Engine.working_dir h o) file_path.

(** A decoded value that is no container: a number, a boolean or [null]. *)
Definition scalar (v : json) : bool :=
  match v with
  | JNum _ | JFloat _ | JBool _ | JNull => true
  | _ => false
  end.

(** *** The OpenAI adapter *)

(** The entries of a history that are not system entries. *)
Definition conversation (hist : list Engine.OpenAI.entry) : list Engine.OpenAI.entry :=
  filter (λ e, Engine.OpenAI.role_of e ≠ "system") hist.

(** An entry the tool loop writes: the assistant's or a tool's. *)
Definition reply_entry (e : Engine.OpenAI.entry) : Prop :=
  Engine.OpenAI.role_of e = "assistant" ∨ Engine.OpenAI.role_of e = "tool".

(** A computation only appends entries to the history, and they are
    replies. *)
Definition grows {B A} (m : eff (Engine.OpenAI.world (B:=B)) A) : Prop :=
  emits (λ w, Engine.OpenAI.history (Engine.OpenAI.eng w)) m
    (λ _ added, Forall reply_entry added).

(** The history entry and the envelope that answer a tool call. *)
Definition tool_entry (tc : Engine.OpenAI.tool_call) (out : string)
    : Engine.OpenAI.entry :=
  Engine.OpenAI.ToolMessage (Engine.OpenAI.tc_id tc) (Engine.OpenAI.tc_name tc) out.

Definition tool_outcome (tc : Engine.OpenAI.tool_call) (out : string)
    : Engine.OpenAI.event :=
  Engine.OpenAI.Yield
    (Engine.UserMessage (Engine.OpenAI.tc_id tc) (Engine.VStr out) false).

(** A request as the adapter with options [o] sends it: the model and the
    tools of [o], and messages that begin with the system entry. *)
Definition request_of (o : Engine.AgentOptions) (ev : Engine.OpenAI.event) : Prop :=
  match ev with
  | Engine.OpenAI.Call req _ =>
      headed (Engine.OpenAI.req_messages req) ∧
      Engine.OpenAI.req_model req = Engine.model o ∧
      Engine.OpenAI.req_tools req = Engine._get_openai_tools (Engine.allowed_tools o)
  | Engine.OpenAI.Yield _ => True
  end.

(** A computation keeps the options and the shape of the history, and
    sends only such requests. *)
Definition steady {B A} (o : Engine.AgentOptions)
    (m : eff (Engine.OpenAI.world (B:=B)) A) : Prop :=
  ∀ w, headed (Engine.OpenAI.history (Engine.OpenAI.eng w)) →
       Engine.OpenAI.options (Engine.OpenAI.eng w) = o →
       headed (Engine.OpenAI.history (Engine.OpenAI.eng (m w).2)) ∧
       Engine.OpenAI.options (Engine.OpenAI.eng (m w).2) = o ∧
       ∃ added, Engine.OpenAI.trace (m w).2 = Engine.OpenAI.trace w ++ added ∧
                Forall (request_of o) added.

(** The request the adapter sends next. *)
Definition next_request {B} (w : Engine.OpenAI.world (B:=B)) : Engine.OpenAI.request :=
  let o := Engine.OpenAI.options (Engine.OpenAI.eng w) in
  {| Engine.OpenAI.req_model := Engine.model o;
     Engine.OpenAI.req_messages := Engine.OpenAI.history (Engine.OpenAI.eng w);
     Engine.OpenAI.req_tools := Engine._get_openai_tools (Engine.allowed_tools o) |}.

(** A chunk of a plain answer: it has a choice, and the delta of its first
    choice carries no tool call. *)
Definition plain_chunk (c : Engine.OpenAI.chunk) : bool :=
  match Engine.OpenAI.choices c with
  | d :: _ =>
      match Engine.OpenAI.tool_calls d with
      | None | Some [] => true
      | Some (_ :: _) => false
      end
  | [] => false
  end.

(** The text a chunk carries in its first choice. *)
Definition said (c : Engine.OpenAI.chunk) : string :=
  match Engine.OpenAI.choices c with
  | d :: _ => default "" (Engine.OpenAI.content d)
  | [] => ""
  end.

Definition speaks (c : Engine.OpenAI.chunk) : bool := truthy (said c).

(** The text of a stream. *)
Fixpoint text_of (stream : list Engine.OpenAI.chunk) : string :=
  match stream with
  | [] => ""
  | c :: rest => said c +:+ text_of rest
  end.

(** The envelope that wraps a chunk of the OpenAI backend, as an event. *)
Definition heard (c : Engine.OpenAI.chunk) : Engine.OpenAI.event :=
  Engine.OpenAI.Yield (Engine.AssistantMessage c).

(** The world after a plain answer [stream] of the backend, which is then
    in state [b]: the request and the chunks that carry text are in the
    trace, and the text, when there is some, is the assistant's entry at
    the end of the history. *)
Definition after_plain_answer {B} (w : Engine.OpenAI.world (B:=B)) (b : B)
    (stream : list Engine.OpenAI.chunk) : Engine.OpenAI.world (B:=B) :=
  {| Engine.OpenAI.eng :=
       Engine.OpenAI.with_history (Engine.OpenAI.eng w)
         (Engine.OpenAI.history (Engine.OpenAI.eng w)
          ++ if truthy (text_of stream)
             then [Engine.OpenAI.Message "assistant" (text_of stream)]
             else []);
     Engine.OpenAI.files := Engine.OpenAI.files w;
     Engine.OpenAI.backend := b;
     Engine.OpenAI.trace :=
       Engine.OpenAI.trace w
       ++ Engine.OpenAI.Call (next_request w) stream
          :: map heard (filter (λ c, speaks c = true) stream) |}.






(** What the OpenAI adapter may hand to its caller: a chunk that carries
    text, or the outcome of a tool as a string that is not flagged as an
    error. *)
Definition handed_on (ev : Engine.OpenAI.event) : Prop :=
  match ev with
  | Engine.OpenAI.Call _ _ => True
  | Engine.OpenAI.Yield (Engine.AssistantMessage c) => speaks c = true
  | Engine.OpenAI.Yield (Engine.UserMessage _ content is_error) =>
      is_error = false ∧ ∃ s, content = Engine.VStr s
  end.

(** A computation adds only such events to the trace. *)
Definition hands_on {B A} (m : eff (Engine.OpenAI.world (B:=B)) A) : Prop :=
  emits Engine.OpenAI.trace m (λ _ added, Forall handed_on added).

(** *** The Gemini adapter *)

(** What the Gemini adapter may hand to its caller: a chunk, or the
    outcome of a tool under the fixed identifier, not flagged as an
    error. *)
Definition passed_on (ev : Engine.Gemini.event) : Prop :=
  match ev with
  | Engine.Gemini.Send _ _ => True
  | Engine.Gemini.Yield (Engine.AssistantMessage _) => True
  | Engine.Gemini.Yield (Engine.UserMessage tool_use_id _ is_error) =>
      tool_use_id = "dummy_id" ∧ is_error = false
  end.

(** A chunk that asks for no tool. *)
Definition no_call (c : Engine.Gemini.chunk) : bool :=
  match Engine.Gemini.function_calls_of c with
  | [] => true
  | _ :: _ => false
  end.

(** The tool calls that a list of content blocks shows. *)
Definition tool_uses (blocks : list Engine.Messages.block)
    : list Engine.Gemini.function_call :=
  omap (λ b, match b with
             | Engine.Messages.ToolUseBlock n i _ =>
                 Some {| Engine.Gemini.fc_name := n; Engine.Gemini.fc_args := i |}
             | _ => None
             end) blocks.

(* ===================================================================== *)
(** ** Strings: facts about [str_in], [str_replace] and [join] *)
(* ===================================================================== *)

Lemma append_assoc (a b c : string) : (a +:+ b) +:+ c = a +:+ (b +:+ c).
Proof. induction a as [|x a IH]; [done | simpl; f_equal; exact IH]. Qed.

Lemma append_empty_r (a : string) : a +:+ "" = a.
Proof. induction a as [|x a IH]; [done | simpl; f_equal; exact IH]. Qed.

Lemma prefix_cons (x y : ascii) (a b : string) :
  String.prefix (String x a) (String y b) = true ↔ x = y ∧ String.prefix a b = true.
Proof.
  change (String.prefix (String x a) (String y b))
    with (if ascii_dec x y then String.prefix a b else false).
  destruct (ascii_dec x y) as [->|Hne]; split; try tauto; try discriminate.
Qed.





Lemma prefix_split (a s : string) :
  String.prefix a s = true → s = a +:+ str_drop (String.length a) s.
Proof.
  revert s. induction a as [|x a IH]; intros [|y s] H; try done.
  apply prefix_cons in H as [-> H]. simpl. f_equal. auto.
Qed.

Lemma str_drop_empty (n : nat) : str_drop n "" = "".
Proof. by destruct n. Qed.

Lemma join_cons (sep p : string) (q : string) (qs : list string) :
  join sep (p :: q :: qs) = p +:+ sep +:+ join sep (q :: qs).
Proof. done. Qed.

Lemma split_go_nonempty (sep : string) (k : nat) (s : string) :
  split_go sep k s ≠ [].
Proof.
  revert k. induction s as [|c s IH]; intros k; simpl; [done|].
  destruct k; [|apply IH].
  destruct (String.prefix sep (String c s)); [done|].
  by destruct (split_go sep 0 s).
Qed.

(** Replacing is joining the pieces with the new text. *)
Lemma replace_go_join (old new : string) (k : nat) (s : string) :
  replace_go old new k s = join new (split_go old k s).
Proof.
  revert k. induction s as [|c s IH]; intros k; simpl; [done|].
  destruct k; [|apply IH].
  destruct (String.prefix old (String c s)).
  - rewrite IH.
    pose proof (split_go_nonempty old (String.length old - 1) s) as Hne.
    destruct (split_go old (String.length old - 1) s) as [|q qs]; [done|].
    by rewrite join_cons.
  - rewrite IH.
    pose proof (split_go_nonempty old 0 s) as Hne.
    destruct (split_go old 0 s) as [|q qs]; [done|].
    destruct qs; done.
Qed.

(** Joining the pieces with the old text gives the text back. *)
Lemma split_go_join (old : string) (k : nat) (s : string) :
  old ≠ "" → join old (split_go old k s) = str_drop k s.
Proof.
  intros Hold. revert k. induction s as [|c s IH]; intros k; simpl.
  - by rewrite str_drop_empty.
  - destruct k; [|apply IH]. simpl.
    destruct (String.prefix old (String c s)) eqn:Hp.
    + pose proof (split_go_nonempty old (String.length old - 1) s) as Hne.
      specialize (IH (String.length old - 1)%nat).
      destruct (split_go old (String.length old - 1) s) as [|q qs]; [done|].
      rewrite join_cons, IH. simpl.
      rewrite (prefix_split _ _ Hp) at 1.
      destruct old as [|o old]; [done|]. simpl. by rewrite Nat.sub_0_r.
    + pose proof (split_go_nonempty old 0 s) as Hne.
      specialize (IH 0%nat). simpl in IH.
      destruct (split_go old 0 s) as [|q qs]; [done|].
      destruct qs as [|q' qs].
      * simpl in *. by rewrite IH.
      * rewrite join_cons. rewrite join_cons in IH. rewrite <- IH. reflexivity.
Qed.











(* ===================================================================== *)
(** ** The built-in tools *)
(* ===================================================================== *)

Lemma exists_lookup (fs : FS) (p : string) (n : node) :
  fs !! p = Some n → exists_ fs p = Ok true.
Proof. unfold exists_. by intros ->. Qed.

(** C7: on a readable text file whose content does not hold the target,
    [edit_file] returns the "Target content not found" error and leaves
    the file system as it was; a second call with the same arguments does
    exactly the same. *)
Theorem edit_file_absent_target_idempotent
    (fs : FS) (path target replacement content : string) (w : bool) :
  fs !! path = Some (File true w (Text content)) →
  str_in target content = false →
  let report := "Error: Target content not found in " +:+ path in
  Builtin.edit_file path target replacement fs = (Ok report, fs) ∧
  Builtin.edit_file path target replacement
    (Builtin.edit_file path target replacement fs).2 = (Ok report, fs).
Proof.
  intros Hfile Habsent report.
  assert (Builtin.edit_file path target replacement fs = (Ok report, fs)) as Hrun.
  { unfold Builtin.edit_file, bind, try_except, lift, ret, read_text.
    rewrite (exists_lookup _ _ _ Hfile). simpl. rewrite Hfile, Habsent. done. }
  split; [done|]. by rewrite Hrun.
Qed.

Lemma edit_file_absent_target_idempotent_witness :
  let fs := Fixtures.small_fs in
  let report := "Error: Target content not found in notes.txt" in
  Builtin.edit_file "notes.txt" "three" "3" fs = (Ok report, fs) ∧
  Builtin.edit_file "notes.txt" "three" "3"
    (Builtin.edit_file "notes.txt" "three" "3" fs).2 = (Ok report, fs).
Proof.
  exact (edit_file_absent_target_idempotent Fixtures.small_fs "notes.txt" "three" "3"
           "one two one" true eq_refl eq_refl).
Defined.








(* ===================================================================== *)
(** ** Tool schemas *)
(* ===================================================================== *)

(** Membership in a list literal. *)
Ltac in_list :=
  repeat first [ apply list_elem_of_here | apply list_elem_of_further ].

Ltac not_in_list :=
  rewrite ?not_elem_of_cons; repeat split; first [ assumption | apply not_elem_of_nil ].

(** The names of the allowed tools that get a schema, in order. *)
Lemma gemini_registered_names (allowed : list string) :
  map Engine.name (Engine.gemini_registered allowed)
  = filter (λ n, n ∈ Engine.OpenAI.six) allowed.
Proof.
  unfold Engine.gemini_registered.
  induction allowed as [|n allowed IH]; [done|].
  cbn [Engine.get_agent_allowed_tools]. rewrite map_app, concat_app, map_app, IH.
  rewrite filter_cons. unfold Engine.OpenAI.six.
  repeat match goal with
         | |- context [String.eqb n ?lit] =>
             destruct (String.eqb_spec n lit) as [->|?];
             [rewrite decide_True by in_list; reflexivity|]
         end.
  rewrite decide_False by not_in_list. reflexivity.
Qed.

Lemma openai_registered_names (allowed : list string) :
  map Engine.name (Engine.openai_registered allowed)
  = filter (λ n, n ∈ Engine.OpenAI.six) allowed.
Proof.
  unfold Engine.openai_registered.
  induction allowed as [|n allowed IH]; [done|].
  cbn [Engine._get_openai_tools]. rewrite map_app, map_app, IH.
  rewrite filter_cons. unfold Engine.OpenAI.six.
  repeat match goal with
         | |- context [String.eqb n ?lit] =>
             destruct (String.eqb_spec n lit) as [->|?];
             [rewrite decide_True by in_list; reflexivity|]
         end.
  rewrite decide_False by not_in_list. reflexivity.
Qed.

Lemma gemini_registered_params (allowed : list string) :
  Forall as_registered (Engine.gemini_registered allowed).
Proof.
  unfold Engine.gemini_registered.
  induction allowed as [|n allowed IH]; [constructor|].
  cbn [Engine.get_agent_allowed_tools]. rewrite map_app, concat_app.
  apply Forall_app. split; [|exact IH].
  repeat (destruct (String.eqb n _);
          [repeat constructor; vm_compute; reflexivity|]).
  constructor.
Qed.

Lemma openai_registered_params (allowed : list string) :
  Forall as_registered (Engine.openai_registered allowed).
Proof.
  unfold Engine.openai_registered.
  induction allowed as [|n allowed IH]; [constructor|].
  cbn [Engine._get_openai_tools]. rewrite map_app.
  apply Forall_app. split; [|exact IH].
  repeat (destruct (String.eqb n _);
          [repeat constructor; vm_compute; reflexivity|]).
  constructor.
Qed.

(** C2, as the code has it: for every list of enabled tools, both adapters
    register one schema for each occurrence of one of the six supported
    names, in the order of the list and nothing else (so a list without
    repetition registers no tool twice), and each schema declares the
    parameters of section 6 except [root_dir], which neither the Glob nor
    the Grep schema has. *)
Theorem registered_schemas_follow_the_code (allowed : list string) :
  (map Engine.name (Engine.gemini_registered allowed)
     = filter (λ n, n ∈ ["Read"; "Write"; "Edit"; "Glob"; "Grep"; "Bash"]) allowed ∧
   Forall (λ s, Some (Engine.declared s)
                = filter (λ p, p.1 ≠ "root_dir") <$> Spec6.fixed_schema (Engine.name s))
          (Engine.gemini_registered allowed)) ∧
  (map Engine.name (Engine.openai_registered allowed)
     = filter (λ n, n ∈ ["Read"; "Write"; "Edit"; "Glob"; "Grep"; "Bash"]) allowed ∧
   Forall (λ s, Some (Engine.declared s)
                = filter (λ p, p.1 ≠ "root_dir") <$> Spec6.fixed_schema (Engine.name s))
          (Engine.openai_registered allowed)).
Proof.
  repeat split.
  - apply gemini_registered_names.
  - apply gemini_registered_params.
  - apply openai_registered_names.
  - apply openai_registered_params.
Qed.

(** C2 as stated fails: with Glob and Grep enabled, the schemas both
    adapters register lack the [root_dir] parameter of section 6. *)
Lemma registered_schema_counterexample :
  map Engine.declared (Engine.openai_registered ["Glob"; "Grep"])
    = [[("pattern", true)]; [("query", true); ("pattern", false)]] ∧
  map Engine.declared (Engine.gemini_registered ["Glob"; "Grep"])
    = [[("pattern", true)]; [("query", true); ("pattern", false)]] ∧
  Spec6.fixed_schema "Glob" = Some [("pattern", true); ("root_dir", false)] ∧
  Spec6.fixed_schema "Grep" = Some [("query", true); ("pattern", false); ("root_dir", false)].
Proof. repeat split; vm_compute; reflexivity. Qed.

(* ===================================================================== *)
(** ** Construction without an API key *)
(* ===================================================================== *)

Lemma or_else_falsy (a b : option string) :
  truthy_opt a = false → or_else a b = b.
Proof. unfold or_else. by intros ->. Qed.

(** C3, as the code has it: when no key is available, constructing the
    Gemini adapter raises (the [ValueError] naming the two variables, or
    the import error when the SDK is missing) and changes nothing, whereas
    constructing the OpenAI adapter succeeds with the placeholder key
    "dummy-key" whenever the [openai] package is installed. *)
Theorem construction_without_key
    (h : Host) (o : Engine.AgentOptions)
    {B Item : Type} (start_chat : Engine.Gemini.generative_model → list Item → B)
    (fs : FS) :
  no_key h o ["GEMINI_API_KEY"; "GOOGLE_API_KEY"; "ZAI_API_KEY"; "OPENAI_API_KEY"] →
  Engine.Gemini.init h start_chat o fs
    = (Raise (if installed h "google.generativeai"
              then ValueError "GEMINI_API_KEY or GOOGLE_API_KEY must be provided"
              else ImportError "google.generativeai"), fs) ∧
  match Engine.OpenAI.init h o with
  | Ok e => installed h "openai" = true ∧ Engine.OpenAI.api_key e = "dummy-key"
  | Raise e =>
      installed h "openai" = false ∧
      e = RuntimeError "openai package not installed. Run 'pip install openai'"
  end.
Proof.
  unfold no_key. rewrite !Forall_cons.
  intros ([G1 G2] & [G3 G4] & [Z1 Z2] & [O1 O2] & _). split.
  - unfold Engine.Gemini.init.
    destruct (installed h "google.generativeai"); simpl; [|done].
    rewrite (or_else_falsy _ _ G1), G2, (or_else_falsy _ _ G3), G4. done.
  - unfold Engine.OpenAI.init.
    destruct (installed h "openai"); simpl; [|done].
    rewrite (or_else_falsy _ _ Z1), (or_else_falsy _ _ O1),
      (or_else_falsy _ _ Z2), O2. done.
Qed.

Lemma construction_without_key_witness :
  Engine.Gemini.init Fixtures.quiet_host (λ _ (_ : list unit), tt)
      Fixtures.bare_options Fixtures.small_fs
    = (Raise (ValueError "GEMINI_API_KEY or GOOGLE_API_KEY must be provided"),
       Fixtures.small_fs) ∧
  match Engine.OpenAI.init Fixtures.quiet_host Fixtures.bare_options with
  | Ok e => True ∧ Engine.OpenAI.api_key e = "dummy-key"
  | Raise e => False ∧ e = RuntimeError "openai package not installed. Run 'pip install openai'"
  end.
Proof.
  pose proof (construction_without_key Fixtures.quiet_host Fixtures.bare_options
                (λ _ (_ : list unit), tt) Fixtures.small_fs) as H.
  destruct H as [Hg Ho].
  - repeat constructor.
  - split; [exact Hg|].
    destruct (Engine.OpenAI.init Fixtures.quiet_host Fixtures.bare_options);
      destruct Ho as [Hi He]; split; try exact He; try exact I.
    discriminate Hi.
Defined.

(** C3 as stated fails for the OpenAI adapter: without any key its
    construction succeeds and uses "dummy-key". *)
Lemma openai_missing_key_counterexample :
  Engine.env Fixtures.bare_options = None ∧
  environ Fixtures.quiet_host = ∅ ∧
  Engine.OpenAI.init Fixtures.quiet_host Fixtures.bare_options
  = Ok {| Engine.OpenAI.options := Fixtures.bare_options;
          Engine.OpenAI.api_key := "dummy-key";
          Engine.OpenAI.base_url := "https://api.openai.com/v1";
          Engine.OpenAI.system_prompt := "You are a coding agent.";
          Engine.OpenAI.history :=
            [Engine.OpenAI.Message "system" "You are a coding agent."] |}.
Proof. repeat split. Qed.

(* ===================================================================== *)
(** ** Reassembling streamed tool calls *)
(* ===================================================================== *)

(** The parser on a text with nested values, white space and an escape. *)
Example json_probe :
  json_loads ("{" +:+ String dquote "a" +:+ String dquote ": [1, -20, true, null, {}], "
              +:+ String dquote "b\n" +:+ String dquote " : " +:+ String dquote "" +:+ String dquote "" +:+ "}")
  = Some (JObj [("a", JArr [JNum 1; JNum (-20); JBool true; JNull; JObj []]);
                (String "b" (String "010"%char ""), JStr "")]).
Proof. vm_compute. reflexivity. Qed.

Lemma add_part_append (field : string) (part : option string) :
  Engine.OpenAI.add_part field part = field +:+ default "" part.
Proof.
  unfold Engine.OpenAI.add_part. destruct part as [[|c p]|]; simpl;
    by rewrite ?append_empty_r.
Qed.

(** One delta in order: its slot exists afterwards and holds the parts of
    the delta appended; the other slots are as before. *)
Lemma collect_one_in_order (calls : list Engine.OpenAI.tool_call)
    (c : Engine.OpenAI.tc_chunk) :
  (Engine.OpenAI.index c ≤ length calls)%nat →
  ∃ calls',
    Engine.OpenAI.collect_one calls c = Ok calls' ∧
    length calls' = length calls `max` S (Engine.OpenAI.index c) ∧
    calls' !! Engine.OpenAI.index c
      = Some (Engine.OpenAI.extend
                (default Engine.OpenAI.empty_call (calls !! Engine.OpenAI.index c)) c) ∧
    ∀ j, j ≠ Engine.OpenAI.index c → calls' !! j = calls !! j.
Proof.
  intros Hle. unfold Engine.OpenAI.collect_one.
  destruct (Nat.leb_spec (length calls) (Engine.OpenAI.index c)) as [Hge|Hlt].
  - assert (Engine.OpenAI.index c = length calls) as Hi by lia.
    rewrite Hi, list_lookup_middle by done.
    eexists. split; [reflexivity|]. repeat split.
    + rewrite length_insert, length_app. simpl. lia.
    + rewrite list_lookup_insert_eq by (rewrite length_app; simpl; lia).
      by rewrite lookup_ge_None_2.
    + intros j Hj. rewrite list_lookup_insert_ne by done.
      destruct (decide (j < length calls)%nat).
      * by rewrite lookup_app_l.
      * rewrite !lookup_ge_None_2; [done | lia | rewrite length_app; simpl; lia].
  - destruct (lookup_lt_is_Some_2 calls (Engine.OpenAI.index c) Hlt) as [tc Htc].
    rewrite Htc. eexists. split; [reflexivity|]. repeat split.
    + rewrite length_insert. lia.
    + by rewrite list_lookup_insert_eq.
    + intros j Hj. by rewrite list_lookup_insert_ne.
Qed.

Lemma slot_after_nil (calls : list Engine.OpenAI.tool_call) (i : nat) :
  slot_after calls [] i = calls !! i.
Proof.
  unfold slot_after. simpl. case_bool_decide as Hd.
  - destruct Hd as [Hlt|Hin]; [|by apply elem_of_nil in Hin].
    destruct (lookup_lt_is_Some_2 calls i Hlt) as [[a b c d] ->]. simpl.
    by rewrite !append_empty_r.
  - rewrite lookup_ge_None_2; [done|]. apply Nat.nlt_ge. tauto.
Qed.

(** Slot by slot, [collect] yields what [slot_after] describes. *)
Lemma collect_slots (cs : list Engine.OpenAI.tc_chunk)
    (calls : list Engine.OpenAI.tool_call) :
  in_order (length calls) cs →
  ∃ calls',
    Engine.OpenAI.collect calls cs = Ok calls' ∧
    ∀ i, calls' !! i = slot_after calls cs i.
Proof.
  revert calls. induction cs as [|c cs IH]; intros calls Hord.
  - exists calls. split; [done|]. intros i. by rewrite slot_after_nil.
  - destruct Hord as [Hle Hrest].
    destruct (collect_one_in_order calls c Hle) as (calls1 & Hone & Hlen & Hat & Hother).
    rewrite <- Hlen in Hrest.
    destruct (IH calls1 Hrest) as (calls' & Hall & Hslots).
    exists calls'. split; [simpl; by rewrite Hone|].
    intros i. rewrite Hslots. unfold slot_after. cbn [map parts_for].
    destruct (decide (Engine.OpenAI.index c = i)) as [<-|Hne].
    + assert (bool_decide ((Engine.OpenAI.index c < length calls1)%nat ∨
                           Engine.OpenAI.index c ∈ map Engine.OpenAI.index cs) = true)
        as -> by (apply bool_decide_eq_true_2; left; lia).
      assert (bool_decide ((Engine.OpenAI.index c < length calls)%nat ∨
                           Engine.OpenAI.index c
                             ∈ Engine.OpenAI.index c :: map Engine.OpenAI.index cs) = true)
        as -> by (apply bool_decide_eq_true_2; right; apply list_elem_of_here).
      rewrite Hat. simpl.
      rewrite !add_part_append, !append_assoc.
      rewrite !(bool_decide_eq_true_2 (Engine.OpenAI.index c = Engine.OpenAI.index c))
        by done.
      done.
    + rewrite (Hother i) by done.
      rewrite !(bool_decide_eq_false_2 (Engine.OpenAI.index c = i)) by done.
      assert (((i < length calls1)%nat ∨ i ∈ map Engine.OpenAI.index cs) ↔
              ((i < length calls)%nat ∨
               i ∈ Engine.OpenAI.index c :: map Engine.OpenAI.index cs)) as Hiff.
      { rewrite elem_of_cons, Hlen. split.
        - intros [?|?]; [|tauto].
          destruct (decide (i < length calls)%nat); [tauto|]. lia.
        - intros [?|[->|?]]; [left; lia | done | tauto]. }
      rewrite (bool_decide_ext _ _ Hiff). simpl. done.
Qed.

(** C6, as the code has it: when the deltas arrive in order (no delta names
    a slot beyond the first free one, as in a stream that introduces the
    indices 0, 1, 2, ... one after the other), they are all taken in, and
    slot [i] then holds the slot there was, or one created for [i], with
    every part addressed to [i] appended to its identifier, its name and
    its argument string; no other slot exists. *)
Theorem deltas_append_to_their_slot
    (calls : list Engine.OpenAI.tool_call) (cs : list Engine.OpenAI.tc_chunk) :
  in_order (length calls) cs →
  ∃ calls',
    Engine.OpenAI.collect calls cs = Ok calls' ∧
    ∀ i, calls' !! i = slot_after calls cs i.
Proof. apply collect_slots. Qed.

(** The scenario of section 8: the two deltas for index 0 make one call,
    named Bash, whose argument string parses to [{"command": "ls"}]. *)
Lemma deltas_append_to_their_slot_witness :
  ∃ call,
    Engine.OpenAI.collect [] Fixtures.bash_deltas = Ok [call] ∧
    Engine.OpenAI.tc_name call = "Bash" ∧
    json_loads (Engine.OpenAI.tc_arguments call) = Some (JObj [("command", JStr "ls")]).
Proof.
  destruct (deltas_append_to_their_slot [] Fixtures.bash_deltas) as (calls' & Hrun & Hslots).
  - simpl. lia.
  - pose proof (Hslots 0%nat) as H0. pose proof (Hslots 1%nat) as H1.
    vm_compute in H0, H1.
    destruct calls' as [|call [|more calls']]; try discriminate.
    injection H0 as ->. eexists. split; [exact Hrun|].
    split; vm_compute; reflexivity.
Defined.

(** C6 as stated fails: a delta for an index beyond the first free slot
    gets no slot of its own; reading the slot raises. *)
Lemma stray_index_counterexample :
  Engine.OpenAI.collect [] [Fixtures.stray_delta]
  = Raise (IndexError "list index out of range").
Proof. reflexivity. Qed.

(* ===================================================================== *)
(** ** The history of the OpenAI adapter *)
(* ===================================================================== *)

Lemma headed_system_first (hist : list Engine.OpenAI.entry) :
  headed hist → system_first hist.
Proof.
  intros (c & rest & -> & Hrest). split.
  - rewrite filter_cons_True by done. simpl.
    assert (filter (λ e, Engine.OpenAI.role_of e = "system") rest = []) as ->; [|done].
    induction Hrest as [|e rest He _ IH]; [done|].
    by rewrite filter_cons_False.
  - intros [|i] e; [done|]. simpl. intros Hi Hrole.
    rewrite Forall_forall in Hrest.
    exfalso. apply (Hrest e); [|done]. by eapply list_elem_of_lookup_2.
Qed.

Lemma headed_snoc (hist : list Engine.OpenAI.entry) (e : Engine.OpenAI.entry) :
  Engine.OpenAI.role_of e ≠ "system" → headed hist → headed (hist ++ [e]).
Proof.
  intros He (c & rest & -> & Hrest). exists c, (rest ++ [e]). split; [done|].
  apply Forall_app. split; [done|]. by constructor.
Qed.

Lemma headed_set_system_prompt (p : string) (e : Engine.OpenAI.engine) :
  headed (Engine.OpenAI.history e) →
  headed (Engine.OpenAI.history (Engine.OpenAI.set_system_prompt p e)).
Proof.
  intros (c & rest & Hh & Hrest).
  unfold Engine.OpenAI.set_system_prompt, Engine.OpenAI._set_system_prompt_msg.
  simpl. rewrite Hh. simpl. by exists p, rest.
Qed.

Lemma headed_init (h : Host) (o : Engine.AgentOptions) (e : Engine.OpenAI.engine) :
  Engine.OpenAI.init h o = Ok e → headed (Engine.OpenAI.history e).
Proof.
  unfold Engine.OpenAI.init. destruct (installed h "openai"); [|done].
  simpl. intros [= <-]. simpl. eexists _, []. split; [done | constructor].
Qed.

Section OpenAIHistory.
Context (h : Host) {B : Type}.
Context (create : B → Engine.OpenAI.request → B * list Engine.OpenAI.chunk).

Local Abbreviation world := (Engine.OpenAI.world (B:=B)).

Lemma keeps_bind {A C} (m : eff world A)
    (k : A → eff world C) :
  keeps m → (∀ a, keeps (k a)) → keeps (bind m k).
Proof.
  intros Hm Hk w Hw. unfold bind. specialize (Hm w Hw).
  destruct (m w) as [[a|e] w']; simpl in *; [by apply Hk | done].
Qed.

Lemma keeps_ret {A} (a : A) : keeps (ret (S:=world) a).
Proof. by intros w. Qed.

Lemma keeps_raise {A} (e : exn) : keeps (raise (S:=world) (A:=A) e).
Proof. by intros w. Qed.

Lemma keeps_observe {A} (f : world → A) : keeps (observe f).
Proof. by intros w. Qed.

Lemma keeps_of_result {A} (r : result A) : keeps (of_result (S:=world) r).
Proof. by intros w. Qed.

Lemma keeps_emit (ev : Engine.OpenAI.event) : keeps (Engine.OpenAI.emit (B:=B) ev).
Proof. by intros w. Qed.

Lemma keeps_on_files {A} (m : io A) : keeps (Engine.OpenAI.on_files (B:=B) m).
Proof.
  intros w Hw. unfold Engine.OpenAI.on_files.
  by destruct (m (Engine.OpenAI.files w)).
Qed.

Lemma keeps_send (tools : list Engine.openai_tool) :
  keeps (Engine.OpenAI.send create tools).
Proof.
  intros w Hw. unfold Engine.OpenAI.send.
  by destruct (create _ _).
Qed.

Lemma keeps_append (e : Engine.OpenAI.entry) :
  Engine.OpenAI.role_of e ≠ "system" → keeps (Engine.OpenAI.append_history (B:=B) e).
Proof. intros He w Hw. simpl. by apply headed_snoc. Qed.

Create HintDb keeps.
Hint Resolve keeps_ret keeps_raise keeps_observe keeps_of_result keeps_emit
  keeps_on_files keeps_send : keeps.

Lemma keeps_consume (stream : list Engine.OpenAI.chunk)
    (acc : list Engine.OpenAI.tool_call * string) :
  keeps (Engine.OpenAI.consume (B:=B) acc stream).
Proof.
  revert acc. induction stream as [|c stream IH]; intros acc; simpl.
  - auto with keeps.
  - apply keeps_bind; [|done].
    unfold Engine.OpenAI.consume_chunk. destruct acc as [calls current].
    destruct (Engine.OpenAI.choices c) as [|d ?]; [auto with keeps|].
    apply keeps_bind.
    + destruct (truthy_opt _); [|auto with keeps].
      apply keeps_bind; auto with keeps.
    + intros current'. apply keeps_bind; [|auto with keeps].
      destruct (Engine.OpenAI.tool_calls d) as [[|? ?]|]; auto with keeps.
Qed.

Lemma keeps_handle (calls : list Engine.OpenAI.tool_call) :
  keeps (Engine.OpenAI._handle_tool_calls (B:=B) h calls).
Proof.
  induction calls as [|tc calls IH]; simpl; [auto with keeps|].
  apply keeps_bind; [auto with keeps|]. intros o.
  apply keeps_bind; [auto with keeps|]. intros result.
  apply keeps_bind; [by apply keeps_append|]. intros _.
  apply keeps_bind; [auto with keeps|]. done.
Qed.

Lemma keeps_receive_loop (tools : list Engine.openai_tool) (fuel : nat) :
  keeps (Engine.OpenAI.receive_loop h create tools fuel).
Proof.
  induction fuel as [|fuel IH]; simpl; [auto with keeps|].
  apply keeps_bind; [auto with keeps|]. intros stream.
  apply keeps_bind; [apply keeps_consume|]. intros [calls current].
  apply keeps_bind.
  { destruct (truthy current); [by apply keeps_append | auto with keeps]. }
  intros _. destruct calls as [|tc calls]; [auto with keeps|].
  apply keeps_bind; [by apply keeps_append|]. intros _.
  apply keeps_bind; [apply keeps_handle|]. done.
Qed.

Lemma keeps_receive_response (fuel : nat) :
  keeps (Engine.OpenAI.receive_response h create fuel).
Proof.
  unfold Engine.OpenAI.receive_response.
  apply keeps_bind; [auto with keeps|]. intros o. apply keeps_receive_loop.
Qed.

Lemma headed_perform (w : world) (op : operation) :
  headed (Engine.OpenAI.history (Engine.OpenAI.eng w)) →
  headed (Engine.OpenAI.history (Engine.OpenAI.eng (perform h create w op))).
Proof.
  intros Hw. destruct op as [p|m|fuel]; simpl.
  - by apply headed_set_system_prompt.
  - by apply headed_snoc.
  - by apply keeps_receive_response.
Qed.

End OpenAIHistory.

(** C8: after construction and any sequence of [set_system_prompt],
    [query] and [receive_response] (for any backend, any tools and however
    each response ends), the history of the OpenAI adapter has at most one
    [system] entry, and it is the first one. *)
Theorem system_entry_unique_and_first
    (h : Host) {B : Type}
    (create : B → Engine.OpenAI.request → B * list Engine.OpenAI.chunk)
    (o : Engine.AgentOptions) (e : Engine.OpenAI.engine) (fs : FS) (b : B)
    (ops : list operation) :
  Engine.OpenAI.init h o = Ok e →
  system_first
    (Engine.OpenAI.history
       (Engine.OpenAI.eng (foldl (perform h create) (fresh e fs b) ops))).
Proof.
  intros Hinit. apply headed_system_first.
  assert (headed (Engine.OpenAI.history (Engine.OpenAI.eng (fresh e fs b)))) as Hw
    by (by eapply headed_init).
  revert Hw. generalize (fresh e fs b).
  induction ops as [|op ops IH]; intros w Hw; simpl; [done|].
  apply IH. by apply headed_perform.
Qed.

Lemma system_entry_unique_and_first_witness :
  ∃ e, Engine.OpenAI.init Fixtures.quiet_host Fixtures.bare_options = Ok e ∧
  system_first
    (Engine.OpenAI.history
       (Engine.OpenAI.eng
          (foldl (perform Fixtures.quiet_host Fixtures.insistent)
                 (fresh e Fixtures.small_fs tt)
                 [Query "list the files"; ReceiveResponse 2;
                  SetSystemPrompt "Be brief."; Query "again"]))).
Proof.
  eexists. split; [reflexivity|].
  exact (system_entry_unique_and_first Fixtures.quiet_host Fixtures.insistent
           Fixtures.bare_options _ Fixtures.small_fs tt _ eq_refl).
Defined.

(* ===================================================================== *)
(** ** Reasoning about what a computation adds to the trace *)
(* ===================================================================== *)

Section TraceLogic.
Context {W E : Type} (tr : W → list E).

Lemma emits_ret {A} (a : A) (Q : result A → list E → Prop) :
  Q (Ok a) [] → emits tr (ret a) Q.
Proof. intros HQ w. exists []. by rewrite app_nil_r. Qed.

Lemma emits_raise {A} (e : exn) (Q : result A → list E → Prop) :
  Q (Raise e) [] → emits tr (raise e) Q.
Proof. intros HQ w. exists []. by rewrite app_nil_r. Qed.

Lemma emits_observe {A} (f : W → A) (Q : result A → list E → Prop) :
  (∀ a, Q (Ok a) []) → emits tr (observe f) Q.
Proof. intros HQ w. exists []. rewrite app_nil_r. split; [done | apply HQ]. Qed.

Lemma emits_of_result {A} (r : result A) (Q : result A → list E → Prop) :
  Q r [] → emits tr (of_result r) Q.
Proof. intros HQ w. exists []. by rewrite app_nil_r. Qed.

Lemma emits_bind {A C} (m : eff W A) (k : A → eff W C)
    (Q1 : result A → list E → Prop) (Q2 : A → result C → list E → Prop)
    (Q : result C → list E → Prop) :
  emits tr m Q1 →
  (∀ a, emits tr (k a) (Q2 a)) →
  (∀ a t1 r t2, Q1 (Ok a) t1 → Q2 a r t2 → Q r (t1 ++ t2)) →
  (∀ e t1, Q1 (Raise e) t1 → Q (Raise e) t1) →
  emits tr (bind m k) Q.
Proof.
  intros Hm Hk Hok Hraise w. unfold bind.
  destruct (Hm w) as (t1 & Ht1 & HQ1).
  destruct (m w) as [[a|e] w1]; simpl in *.
  - destruct (Hk a w1) as (t2 & Ht2 & HQ2).
    exists (t1 ++ t2). rewrite Ht2, Ht1, app_assoc. eauto.
  - exists t1. eauto.
Qed.

Lemma emits_weaken {A} (m : eff W A) (Q Q' : result A → list E → Prop) :
  emits tr m Q → (∀ r t, Q r t → Q' r t) → emits tr m Q'.
Proof.
  intros Hm HQ w. destruct (Hm w) as (t & Ht & Hq). exists t. auto.
Qed.

End TraceLogic.

Lemma round_trips_app (t1 t2 : list Engine.OpenAI.event) :
  round_trips (t1 ++ t2) = round_trips t1 + round_trips t2.
Proof. unfold round_trips. by rewrite filter_app, length_app. Qed.

Lemma sends_app (t1 t2 : list Engine.Gemini.event) :
  sends (t1 ++ t2) = sends t1 + sends t2.
Proof. unfold sends. by rewrite filter_app, length_app. Qed.

(* ===================================================================== *)
(** ** The tool loop of the OpenAI adapter *)
(* ===================================================================== *)

Section OpenAILoop.
Context (h : Host) {B : Type}.
Context (create : B → Engine.OpenAI.request → B * list Engine.OpenAI.chunk).

Local Abbreviation world := (Engine.OpenAI.world (B:=B)).
Local Abbreviation tr := (Engine.OpenAI.trace (B:=B)).

Lemma silent_bind {A C} (m : eff world A) (k : A → eff world C) :
  silent m → (∀ a, silent (k a)) → silent (bind m k).
Proof.
  intros Hm Hk.
  apply (emits_bind tr m k (λ _ t, round_trips t = 0) (λ _ _ t, round_trips t = 0));
    [exact Hm | exact Hk | |]; simpl.
  - intros a t1 r t2 H1 H2. rewrite round_trips_app. lia.
  - auto.
Qed.

Lemma silent_ret {A} (a : A) : silent (ret (S:=world) a).
Proof. by apply emits_ret. Qed.

Lemma silent_raise {A} (e : exn) : silent (raise (S:=world) (A:=A) e).
Proof. by apply emits_raise. Qed.

Lemma silent_observe {A} (f : world → A) : silent (observe f).
Proof. by apply emits_observe. Qed.

Lemma silent_of_result {A} (r : result A) : silent (of_result (S:=world) r).
Proof. by apply emits_of_result. Qed.

Lemma silent_emit (e : Engine.envelope Engine.OpenAI.chunk) :
  silent (Engine.OpenAI.emit (B:=B) (Engine.OpenAI.Yield e)).
Proof. intros w. by exists [Engine.OpenAI.Yield e]. Qed.

Lemma silent_append (e : Engine.OpenAI.entry) :
  silent (Engine.OpenAI.append_history (B:=B) e).
Proof. intros w. exists []. by rewrite app_nil_r. Qed.

Lemma silent_on_files {A} (m : io A) : silent (Engine.OpenAI.on_files (B:=B) m).
Proof.
  intros w. exists []. unfold Engine.OpenAI.on_files.
  destruct (m _). by rewrite app_nil_r.
Qed.

Create HintDb silent.
Hint Resolve silent_ret silent_raise silent_observe silent_of_result silent_emit
  silent_append silent_on_files : silent.

Lemma silent_consume (stream : list Engine.OpenAI.chunk)
    (acc : list Engine.OpenAI.tool_call * string) :
  silent (Engine.OpenAI.consume (B:=B) acc stream).
Proof.
  revert acc. induction stream as [|c stream IH]; intros acc; simpl.
  - auto with silent.
  - apply silent_bind; [|done].
    unfold Engine.OpenAI.consume_chunk. destruct acc as [calls current].
    destruct (Engine.OpenAI.choices c) as [|d ?]; [auto with silent|].
    apply silent_bind.
    + destruct (truthy_opt _); [|auto with silent].
      apply silent_bind; auto with silent.
    + intros current'. apply silent_bind; [|auto with silent].
      destruct (Engine.OpenAI.tool_calls d) as [[|? ?]|]; auto with silent.
Qed.

Lemma silent_handle (calls : list Engine.OpenAI.tool_call) :
  silent (Engine.OpenAI._handle_tool_calls (B:=B) h calls).
Proof.
  induction calls as [|tc calls IH]; simpl; [auto with silent|].
  repeat (apply silent_bind; [auto with silent|]; intros ?). done.
Qed.

Lemma send_one_round_trip (tools : list Engine.openai_tool) :
  emits tr (Engine.OpenAI.send create tools)
    (λ r t, is_ok r = true ∧ round_trips t = 1).
Proof.
  intros w. unfold Engine.OpenAI.send.
  destruct (create _ _) as [b response]. simpl. eexists [_]. done.
Qed.

(** A step without round-trip before a computation that makes at most
    [n] of them, and exactly [n] when it is still going. *)
Lemma silent_then {A} (m : eff world A) (k : A → eff world Engine.OpenAI.ending)
    (n : nat) :
  silent m → (∀ a, emits tr (k a) (within n)) → emits tr (bind m k) (within n).
Proof.
  intros Hm Hk.
  apply (emits_bind tr m k (λ _ t, round_trips t = 0) (λ _, within n));
    [exact Hm | exact Hk | |]; unfold within.
  - intros a t1 r t2 H1 H2. rewrite round_trips_app, H1. exact H2.
  - intros e t1 H1. rewrite H1. split; [lia | done].
Qed.

(** Every round of the loop makes one round-trip: a run of [fuel] rounds
    makes at most [fuel] of them, and exactly [fuel] when the loop is
    still going after them. *)
Lemma receive_loop_round_trips (tools : list Engine.openai_tool) (fuel : nat) :
  emits tr (Engine.OpenAI.receive_loop h create tools fuel) (within fuel).
Proof.
  induction fuel as [|fuel IH]; simpl.
  - apply emits_ret. done.
  - apply (emits_bind tr _ _ (λ r t, is_ok r = true ∧ round_trips t = 1)
             (λ _, within fuel)); [apply send_one_round_trip | | |].
    2:{ unfold within. intros stream t1 r t2 [_ H1] [H2 H3].
        rewrite round_trips_app, H1. split; [lia|]. intros Hr. rewrite (H3 Hr). done. }
    2:{ intros e t1 [Hok _]. done. }
    intros stream.
    apply silent_then; [apply silent_consume|]. intros [calls current].
    apply silent_then.
    { destruct (truthy current); auto with silent. }
    intros _. destruct calls as [|tc calls].
    { apply emits_ret. split; [unfold round_trips; simpl; lia | done]. }
    apply silent_then; [apply silent_append|]. intros _.
    apply silent_then; [apply silent_handle|]. intros _.
    exact IH.
Qed.

End OpenAILoop.

(** With a backend that asks for a tool in every answer, the loop is still
    going after any number of rounds, one round-trip per round, whatever
    the options are. *)
Lemma insistent_loop (h : Host) (tools : list Engine.openai_tool) (fuel : nat)
    (w : Engine.OpenAI.world) :
  loads h "{}" = Some (JObj []) →
  ∃ w' added,
    Engine.OpenAI.receive_loop h Fixtures.insistent tools fuel w
      = (Ok Engine.OpenAI.Running, w') ∧
    Engine.OpenAI.trace w' = Engine.OpenAI.trace w ++ added ∧
    round_trips added = fuel ∧
    Forall insistent_event added.
Proof.
  intros Hloads. revert w. induction fuel as [|fuel IH]; intros w.
  - exists w, []. rewrite app_nil_r. repeat split. constructor.
  - cbn [Engine.OpenAI.receive_loop].
    unfold bind at 1. unfold Engine.OpenAI.send at 1. cbn.
    unfold Engine.OpenAI.run_tool. rewrite Hloads. cbn.
    match goal with
    | |- context [Engine.OpenAI.receive_loop h Fixtures.insistent tools fuel ?w1] =>
        destruct (IH w1) as (w' & added & Hrun & Htrace & Hcount & Hall)
    end.
    exists w'. eexists. split; [exact Hrun|].
    rewrite Htrace. cbn. rewrite <- !app_assoc. split; [reflexivity|].
    split.
    + rewrite !round_trips_app, Hcount. reflexivity.
    + repeat (apply Forall_app; split); try exact Hall;
        apply Forall_singleton; unfold insistent_event;
        first [ left; reflexivity
              | right; left; reflexivity
              | right; right; reflexivity ].
Qed.

(* ===================================================================== *)
(** ** The tool loop of the Gemini adapter *)
(* ===================================================================== *)




Lemma sends_chunks (chunks : list Engine.Gemini.chunk) :
  sends (map chunk_event chunks) = 0.
Proof.
  unfold sends. induction chunks as [|c chunks IH]; [done|]. simpl.
  by rewrite filter_cons_False.
Qed.

Lemma sends_outcomes (results : list Engine.Gemini.function_response) :
  sends (map outcome_event results) = 0.
Proof.
  unfold sends. induction results as [|r results IH]; [done|]. simpl.
  by rewrite filter_cons_False.
Qed.

Section GeminiLoop.
Context (h : Host) {B : Type}.
Context (send_message : B → Engine.Gemini.input → B * list Engine.Gemini.chunk).

Local Abbreviation world := (Engine.Gemini.world (B:=B)).

(** Reading a stream hands on each chunk and never raises. *)
Lemma consume_spec (stream : list Engine.Gemini.chunk) (w : world) :
  ∃ fcs w',
    Engine.Gemini.consume stream w = (Ok fcs, w') ∧
    Engine.Gemini.trace w' = Engine.Gemini.trace w ++ map chunk_event stream.
Proof.
  revert w. induction stream as [|c stream IH]; intros w; simpl.
  - exists [], w. by rewrite app_nil_r.
  - unfold bind at 1. simpl. unfold bind at 1. simpl. unfold bind at 1.
    match goal with
    | |- context [Engine.Gemini.consume stream ?w1] =>
        destruct (IH w1) as (fcs & w' & Hrun & Ht)
    end.
    rewrite Hrun. simpl.
    eexists _, w'. split; [reflexivity|].
    rewrite Ht. simpl. by rewrite <- app_assoc.
Qed.

Lemma yield_all_spec (envelopes : list (Engine.envelope Engine.Gemini.chunk))
    (w : world) :
  ∃ w',
    Engine.Gemini.yield_all envelopes w = (Ok tt, w') ∧
    Engine.Gemini.trace w'
      = Engine.Gemini.trace w ++ map Engine.Gemini.Yield envelopes.
Proof.
  revert w. induction envelopes as [|e envelopes IH]; intros w; simpl.
  - exists w. by rewrite app_nil_r.
  - unfold bind at 1. simpl.
    match goal with
    | |- context [Engine.Gemini.yield_all envelopes ?w1] =>
        destruct (IH w1) as (w' & Hrun & Ht)
    end.
    exists w'. split; [done|]. rewrite Ht. simpl. by rewrite <- app_assoc.
Qed.

(** One call adds nothing to the trace and leaves the queue alone. *)
Lemma run_call_spec (fc : Engine.Gemini.function_call) (w : world) :
  ∃ r w',
    Engine.Gemini.run_call h fc w = (r, w') ∧
    Engine.Gemini.trace w' = Engine.Gemini.trace w ∧
    Engine.Gemini._pending_tool_results (Engine.Gemini.eng w')
      = Engine.Gemini._pending_tool_results (Engine.Gemini.eng w) ∧
    match r with
    | Ok (resp, env) => env = outcome_of resp
    | Raise _ => True
    end.
Proof.
  unfold Engine.Gemini.run_call, bind, observe, Engine.Gemini.on_files, ret. simpl.
  destruct (Engine.dispatch _ _ _ _ _ _) as [[v|e] fs1]; [|by eexists _, _].
  destruct (Engine.verbose _); simpl; [|by eexists _, _].
  destruct (append_text _ _ _) as [[[]|e] fs2]; by eexists _, _.
Qed.

(** Running the calls of a pass adds nothing to the trace; when no tool
    raises, the outcomes are queued in the order of the calls. *)
Lemma run_calls_spec (fcs : list Engine.Gemini.function_call) (w : world) :
  ∃ r w',
    Engine.Gemini.run_calls h fcs w = (r, w') ∧
    Engine.Gemini.trace w' = Engine.Gemini.trace w ∧
    match r with
    | Ok rs =>
        Engine.Gemini._pending_tool_results (Engine.Gemini.eng w')
        = Engine.Gemini._pending_tool_results (Engine.Gemini.eng w) ++ map outcome_of rs
    | Raise _ => True
    end.
Proof.
  revert w. induction fcs as [|fc fcs IH]; intros w; simpl.
  - exists (Ok []), w. by rewrite app_nil_r.
  - unfold bind at 1.
    destruct (run_call_spec fc w) as (r & w1 & -> & Ht1 & Hp1 & Hr).
    destruct r as [[resp env]|e]; [|by exists (Raise e), w1].
    subst env. unfold bind at 1. simpl. unfold bind at 1.
    match goal with
    | |- context [Engine.Gemini.run_calls h fcs ?w2] =>
        destruct (IH w2) as (r & w3 & -> & Ht2 & Hp2)
    end.
    destruct r as [rs|e]; simpl in *.
    + eexists _, w3. split; [reflexivity|]. split; [by rewrite Ht2|].
      rewrite Hp2, Hp1. by rewrite <- app_assoc.
    + eexists _, w3. split; [reflexivity|]. by rewrite Ht2.
Qed.

(** Handling the calls of a pass: either a tool raises and nothing is
    sent, or the request with all results is sent and the outcomes wait to
    be handed on. *)
Lemma handle_spec (fc : Engine.Gemini.function_call)
    (fcs : list Engine.Gemini.function_call) (w : world) :
  ∃ r w',
    Engine.Gemini._handle_tool_calls h send_message (fc :: fcs) w = (r, w') ∧
    match r with
    | Raise _ => Engine.Gemini.trace w' = Engine.Gemini.trace w
    | Ok handled =>
        handled = true ∧
        ∃ results response,
          Engine.Gemini.trace w'
            = Engine.Gemini.trace w
              ++ [Engine.Gemini.Send (Engine.Gemini.ToolResults results) response] ∧
          Engine.Gemini._pending_tool_results (Engine.Gemini.eng w')
            = map outcome_of results
    end.
Proof.
  unfold Engine.Gemini._handle_tool_calls.
  generalize (fc :: fcs). intros calls.
  unfold bind at 1. simpl. unfold bind at 1.
  match goal with
  | |- context [Engine.Gemini.run_calls h calls ?w1] =>
      destruct (run_calls_spec calls w1) as (r & w2 & -> & Ht & Hp)
  end.
  destruct r as [rs|e]; simpl in *.
  - unfold bind at 1. unfold Engine.Gemini.send at 1.
    destruct (send_message (Engine.Gemini.chat_session w2)
                (Engine.Gemini.ToolResults rs)) as [b response]. simpl.
    eexists _, _. split; [reflexivity|]. split; [done|].
    exists rs, response. simpl. split; [by rewrite Ht | exact Hp].
  - by exists (Raise e), w2.
Qed.

(** The events of a run of the loop come pass by pass, with one request
    for each round. *)
Lemma receive_loop_passes (fuel : nat) (w : world) :
  ∃ r w' added,
    Engine.Gemini.receive_loop h send_message fuel w = (r, w') ∧
    Engine.Gemini.trace w' = Engine.Gemini.trace w ++ added ∧
    passes added ∧
    within_sends fuel r added.
Proof.
  revert w. induction fuel as [|fuel IH]; intros w.
  - exists (Ok Engine.Gemini.Running), w, []. rewrite app_nil_r.
    split; [done|]. split; [done|]. split; [apply (passes_last []) | done].
  - cbn [Engine.Gemini.receive_loop]. unfold bind at 1, observe at 1.
    generalize (default [] (Engine.Gemini._current_response (Engine.Gemini.eng w))).
    intros stream.
    destruct (consume_spec stream w) as (fcs & w1 & Hrun & Ht1).
    unfold bind at 1. rewrite Hrun.
    assert (passes (map chunk_event stream)) as Hlast by constructor.
    assert (∀ r, r ≠ Ok Engine.Gemini.Running →
                 within_sends (S fuel) r (map chunk_event stream)) as Hstop.
    { intros r Hr. unfold within_sends. rewrite sends_chunks. split; [lia | done]. }
    destruct stream as [|c stream'] eqn:Hstream.
    { eexists _, w1, []. split; [reflexivity|]. simpl in *.
      split; [by rewrite Ht1|]. split; [done | by apply Hstop]. }
    rewrite <- Hstream in *. clear Hstream.
    destruct fcs as [|fc fcs].
    { eexists _, w1, _. split; [reflexivity|]. split; [exact Ht1|].
      split; [done | by apply Hstop]. }
    destruct (handle_spec fc fcs w1) as (r & w2 & Hh & Hr).
    unfold bind at 1. rewrite Hh.
    destruct r as [handled|e]; cycle 1.
    { eexists _, w2, _. split; [reflexivity|]. rewrite Hr.
      split; [exact Ht1|]. split; [done | by apply Hstop]. }
    destruct Hr as (-> & results & response & Ht2 & Hp).
    unfold bind at 1, observe at 1. rewrite Hp.
    destruct (yield_all_spec (map outcome_of results) w2) as (w3 & Hy & Ht3).
    unfold bind at 1. rewrite Hy. unfold bind at 1. simpl.
    match goal with
    | |- context [Engine.Gemini.receive_loop h send_message fuel ?w4] =>
        destruct (IH w4) as (r & w5 & added & -> & Ht4 & Hpass & Hle & Hrunning)
    end.
    exists r, w5,
      (map chunk_event stream
       ++ Engine.Gemini.Send (Engine.Gemini.ToolResults results) response
          :: map outcome_event results ++ added).
    split; [done|]. split; [|split].
    + rewrite Ht4. simpl. rewrite Ht3, Ht2, Ht1.
      rewrite <- !app_assoc. simpl. unfold outcome_event.
      by rewrite map_map.
    + by constructor.
    + unfold within_sends.
      change (Engine.Gemini.Send (Engine.Gemini.ToolResults results) response
              :: map outcome_event results ++ added)
        with ([Engine.Gemini.Send (Engine.Gemini.ToolResults results) response]
              ++ map outcome_event results ++ added).
      rewrite !sends_app, sends_chunks, sends_outcomes.
      change (sends [Engine.Gemini.Send (Engine.Gemini.ToolResults results) response])
        with 1.
      split; [lia|]. intros Hr. rewrite (Hrunning Hr). done.
Qed.

End GeminiLoop.

(** With a chat that asks for a tool in every answer, the loop is still
    going after any number of rounds, one request per round. *)
Lemma insistent_chat_loop (h : Host) (fuel : nat) (w : Engine.Gemini.world) :
  Engine.Gemini._current_response (Engine.Gemini.eng w) = Some [Fixtures.noop_chunk] →
  Engine.verbose (Engine.Gemini.options (Engine.Gemini.eng w)) = false →
  ∃ w' added,
    Engine.Gemini.receive_loop h Fixtures.insistent_chat fuel w
      = (Ok Engine.Gemini.Running, w') ∧
    Engine.Gemini.trace w' = Engine.Gemini.trace w ++ added ∧
    sends added = fuel ∧
    Forall insistent_chat_event added.
Proof.
  revert w. induction fuel as [|fuel IH]; intros w Hcur Hquiet.
  - exists w, []. rewrite app_nil_r. repeat split. constructor.
  - cbn [Engine.Gemini.receive_loop].
    unfold bind at 1, observe at 1. rewrite Hcur. cbn.
    unfold bind, observe, Engine.Gemini.update, modify, Engine.Gemini.run_call,
      Engine.Gemini.on_files, ret, Engine.Gemini.send. cbn.
    rewrite Hquiet. cbn.
    match goal with
    | |- context [Engine.Gemini.receive_loop h Fixtures.insistent_chat fuel ?w1] =>
        destruct (IH w1) as (w' & added & Hrun & Htrace & Hcount & Hall);
          [reflexivity | exact Hquiet |]
    end.
    exists w'. eexists. split; [exact Hrun|].
    rewrite Htrace. cbn. rewrite <- !app_assoc. split; [reflexivity|].
    split.
    + rewrite !sends_app, Hcount. reflexivity.
    + repeat (apply Forall_app; split); try exact Hall;
        apply Forall_singleton; unfold insistent_chat_event;
        first [ left; reflexivity
              | right; left; reflexivity
              | right; right; reflexivity ].
Qed.

(* ===================================================================== *)
(** ** One pass of the Gemini adapter *)
(* ===================================================================== *)

Section GeminiPass.
Context (h : Host) {B : Type}.
Context (send_message : B → Engine.Gemini.input → B * list Engine.Gemini.chunk).

Local Abbreviation world := (Engine.Gemini.world (B:=B)).







End GeminiPass.

Lemma collected_calls (stream : list Engine.Gemini.chunk) :
  flat_map Engine.Gemini.function_calls_of stream = collected stream.
Proof.
  unfold collected. induction stream as [|c stream IH]; [done|].
  cbn [flat_map]. rewrite IH. f_equal.
  unfold Engine.Gemini.function_calls_of, calls_in.
  destruct (Engine.Gemini.candidates c) as [|first rest]; [done|].
  cbn. by rewrite app_nil_r.
Qed.




(** C1: neither tool loop looks at [max_turns], which the engine for the
    Claude SDK hands on to its client.  Every round makes one backend
    round-trip, so a run of [fuel] rounds makes at most [fuel] of them and
    exactly [fuel] when the loop is still going; and with a backend that
    asks for a tool in every answer (with the arguments [{}], which the
    host decodes to the empty object) the loop is still going after any
    number of rounds, for every value of [max_turns], having handed on
    nothing but the chunks of the backend and the outcomes of the tool:
    the turn does not end and no truncation notice is given. *)
Theorem tool_loops_have_no_turn_budget :
  (∀ (h : Host) (B : Type)
     (create : B → Engine.OpenAI.request → B * list Engine.OpenAI.chunk)
     (fuel : nat) (w : Engine.OpenAI.world),
     ∃ added,
       Engine.OpenAI.trace (Engine.OpenAI.receive_response h create fuel w).2
         = Engine.OpenAI.trace w ++ added ∧
       within fuel (Engine.OpenAI.receive_response h create fuel w).1 added) ∧
  (∀ (h : Host) (fuel : nat) (w : Engine.OpenAI.world),
     loads h "{}" = Some (JObj []) →
     ∃ w' added,
       Engine.OpenAI.receive_response h Fixtures.insistent fuel w
         = (Ok Engine.OpenAI.Running, w') ∧
       Engine.OpenAI.trace w' = Engine.OpenAI.trace w ++ added ∧
       round_trips added = fuel ∧
       Forall insistent_event added) ∧
  (∀ (h : Host) (B : Type)
     (send_message : B → Engine.Gemini.input → B * list Engine.Gemini.chunk)
     (fuel : nat) (w : Engine.Gemini.world),
     ∃ added,
       Engine.Gemini.trace (Engine.Gemini.receive_response h send_message fuel w).2
         = Engine.Gemini.trace w ++ added ∧
       within_sends fuel
         (Engine.Gemini.receive_response h send_message fuel w).1 added) ∧
  (∀ (h : Host) (fuel : nat) (budget : Z) (fs : FS) (message : string),
     let w1 :=
       (Engine.Gemini.query Fixtures.unit_chat Fixtures.insistent_chat message
          (Fixtures.gemini_world
             (Engine.with_max_turns Fixtures.bare_options budget) fs tt)).2 in
     ∃ w' added,
       Engine.Gemini.receive_response h Fixtures.insistent_chat fuel w1
         = (Ok Engine.Gemini.Running, w') ∧
       Engine.Gemini.trace w' = Engine.Gemini.trace w1 ++ added ∧
       sends added = fuel ∧
       Forall insistent_chat_event added).
Proof.
  split; [|split; [|split]].
  - intros h B create fuel w.
    unfold Engine.OpenAI.receive_response, bind, observe.
    apply receive_loop_round_trips.
  - intros h fuel w Hloads.
    unfold Engine.OpenAI.receive_response, bind, observe.
    by apply insistent_loop.
  - intros h B send_message fuel w.
    unfold Engine.Gemini.receive_response, bind, observe.
    destruct (Engine.Gemini._current_response (Engine.Gemini.eng w)) as [stream|].
    + destruct (receive_loop_passes h send_message fuel w)
        as (r & w' & added & -> & Ht & _ & Hwithin).
      by exists added.
    + exists []. simpl. rewrite app_nil_r. split; [done|].
      split; [unfold sends; simpl; lia | done].
  - intros h fuel budget fs message w1.
    unfold Engine.Gemini.receive_response, bind, observe.
    apply (insistent_chat_loop h fuel w1); reflexivity.
Qed.

(** With [max_turns] set to 2 and a backend that keeps asking for a tool,
    both loops are still going after five rounds and five round-trips,
    and have produced no truncation notice. *)
Lemma turn_budget_counterexample :
  Engine.max_turns Fixtures.bare_options = 2%Z ∧
  (let w0 :=
     {| Engine.OpenAI.eng :=
          Engine.OpenAI.query "list the files"
            {| Engine.OpenAI.options := Fixtures.bare_options;
               Engine.OpenAI.api_key := "dummy-key";
               Engine.OpenAI.base_url := "https://api.openai.com/v1";
               Engine.OpenAI.system_prompt := "You are a coding agent.";
               Engine.OpenAI.history :=
                 [Engine.OpenAI.Message "system" "You are a coding agent."] |};
        Engine.OpenAI.files := Fixtures.small_fs;
        Engine.OpenAI.backend := tt;
        Engine.OpenAI.trace := [] |} in
   let run := Engine.OpenAI.receive_response Fixtures.quiet_host
                Fixtures.insistent 5 w0 in
   run.1 = Ok Engine.OpenAI.Running ∧
   round_trips (Engine.OpenAI.trace run.2) = 5 ∧
   Forall insistent_event (Engine.OpenAI.trace run.2)) ∧
  (let w1 :=
     (Engine.Gemini.query Fixtures.unit_chat Fixtures.insistent_chat
        "list the files"
        (Fixtures.gemini_world Fixtures.bare_options Fixtures.small_fs tt)).2 in
   let run := Engine.Gemini.receive_response Fixtures.quiet_host
                Fixtures.insistent_chat 5 w1 in
   run.1 = Ok Engine.Gemini.Running ∧
   sends (Engine.Gemini.trace run.2) = 6 ∧
   Forall insistent_chat_event (Engine.Gemini.trace run.2)).
Proof.
  split; [reflexivity|]. split.
  - split; [vm_compute; reflexivity|]. split; [vm_compute; reflexivity|].
    apply Forall_forall. intros ev Hev. vm_compute in Hev.
    repeat (apply elem_of_cons in Hev as [->|Hev];
            [unfold insistent_event;
             first [ left; reflexivity
                   | right; left; reflexivity
                   | right; right; reflexivity ] |]).
    by apply elem_of_nil in Hev.
  - split; [vm_compute; reflexivity|]. split; [vm_compute; reflexivity|].
    apply Forall_forall. intros ev Hev. vm_compute in Hev.
    repeat (apply elem_of_cons in Hev as [->|Hev];
            [unfold insistent_chat_event;
             first [ left; reflexivity
                   | right; left; reflexivity
                   | right; right; reflexivity ] |]).
    by apply elem_of_nil in Hev.
Qed.

(* ===================================================================== *)
(** ** The command line of the subprocess adapter *)
(* ===================================================================== *)

(** C9: where the command line goes wrong.  In the scenario of section 8
    (marker "sess-42", default template) the session flag is appended with
    the marker as its value.  But a template that spells the placeholder
    without quotes, [--session-id {sessionId}], keeps the flag when there
    is no session: the empty value is gone before the clean-up loop looks
    for it, and the flag takes the next argument as its value; only a
    quoted placeholder is cleaned up.  A template that names no session
    at all but holds the letters [-s], as in [--spec-dir], gets no
    session flag.  And a marker of two words is split, so that the flag
    has only the first as its value. *)
Theorem command_line_flag_slips :
  command_line Fixtures.quiet_host (Fixtures.marked_fs Fixtures.marker_line)
    Fixtures.cli_options
  = Ok ["droid"; "exec"; "--model"; "test-model"; "--output-format"; "stream-json";
        "--input-format"; "stream-json"; "--auto"; "low"; "-s"; "sess-42"] ∧
  command_line (Fixtures.template_host "droid exec --session-id {sessionId} --auto low")
    Fixtures.spec_fs Fixtures.cli_options
  = Ok ["droid"; "exec"; "--session-id"; "--auto"; "low"] ∧
  command_line
    (Fixtures.template_host
       ("droid exec --session-id " +:+ String dquote "{sessionId}"
        +:+ String dquote " --auto low"))
    Fixtures.spec_fs Fixtures.cli_options
  = Ok ["droid"; "exec"; "--auto"; "low"] ∧
  command_line (Fixtures.template_host "droid exec --spec-dir {specDir} --auto low")
    (Fixtures.marked_fs Fixtures.marker_line) Fixtures.cli_options
  = Ok ["droid"; "exec"; "--spec-dir"; "specs/001"; "--auto"; "low"] ∧
  command_line Fixtures.quiet_host (Fixtures.marked_fs "sess 42") Fixtures.cli_options
  = Ok ["droid"; "exec"; "--model"; "test-model"; "--output-format"; "stream-json";
        "--input-format"; "stream-json"; "--auto"; "low"; "-s"; "sess"; "42"].
Proof. repeat split; vm_compute; reflexivity. Qed.

(* ===================================================================== *)
(** * Further properties of the code *)
(* ===================================================================== *)

(* ===================================================================== *)
(** ** Reading and writing files *)
(* ===================================================================== *)

Lemma length_append (a b : string) :
  String.length (a +:+ b) = String.length a + String.length b.
Proof. induction a as [|x a IH]; simpl; [done | by rewrite IH]. Qed.

Lemma join_empty_cons (p : string) (l : list string) :
  join "" (p :: l) = p +:+ join "" l.
Proof. destruct l; simpl; [by rewrite append_empty_r | done]. Qed.

(** Putting the lines of a text together gives the text back. *)
Lemma readlines_go_join (cur s : string) :
  join "" (readlines_go cur s) = cur +:+ s.
Proof.
  revert cur. induction s as [|c s IH]; intros cur; simpl.
  - destruct cur; simpl; [done | by rewrite append_empty_r].
  - destruct (Ascii.eqb c "010").
    + by rewrite join_empty_cons, IH, append_assoc.
    + by rewrite IH, append_assoc.
Qed.

Lemma readlines_join (s : string) : join "" (readlines s) = s.
Proof. apply (readlines_go_join "" s). Qed.

(** Every directory above a path has a shorter name than the path. *)
Lemma ancestors_go_shorter (seen s d : string) :
  d ∈ ancestors_go seen s →
  String.length d < String.length seen + String.length s.
Proof.
  revert seen. induction s as [|c s IH]; intros seen; simpl.
  - by intros ?%not_elem_of_nil.
  - destruct (Ascii.eqb c "/").
    + destruct seen as [|x seen].
      * intros Hd%IH. simpl in *. lia.
      * intros [->|Hd%IH]%elem_of_cons; [simpl; lia|].
        rewrite length_append in Hd. simpl in *. lia.
    + intros Hd%IH. rewrite length_append in Hd. simpl in *. lia.
Qed.

Lemma not_own_ancestor (p : string) : p ∉ ancestors p.
Proof. intros H%ancestors_go_shorter. simpl in H. lia. Qed.

(** Making the parents touches nothing else. *)
Lemma mkdir_chain_frame (target : string) (ds : list string) (fs : FS) (q : string) :
  q ∉ ds → (mkdir_chain target ds fs).2 !! q = fs !! q.
Proof.
  revert fs. induction ds as [|d ds IH]; intros fs Hq; simpl; [done|].
  apply not_elem_of_cons in Hq as [Hne Hq].
  destruct (fs !! d) as [[| ]|] eqn:Hd; simpl; [by apply IH | done |].
  destruct (path_fault d); simpl; [done|].
  rewrite IH by done. by rewrite lookup_insert_ne.
Qed.

(** Making the parents removes and replaces nothing. *)
Lemma mkdir_chain_keeps (target : string) (ds : list string) (fs : FS)
    (q : string) (n : node) :
  fs !! q = Some n → (mkdir_chain target ds fs).2 !! q = Some n.
Proof.
  revert fs. induction ds as [|d ds IH]; intros fs Hq; simpl; [done|].
  destruct (fs !! d) as [[| ]|] eqn:Hd; simpl; [by apply IH | done |].
  destruct (path_fault d); simpl; [done|].
  apply IH. rewrite lookup_insert_ne; [done|]. intros ->. congruence.
Qed.

(** When the parents could be made, they are directories. *)
Lemma mkdir_chain_made (target : string) (ds : list string) (fs fs' : FS) :
  mkdir_chain target ds fs = (Ok tt, fs') → ∀ d, d ∈ ds → fs' !! d = Some Dir.
Proof.
  revert fs. induction ds as [|d ds IH]; intros fs Hrun x Hx; simpl in *.
  - by apply not_elem_of_nil in Hx.
  - destruct (fs !! d) as [[| ]|] eqn:Hd; simpl in Hrun; [| discriminate |].
    + apply elem_of_cons in Hx as [->|Hx]; [|by eapply IH].
      replace fs' with (mkdir_chain target ds fs).2 by (by rewrite Hrun).
      by apply mkdir_chain_keeps.
    + destruct (path_fault d); [discriminate|].
      apply elem_of_cons in Hx as [->|Hx]; [|by eapply IH].
      replace fs' with (mkdir_chain target ds (<[d:=Dir]> fs)).2 by (by rewrite Hrun).
      apply mkdir_chain_keeps. by rewrite lookup_insert_eq.
Qed.

Lemma write_file_success (fs fs' : FS) (path content s : string) :
  Builtin.write_file path content fs = (Ok s, fs') →
  s = "Successfully wrote to " +:+ path →
  ∃ fs1, mkdir_chain (parent path) (ancestors path) fs = (Ok tt, fs1) ∧
         write_text path content fs1 = (Ok tt, fs').
Proof.
  unfold Builtin.write_file, try_except, bind, ret, mkdir_parents.
  destruct (mkdir_chain _ _ fs) as [[[]|e] fs1] eqn:Hmk; simpl.
  - destruct (write_text _ _ fs1) as [[[]|e] fs2] eqn:Hw; simpl.
    + intros [= _ <-] _. by exists fs1.
    + by intros [= <- _] [=].
  - by intros [= <- _] [=].
Qed.

(** Reading a whole text file gives its text. *)
Lemma read_file_whole (fs : FS) (path : string) (w : bool) (text : string) :
  fs !! path = Some (File true w (Text text)) →
  Builtin.read_file path None None fs = (Ok text, fs).
Proof.
  intros Hfile.
  unfold Builtin.read_file, bind, try_except, lift, ret, read_text, exists_.
  rewrite Hfile. cbn [negb]. rewrite Hfile. by rewrite readlines_join.
Qed.

(** X1: a write that reports success can be read back.  For a path in its
    one spelling that is free or names a readable and writable file, and
    a content without carriage returns (which text mode would hand back
    as line feeds): when [write_file] answers "Successfully wrote to ...",
    [read_file] on the same path returns the content that was written. *)
Theorem write_file_then_read_file (fs fs' : FS) (path content : string) :
  plain_path path = true →
  free_or_open fs path = true →
  unix_text content = true →
  Builtin.write_file path content fs
    = (Ok ("Successfully wrote to " +:+ path), fs') →
  Builtin.read_file path None None fs' = (Ok content, fs').
Proof.
  intros _ Hpath _ Hrun.
  destruct (write_file_success _ _ _ _ _ Hrun eq_refl) as (fs1 & Hmk & Hw).
  assert (fs1 !! path = fs !! path) as Hsame.
  { replace fs1 with (mkdir_chain (parent path) (ancestors path) fs).2
      by (by rewrite Hmk).
    apply mkdir_chain_frame, not_own_ancestor. }
  apply (read_file_whole _ _ true). revert Hw.
  unfold write_text. rewrite Hsame. unfold free_or_open in Hpath.
  destruct (fs !! path) as [[|[|] [|] d]|]; try done.
  - intros [= <-]. by rewrite lookup_insert_eq.
  - destruct (path_fault path); [done|]. intros [= <-]. by rewrite lookup_insert_eq.
Qed.

Lemma write_file_then_read_file_witness :
  let fs' := <["d/new.txt" := File true true (Text "hello")]> Fixtures.small_fs in
  Builtin.read_file "d/new.txt" None None fs' = (Ok "hello", fs').
Proof.
  exact (write_file_then_read_file Fixtures.small_fs
           (<["d/new.txt" := File true true (Text "hello")]> Fixtures.small_fs)
           "d/new.txt" "hello" eq_refl eq_refl eq_refl eq_refl).
Defined.

(** X2: what [write_file] touches.  For a path in its one spelling, and
    whatever the outcome: every other such path that starts where the
    path starts, and is none of its parent directories, is left alone,
    and nothing is removed.  When success is reported, the parents of the
    path are directories and the path holds the content (a content
    without carriage returns). *)
Theorem write_file_touches_only_its_path (fs : FS) (path content : string) :
  plain_path path = true →
  let fs' := (Builtin.write_file path content fs).2 in
  (∀ q, plain_path q = true → same_start path q = true →
        q ≠ path → q ∉ ancestors path → fs' !! q = fs !! q) ∧
  (∀ q, is_Some (fs !! q) → is_Some (fs' !! q)) ∧
  ((Builtin.write_file path content fs).1
     = Ok ("Successfully wrote to " +:+ path) →
   unix_text content = true →
   (∀ d, d ∈ ancestors path → fs' !! d = Some Dir) ∧
   ∃ r w, fs' !! path = Some (File r w (Text content))).
Proof.
  intros _ fs'. subst fs'.
  assert (∀ fs1 q, q ≠ path →
            (write_text path content fs1).2 !! q = fs1 !! q) as Hwq.
  { intros fs1 q Hq. unfold write_text.
    destruct (fs1 !! path) as [[|r [|] d]|]; simpl; try done;
      [|destruct (path_fault path); simpl; [done|]];
      by rewrite lookup_insert_ne. }
  assert (∀ fs1 q, is_Some (fs1 !! q) →
            is_Some ((write_text path content fs1).2 !! q)) as Hws.
  { intros fs1 q Hq. destruct (decide (q = path)) as [->|Hne];
      [|by rewrite Hwq].
    unfold write_text. destruct (fs1 !! path) as [[|r [|] d]|] eqn:Hp; simpl;
      rewrite ?lookup_insert_eq, ?Hp; done. }
  assert ((Builtin.write_file path content fs).2
          = match mkdir_chain (parent path) (ancestors path) fs with
            | (Ok _, fs1) => (write_text path content fs1).2
            | (Raise _, fs1) => fs1
            end) as Hstate.
  { unfold Builtin.write_file, try_except, bind, ret, mkdir_parents.
    destruct (mkdir_chain _ _ fs) as [[[]|e] fs1]; simpl; [|done].
    by destruct (write_text _ _ fs1) as [[[]|e] fs2]. }
  split; [|split].
  - intros q _ _ Hq Hanc. rewrite Hstate.
    pose proof (mkdir_chain_frame (parent path) _ fs q Hanc) as Hfr.
    destruct (mkdir_chain _ _ fs) as [[[]|e] fs1]; simpl in *;
      [by rewrite Hwq | done].
  - intros q [n Hq]. rewrite Hstate.
    pose proof (mkdir_chain_keeps (parent path) (ancestors path) fs q n Hq) as Hk.
    destruct (mkdir_chain _ _ fs) as [[[]|e] fs1]; simpl in *;
      [apply Hws|]; by rewrite Hk.
  - intros Hok _.
    destruct (Builtin.write_file path content fs) as [r fs'] eqn:Hrun.
    simpl in *. subst r.
    destruct (write_file_success _ _ _ _ _ Hrun eq_refl) as (fs1 & Hmk & Hw).
    pose proof (mkdir_chain_made _ _ _ _ Hmk) as Hdirs.
    replace fs' with (write_text path content fs1).2 by (by rewrite Hw).
    split.
    + intros d Hd. rewrite Hwq; [by apply Hdirs|].
      intros ->. by apply (not_own_ancestor path).
    + revert Hw. unfold write_text.
      destruct (fs1 !! path) as [[|r [|] d]|]; simpl; try done;
        [|destruct (path_fault path); simpl; [done|]];
        intros _; rewrite lookup_insert_eq; by eexists _, _.
Qed.

Lemma write_file_touches_only_its_path_witness :
  let fs' := (Builtin.write_file "d/new.txt" "hello" Fixtures.small_fs).2 in
  fs' !! "notes.txt" = Fixtures.small_fs !! "notes.txt".
Proof.
  exact (proj1 (write_file_touches_only_its_path Fixtures.small_fs "d/new.txt" "hello"
                  eq_refl)
           "notes.txt" eq_refl eq_refl
           ltac:(discriminate)
           ltac:(change ("notes.txt" ∉ ["d"]); rewrite not_elem_of_cons;
                 split; [discriminate | apply not_elem_of_nil])).
Defined.

Lemma slice_all {A} (l : list A) : slice l 0 (Z.of_nat (length l)) = l.
Proof.
  unfold slice, clamp. simpl.
  replace (Z.to_nat (Z.min 0 (Z.of_nat (length l)))) with 0 by lia.
  replace (Z.to_nat (if (Z.of_nat (length l) <? 0)%Z then _ else _)) with (length l).
  - rewrite Nat.sub_0_r. simpl. by apply take_ge.
  - destruct (Z.ltb_spec (Z.of_nat (length l)) 0); lia.
Qed.

Lemma take_drop_clamped {A} (l : list A) (a b : nat) :
  take (b `min` length l - a `min` length l) (drop (a `min` length l) l)
  = take (b - a) (drop a l).
Proof.
  destruct (decide (length l ≤ a)) as [Hge|Hlt].
  - rewrite (Nat.min_r a) by done. rewrite !drop_ge by lia. by rewrite !take_nil.
  - rewrite (Nat.min_l a) by lia.
    destruct (decide (length l ≤ b)) as [Hb|Hb].
    + rewrite (Nat.min_r b) by done.
      rewrite !take_ge; [done | |]; rewrite length_drop; lia.
    + by rewrite (Nat.min_l b) by lia.
Qed.

Lemma slice_lines (l : list string) (first last : nat) :
  1 ≤ first → first ≤ last →
  slice l (Z.of_nat first - 1) (Z.of_nat last) = lines_between first last l.
Proof.
  intros Hfirst Hlast. unfold slice, clamp, lines_between.
  destruct (Z.ltb_spec (Z.of_nat first - 1) 0); [lia|].
  destruct (Z.ltb_spec (Z.of_nat last) 0); [lia|].
  replace (Z.to_nat (Z.min (Z.of_nat first - 1) (Z.of_nat (length l))))
    with ((first - 1) `min` length l) by lia.
  replace (Z.to_nat (Z.min (Z.of_nat last) (Z.of_nat (length l))))
    with (last `min` length l) by lia.
  apply take_drop_clamped.
Qed.

(** X3: on a readable text file, [read_file] with [start_line = first]
    and [end_line = last], where [1 <= first <= last], returns the lines
    [first] to [last] of the file, counted from 1 and both included, each
    with its line end; lines beyond the end of the file are simply not
    there. *)
Theorem read_file_line_range
    (fs : FS) (path text : string) (w : bool) (first last : nat) :
  fs !! path = Some (File true w (Text text)) →
  1 ≤ first → first ≤ last →
  Builtin.read_file path (Some (Z.of_nat first)) (Some (Z.of_nat last)) fs
  = (Ok (join "" (lines_between first last (readlines text))), fs).
Proof.
  intros Hfile Hfirst Hlast.
  unfold Builtin.read_file, bind, try_except, lift, ret, read_text, exists_.
  rewrite Hfile. cbn [negb]. rewrite Hfile.
  destruct (Z.eqb_spec (Z.of_nat first) 0); [lia|].
  destruct (Z.eqb_spec (Z.of_nat last) 0); [lia|].
  by rewrite slice_lines.
Qed.

Lemma read_file_line_range_witness :
  Builtin.read_file "poem.txt" (Some 2%Z) (Some 3%Z) Fixtures.poem_fs
  = (Ok ("two" +:+ Fixtures.nl +:+ "three" +:+ Fixtures.nl), Fixtures.poem_fs).
Proof.
  exact (read_file_line_range Fixtures.poem_fs "poem.txt"
           ("one" +:+ Fixtures.nl +:+ "two" +:+ Fixtures.nl +:+ "three" +:+ Fixtures.nl)
           true 2 3 eq_refl (le_S 1 1 (le_n 1)) (le_S 2 2 (le_n 2))).
Defined.

(** X4: a line bound of 0 is no bound.  [read_file] with each of
    [start_line] and [end_line] either absent or 0 returns what it returns
    without any bound, on every path and every file system. *)
Theorem read_file_zero_is_no_bound
    (fs : FS) (path : string) (start_line end_line : option Z) :
  no_bound start_line = true → no_bound end_line = true →
  Builtin.read_file path start_line end_line fs
  = Builtin.read_file path None None fs.
Proof.
  intros Hstart Hend.
  assert (∀ b, no_bound b = true → b = None ∨ b = Some 0%Z) as Hcases.
  { intros [[| |]|]; try discriminate; auto. }
  destruct (Hcases _ Hstart) as [->| ->], (Hcases _ Hend) as [->| ->]; [done| | |];
    unfold Builtin.read_file, bind, try_except, lift, ret;
    destruct (exists_ fs path) as [[|]|]; simpl; try done;
    destruct (read_text fs path); simpl; try done;
    by rewrite slice_all.
Qed.

Lemma read_file_zero_is_no_bound_witness :
  Builtin.read_file "poem.txt" (Some 0%Z) (Some 0%Z) Fixtures.poem_fs
  = Builtin.read_file "poem.txt" None None Fixtures.poem_fs.
Proof.
  exact (read_file_zero_is_no_bound Fixtures.poem_fs "poem.txt" (Some 0%Z) (Some 0%Z)
           eq_refl eq_refl).
Defined.

(* ===================================================================== *)
(** ** Editing and searching *)
(* ===================================================================== *)

Lemma replace_empty_nothing (s : string) : replace_empty "" s = s.
Proof. induction s as [|c s IH]; simpl; [done | by rewrite IH]. Qed.

(** Replacing a text by itself changes nothing. *)
Lemma str_replace_same (s t : string) : str_replace s t t = s.
Proof.
  destruct t as [|c t]; simpl; [apply replace_empty_nothing|].
  rewrite replace_go_join. by rewrite split_go_join.
Qed.

(** X5: on a readable, writable text file that holds the target,
    [edit_file] with a replacement equal to the target reports success and
    leaves the file system as it was. *)
Theorem edit_file_same_text_changes_nothing
    (fs : FS) (path target content : string) :
  fs !! path = Some (File true true (Text content)) →
  str_in target content = true →
  Builtin.edit_file path target target fs
  = (Ok ("Successfully edited " +:+ path), fs).
Proof.
  intros Hfile Hin.
  unfold Builtin.edit_file, bind, try_except, lift, ret, read_text, write_text.
  rewrite (exists_lookup _ _ _ Hfile). simpl. rewrite Hfile, Hin. simpl.
  rewrite Hfile, str_replace_same. by rewrite insert_id.
Qed.

Lemma edit_file_same_text_changes_nothing_witness :
  Builtin.edit_file "notes.txt" "one" "one" Fixtures.small_fs
  = (Ok "Successfully edited notes.txt", Fixtures.small_fs).
Proof.
  exact (edit_file_same_text_changes_nothing Fixtures.small_fs "notes.txt" "one"
           "one two one" eq_refl eq_refl).
Defined.

(** X6: what [edit_file] touches.  For a path in its one spelling, and
    whatever the arguments and the outcome: every other such path that
    starts where the path starts is left alone, no file is created and
    none is removed; a path that was free or a directory stays so, and a
    regular file stays a regular file with the permissions it had. *)
Theorem edit_file_touches_only_its_file
    (fs : FS) (path target replacement : string) :
  plain_path path = true →
  let fs' := (Builtin.edit_file path target replacement fs).2 in
  (∀ q, plain_path q = true → same_start path q = true → q ≠ path →
        fs' !! q = fs !! q) ∧
  match fs !! path with
  | Some (File r w _) => ∃ d, fs' !! path = Some (File r w d)
  | other => fs' !! path = other
  end.
Proof.
  intros _ fs'. subst fs'.
  unfold Builtin.edit_file, bind, try_except, lift, ret, read_text,
    write_text, exists_.
  destruct (fs !! path) as [[|r w d]|] eqn:Hp; simpl; rewrite ?Hp; simpl;
    [done | |].
  2:{ destruct (path_fault path) as [[]|]; simpl; by rewrite ?Hp. }
  destruct r; simpl; [|split; [done | by eexists]].
  destruct d as [text|why]; simpl; [|split; [done | by eexists]].
  destruct (str_in target text); simpl; [|split; [done | by eexists]].
  rewrite Hp. destruct w; simpl; [|split; [done | by eexists]].
  split; [intros q _ _ Hq; by rewrite lookup_insert_ne|].
  rewrite lookup_insert_eq. by eexists.
Qed.

Lemma edit_file_touches_only_its_file_witness :
  let fs' := (Builtin.edit_file "notes.txt" "one" "1" Fixtures.small_fs).2 in
  fs' !! "d" = Fixtures.small_fs !! "d".
Proof.
  exact (proj1 (edit_file_touches_only_its_file Fixtures.small_fs "notes.txt"
                  "one" "1" eq_refl)
           "d" eq_refl eq_refl ltac:(discriminate)).
Defined.





(* ===================================================================== *)
(** ** Commands *)
(* ===================================================================== *)

(** X8: a Bash tool call whose command the security policy refuses runs
    nothing.  Through the dispatch of either adapter its outcome is the
    policy's reason behind "Error: Command blocked by security policy: ",
    and the file system is as it was, whatever the command would have
    done; the policy is asked about the working directory of the
    adapter. *)
Theorem blocked_command_runs_nothing
    (h : Host) (o : Engine.AgentOptions) (unknown : string → string)
    (args : list (string * json)) (command reason : string) (fs : FS) :
  dict_get "command" args = Some (JStr command) →
  validate_command h command (Engine.working_dir h o) = (false, reason) →
  Engine.dispatch h o unknown "Bash" args fs
  = (Ok (Engine.VStr ("Error: Command blocked by security policy: " +:+ reason)), fs).
Proof.
  intros Hcommand Hdenied.
  unfold Engine.dispatch, Engine.call_execute_bash, Engine.arg_str. simpl.
  rewrite Hcommand. unfold bind, of_result, Builtin.execute_bash.
  fold (Engine.working_dir h o). by rewrite Hdenied.
Qed.

Lemma blocked_command_runs_nothing_witness :
  Engine.dispatch Fixtures.strict_host Fixtures.bare_options
    Engine.OpenAI.unknown_tool "Bash" [("command", JStr "rm -rf .")] Fixtures.small_fs
  = (Ok (Engine.VStr
           "Error: Command blocked by security policy: Command 'rm' is not in the allowed commands list"),
     Fixtures.small_fs).
Proof.
  exact (blocked_command_runs_nothing Fixtures.strict_host Fixtures.bare_options
           Engine.OpenAI.unknown_tool [("command", JStr "rm -rf .")] "rm -rf ."
           "Command 'rm' is not in the allowed commands list" Fixtures.small_fs
           eq_refl eq_refl).
Defined.


(* ===================================================================== *)
(** ** Tool calls as the adapters dispatch them *)
(* ===================================================================== *)

(** *** Dictionaries without repeated keys *)

Lemma dict_get_absent (k : string) (l : list (string * json)) :
  k ∉ map fst l → dict_get k l = None.
Proof.
  induction l as [|[k' v] l IH]; [done|]. simpl.
  intros [Hne Hl]%not_elem_of_cons. rewrite IH by done.
  destruct (String.eqb_spec k k'); [done | done].
Qed.

Lemma dict_get_set_ne (k k' : string) (v : json) (l : list (string * json)) :
  k ≠ k' → dict_get k (dict_set k' v l) = dict_get k l.
Proof.
  intros Hne. induction l as [|[k0 v0] l IH]; simpl.
  - by destruct (String.eqb_spec k k').
  - destruct (String.eqb_spec k' k0) as [->|Hk0]; simpl.
    + by destruct (String.eqb_spec k k0); [|].
    + by rewrite IH.
Qed.

Lemma dict_get_set_eq (k : string) (v : json) (l : list (string * json)) :
  NoDup (map fst l) → dict_get k (dict_set k v l) = Some v.
Proof.
  induction l as [|[k0 v0] l IH]; simpl.
  - by rewrite String.eqb_refl.
  - intros [Hk0 Hl]%NoDup_cons.
    destruct (String.eqb_spec k k0) as [->|Hne]; simpl.
    + rewrite dict_get_absent by done. by rewrite String.eqb_refl.
    + by rewrite IH.
Qed.

Lemma dict_set_keys (k : string) (v : json) (l : list (string * json)) :
  k ∈ map fst l → map fst (dict_set k v l) = map fst l.
Proof.
  induction l as [|[k0 v0] l IH]; simpl.
  - by intros ?%not_elem_of_nil.
  - destruct (String.eqb_spec k k0) as [->|Hne]; [done|].
    intros [?|Hin]%elem_of_cons; [done|]. simpl. by rewrite IH.
Qed.

Lemma dict_get_key (k : string) (v : json) (l : list (string * json)) :
  dict_get k l = Some v → k ∈ map fst l.
Proof.
  revert v. induction l as [|[k0 v0] l IH]; intros v; [done|]. simpl.
  destruct (dict_get k l) as [v'|].
  - intros _. apply list_elem_of_further. by apply (IH v').
  - destruct (String.eqb_spec k k0) as [->|]; [|done].
    intros _. apply list_elem_of_here.
Qed.

Lemma filter_none {A} (P : A → Prop) `{∀ x, Decision (P x)} (l : list A) :
  Forall (λ x, ¬ P x) l → filter P l = [].
Proof.
  induction 1 as [|x l Hx _ IH]; [done|]. by rewrite filter_cons_False.
Qed.

(** A call binds when every keyword is a parameter and every required
    parameter is given. *)
Lemma bind_kwargs_ok (fname : string) (params : list (string * bool))
    (args : list (string * json)) :
  Forall (λ kv, kv.1 ∈ map fst params) args →
  Forall (λ p, p.2 = true → dict_has p.1 args = true) params →
  Engine.bind_kwargs fname params args = Ok tt.
Proof.
  intros Hknown Hgiven. unfold Engine.bind_kwargs.
  rewrite filter_none; [rewrite filter_none; [done|]|].
  - eapply Forall_impl; [exact Hgiven|]. intros [k req] Hk [Hreq Hmiss]. simpl in *.
    rewrite (Hk Hreq) in Hmiss. discriminate.
  - eapply Forall_impl; [exact Hknown|]. intros kv Hin Hout. by apply Hout.
Qed.

(** X10: a Read tool call is [read_file] on the resolved path.  For
    arguments as a decoded call carries them (no key twice, no key but the
    parameters of [read_file], a string as [file_path], integers or
    nothing as line bounds), resolving the path and dispatching the call
    is reading the path as it is written when it is absolute, and
    [str(cwd / file_path)] otherwise, the path under the working
    directory of the adapter as [pathlib] joins and writes the two, with
    the bounds given. *)
Theorem read_through_the_adapter
    (h : Host) (o : Engine.AgentOptions) (unknown : string → string)
    (args : list (string * json)) (file_path : string)
    (start_line end_line : option Z) (fs : FS) :
  NoDup (map fst args) →
  Forall (λ kv, kv.1 ∈ read_file_params) args →
  dict_get "file_path" args = Some (JStr file_path) →
  Engine.arg_int "start_line" args = Ok start_line →
  Engine.arg_int "end_line" args = Ok end_line →
  Engine.dispatch h o unknown "Read" (Engine.resolve_file_path h o args) fs
  = (do r <- Builtin.read_file (resolved h o file_path) start_line end_line;
     ret (Engine.VStr r)) fs.
Proof.
  intros Hnodup Hknown Hpath Hstart Hend.
  pose proof (dict_get_key _ _ _ Hpath) as Hkey.
  set (args' := Engine.resolve_file_path h o args).
  assert (map fst args' = map fst args ∧
          dict_get "file_path" args' = Some (JStr (resolved h o file_path)) ∧
          ∀ k, k ≠ "file_path" → dict_get k args' = dict_get k args)
    as (Hkeys & Hpath' & Hother).
  { subst args'. unfold Engine.resolve_file_path, resolved. rewrite Hpath.
    destruct (is_absolute file_path); [done|].
    split; [by apply dict_set_keys|].
    split; [by apply dict_get_set_eq|].
    intros k Hk. by apply dict_get_set_ne. }
  change (Engine.dispatch h o unknown "Read" args') with (Engine.call_read_file args').
  unfold Engine.call_read_file.
  rewrite bind_kwargs_ok; cycle 1.
  { apply Forall_forall. intros kv Hkv.
    assert (kv.1 ∈ map fst args) as Hin.
    { rewrite <- Hkeys. apply list_elem_of_fmap. by exists kv. }
    apply list_elem_of_fmap in Hin as (kv0 & -> & Hkv0).
    rewrite Forall_forall in Hknown. apply (Hknown kv0 Hkv0). }
  { repeat constructor; simpl; try discriminate.
    intros _. unfold dict_has. by rewrite Hpath'. }
  unfold Engine.arg_str, Engine.arg_int in *.
  rewrite Hpath', !Hother by done. rewrite Hstart, Hend.
  reflexivity.
Qed.

Lemma read_through_the_adapter_witness :
  Engine.dispatch Fixtures.quiet_host Fixtures.slash_options Engine.Gemini.unknown_tool
    "Read"
    (Engine.resolve_file_path Fixtures.quiet_host Fixtures.slash_options
       [("file_path", JStr "./a.txt"); ("end_line", JNum 1)])
    Fixtures.work_fs
  = (do r <- Builtin.read_file "/work/a.txt" None (Some 1%Z);
     ret (Engine.VStr r)) Fixtures.work_fs.
Proof.
  refine (read_through_the_adapter Fixtures.quiet_host Fixtures.slash_options
            Engine.Gemini.unknown_tool
            [("file_path", JStr "./a.txt"); ("end_line", JNum 1)] "./a.txt"
            None (Some 1%Z) Fixtures.work_fs _ _ eq_refl eq_refl eq_refl).
  - repeat constructor; rewrite ?not_elem_of_cons; repeat split;
      first [discriminate | apply not_elem_of_nil].
  - repeat constructor; unfold read_file_params; simpl;
      repeat first [apply list_elem_of_here | apply list_elem_of_further].
Defined.

(** X11: a tool name outside the six.  The dispatch of the Gemini
    adapter answers "Error: Tool <name> not implemented." whatever the
    arguments are, and leaves the files as they are (in verbose mode the
    adapter then writes the call to its debug log).  The OpenAI adapter
    answers "Error: Tool <name> not found" and leaves the files as they
    are when the argument text does not decode, and when it decodes to an
    object, an array or a string; when it decodes to a number, a boolean
    or [null], the look at its keys raises a [TypeError], which leaves the
    loop. *)
Theorem unknown_tool_is_reported
    (h : Host) (o : Engine.AgentOptions) (tool : string) (fs : FS) :
  tool ∉ Engine.OpenAI.six →
  (∀ args,
     Engine.dispatch h o Engine.Gemini.unknown_tool tool args fs
     = (Ok (Engine.VStr ("Error: Tool " +:+ tool +:+ " not implemented.")), fs)) ∧
  (∀ arguments,
     match loads h arguments with
     | Some v =>
         if scalar v
         then ∃ msg, Engine.OpenAI.run_tool h o tool arguments fs
                     = (Raise (TypeError msg), fs)
         else Engine.OpenAI.run_tool h o tool arguments fs
              = (Ok (Engine.VStr ("Error: Tool " +:+ tool +:+ " not found")), fs)
     | None =>
         Engine.OpenAI.run_tool h o tool arguments fs
         = (Ok (Engine.VStr ("Error: Tool " +:+ tool +:+ " not found")), fs)
     end).
Proof.
  intros Hout.
  assert (∀ unknown args,
            Engine.dispatch h o unknown tool args fs
            = (Ok (Engine.VStr (unknown tool)), fs)) as Hdispatch.
  { intros unknown args. unfold Engine.dispatch.
    unfold Engine.OpenAI.six in Hout. rewrite !not_elem_of_cons in Hout.
    destruct Hout as (? & ? & ? & ? & ? & ? & _).
    repeat match goal with
           | |- context [String.eqb tool ?lit] =>
               destruct (String.eqb_spec tool lit); [done|]
           end.
    reflexivity. }
  split.
  - intros args. apply Hdispatch.
  - intros arguments. unfold Engine.OpenAI.run_tool.
    destruct (loads h arguments) as [v|]; simpl; [|apply Hdispatch].
    destruct v; simpl; try (by eexists); try apply Hdispatch;
      by rewrite bool_decide_eq_false_2.
Qed.

Lemma unknown_tool_is_reported_witness :
  Engine.dispatch Fixtures.quiet_host Fixtures.bare_options
    Engine.Gemini.unknown_tool "Noop" [] Fixtures.small_fs
  = (Ok (Engine.VStr "Error: Tool Noop not implemented."), Fixtures.small_fs).
Proof.
  refine (proj1 (unknown_tool_is_reported Fixtures.quiet_host Fixtures.bare_options
                   "Noop" Fixtures.small_fs _) []).
  unfold Engine.OpenAI.six. rewrite !not_elem_of_cons.
  repeat split; first [discriminate | apply not_elem_of_nil].
Defined.

Lemma dict_set_keys_new (k : string) (v : json) (l : list (string * json)) :
  k ∉ map fst l → map fst (dict_set k v l) = map fst l ++ [k].
Proof.
  induction l as [|[k0 v0] l IH]; simpl; [done|].
  intros [Hne Hl]%not_elem_of_cons.
  destruct (String.eqb_spec k k0) as [->|_]; [done|]. simpl. by rewrite IH.
Qed.

(** The arguments of a search once the root directory is filled in. *)
Lemma default_root_dir_args (h : Host) (o : Engine.AgentOptions)
    (args : list (string * json)) :
  NoDup (map fst args) →
  "root_dir" ∉ map fst args →
  let args' := Engine.default_root_dir h o args in
  map fst args' = map fst args ++ ["root_dir"] ∧
  dict_get "root_dir" args' = Some (JStr (Engine.working_dir h o)) ∧
  ∀ k, k ≠ "root_dir" → dict_get k args' = dict_get k args.
Proof.
  intros Hnodup Hroot args'. subst args'. unfold Engine.default_root_dir, dict_has.
  rewrite (dict_get_absent _ _ Hroot).
  split; [by apply dict_set_keys_new|].
  split; [by apply dict_get_set_eq|].
  intros k Hk. by apply dict_get_set_ne.
Qed.

Local Ltac absent :=
  rewrite ?not_elem_of_cons; repeat split; (discriminate || apply not_elem_of_nil).

(** X25: a search without a root directory runs in the working directory
    of the adapter.  For arguments without repeated keys, the dispatch of
    either adapter takes a Glob call that gives only a [pattern] as
    [glob_files] on that pattern, and a Grep call that gives a [query] and
    at most a [pattern] as [grep_files] on them, with ["*"] for a pattern
    that is not given; in both the root is the [cwd] of the options, or the
    current directory of the process when that is not set. *)
Theorem searches_run_in_the_working_directory
    (h : Host) (o : Engine.AgentOptions) (unknown : string → string)
    (args : list (string * json)) (fs : FS) :
  NoDup (map fst args) →
  (∀ pattern,
     Forall (λ kv, kv.1 ∈ ["pattern"]) args →
     dict_get "pattern" args = Some (JStr pattern) →
     Engine.dispatch h o unknown "Glob" (Engine.resolve_file_path h o args) fs
     = (do r <- Builtin.glob_files h pattern (Engine.working_dir h o);
        ret (Engine.VList r)) fs) ∧
  (∀ query pattern,
     Forall (λ kv, kv.1 ∈ ["query"; "pattern"]) args →
     dict_get "query" args = Some (JStr query) →
     Engine.arg_str_or "pattern" "*" args = Ok pattern →
     Engine.dispatch h o unknown "Grep" (Engine.resolve_file_path h o args) fs
     = (do r <- Builtin.grep_files h query pattern (Engine.working_dir h o);
        ret (Engine.VStr r)) fs).
Proof.
  intros Hnodup.
  assert (∀ allowed : list string,
            "file_path" ∉ allowed → "root_dir" ∉ allowed →
            Forall (λ kv, kv.1 ∈ allowed) args →
            Engine.resolve_file_path h o args = args ∧
            ("root_dir" ∉ map fst args) ∧
            Forall (λ kv, kv.1 ∈ (allowed ++ ["root_dir"]))
                   (Engine.default_root_dir h o args)) as Hshape.
  { intros allowed Hfp Hrd Hkeys.
    assert (∀ k, k ∈ map fst args → k ∈ allowed) as Hin.
    { intros k (kv & -> & Hkv)%list_elem_of_fmap.
      rewrite Forall_forall in Hkeys. by apply Hkeys. }
    assert ("root_dir" ∉ map fst args) as Hroot by (intros ?%Hin; done).
    split; [|split; [done|]].
    - unfold Engine.resolve_file_path. rewrite dict_get_absent; [done|].
      intros ?%Hin. done.
    - destruct (default_root_dir_args h o args Hnodup Hroot) as (Hk & _ & _).
      apply Forall_forall. intros kv Hkv.
      assert (kv.1 ∈ map fst (Engine.default_root_dir h o args)) as Hkv'
        by (apply list_elem_of_fmap; by exists kv).
      rewrite Hk in Hkv'. apply elem_of_app in Hkv' as [?%Hin|?];
        apply elem_of_app; auto. }
  split.
  - intros pattern Hkeys Hpattern.
    destruct (Hshape ["pattern"]) as (-> & Hroot & Hkeys'); [absent..|done|].
    destruct (default_root_dir_args h o args Hnodup Hroot) as (_ & Hrd & Hother).
    change (Engine.dispatch h o unknown "Glob" args)
      with (Engine.call_glob_files h (Engine.default_root_dir h o args)).
    unfold Engine.call_glob_files.
    rewrite bind_kwargs_ok; [|exact Hkeys'|].
    2:{ repeat constructor; simpl; try discriminate.
        intros _. unfold dict_has. by rewrite Hother, Hpattern. }
    unfold Engine.arg_str, Engine.arg_str_or.
    rewrite Hother, Hpattern, Hrd by done. reflexivity.
  - intros query pattern Hkeys Hquery Hpattern.
    destruct (Hshape ["query"; "pattern"]) as (-> & Hroot & Hkeys');
      [absent..|done|].
    destruct (default_root_dir_args h o args Hnodup Hroot) as (_ & Hrd & Hother).
    change (Engine.dispatch h o unknown "Grep" args)
      with (Engine.call_grep_files h (Engine.default_root_dir h o args)).
    unfold Engine.call_grep_files.
    rewrite bind_kwargs_ok; [|exact Hkeys'|].
    2:{ repeat constructor; simpl; try discriminate.
        intros _. unfold dict_has. by rewrite Hother, Hquery. }
    unfold Engine.arg_str, Engine.arg_str_or in *.
    rewrite !Hother, Hquery, Hrd by done. rewrite Hpattern. reflexivity.
Qed.

Lemma searches_run_in_the_working_directory_witness :
  Engine.dispatch Fixtures.search_host Fixtures.bare_options
    Engine.Gemini.unknown_tool "Grep"
    (Engine.resolve_file_path Fixtures.search_host Fixtures.bare_options
       [("query", JStr "beta")])
    Fixtures.search_fs
  = (do r <- Builtin.grep_files Fixtures.search_host "beta" "*" "/work";
     ret (Engine.VStr r)) Fixtures.search_fs.
Proof.
  refine (proj2 (searches_run_in_the_working_directory Fixtures.search_host
                   Fixtures.bare_options Engine.Gemini.unknown_tool
                   [("query", JStr "beta")] Fixtures.search_fs _)
                "beta" "*" _ eq_refl eq_refl).
  - repeat constructor; apply not_elem_of_nil.
  - repeat constructor; simpl; apply list_elem_of_here.
Defined.

(* ===================================================================== *)
(** ** The OpenAI adapter: construction and history *)
(* ===================================================================== *)

(** X12: the last system prompt wins.  Setting a prompt and then another
    one leaves the adapter as setting the second alone; after
    [set_system_prompt] the history begins with the system entry that
    carries the prompt, and the entries of the conversation are the ones
    there were, in their order. *)
Theorem set_system_prompt_last_wins (e : Engine.OpenAI.engine) (p q : string) :
  Engine.OpenAI.set_system_prompt q (Engine.OpenAI.set_system_prompt p e)
    = Engine.OpenAI.set_system_prompt q e ∧
  head (Engine.OpenAI.history (Engine.OpenAI.set_system_prompt p e))
    = Some (Engine.OpenAI.Message "system" p) ∧
  conversation (Engine.OpenAI.history (Engine.OpenAI.set_system_prompt p e))
    = conversation (Engine.OpenAI.history e).
Proof.
  unfold Engine.OpenAI.set_system_prompt, Engine.OpenAI._set_system_prompt_msg,
    Engine.OpenAI.with_history, conversation.
  destruct e as [o k u s hist]. simpl.
  destruct hist as [|[r c|c calls|i n c] rest]; simpl; [done| |done|done].
  destruct (String.eqb_spec r "system") as [->|Hr]; simpl; by repeat split.
Qed.

Lemma or_else_truthy (a b : option string) :
  truthy_opt a = true → or_else a b = a.
Proof. unfold or_else. by intros ->. Qed.

Lemma or_else_default (a : option string) (d : string) :
  truthy d = true → truthy (default "" (or_else a (Some d))) = true.
Proof.
  intros Hd. unfold or_else. destruct (truthy_opt a) eqn:Ha; [|done].
  by destruct a.
Qed.

(** X13: the endpoint and the key of a constructed OpenAI adapter.  A
    base URL configured in the options or, failing that, in the process
    environment is used as it is unless it names api.openai.com; without
    a configured URL the endpoint is the Z.ai one when the model name
    holds "glm" in any case of the letters, and the OpenAI one otherwise.
    Neither the endpoint nor the key is ever empty. *)
Theorem endpoint_and_key_selection
    (h : Host) (o : Engine.AgentOptions) (e : Engine.OpenAI.engine) :
  Engine.OpenAI.init h o = Ok e →
  let configured :=
    or_else (Engine.env_or_empty o !! "OPENAI_BASE_URL")
            (environ h !! "OPENAI_BASE_URL") in
  (∀ url, configured = Some url → truthy url = true →
          str_in "api.openai.com" url = false →
          Engine.OpenAI.base_url e = url) ∧
  (truthy_opt configured = false →
   Engine.OpenAI.base_url e
   = if str_in "glm" (lower (Engine.model o))
     then "https://api.z.ai/api/coding/paas/v4"
     else "https://api.openai.com/v1") ∧
  truthy (Engine.OpenAI.base_url e) = true ∧
  truthy (Engine.OpenAI.api_key e) = true.
Proof.
  unfold Engine.OpenAI.init. destruct (installed h "openai"); [|done].
  cbn [negb]. intros [= <-].
  cbn [Engine.OpenAI.base_url Engine.OpenAI.api_key Engine.OpenAI._set_system_prompt_msg
       Engine.OpenAI.with_history Engine.OpenAI.options Engine.OpenAI.history].
  split; [|split; [|split]].
  - intros url Hconf Hurl Hopenai. rewrite Hconf.
    rewrite (or_else_truthy (Some url)) by done. cbn [default id].
    rewrite Hurl, Hopenai. cbn [negb orb]. by destruct (_ || _).
  - intros Hnone. rewrite (or_else_falsy _ _ Hnone). cbn [default id].
    change (str_in "z.ai" "https://api.openai.com/v1") with false.
    change (str_in "api.openai.com" "https://api.openai.com/v1") with true.
    cbn [orb negb truthy]. by destruct (str_in "glm" _).
  - match goal with
    | |- context [default "" (or_else ?a (Some ?d))] =>
        pose proof (or_else_default a d eq_refl) as Hu;
        destruct (default "" (or_else a (Some d))) as [|c u] eqn:Hd; [done|]
    end.
    repeat match goal with
           | |- context [if ?b then _ else _] => destruct b
           end; done.
  - match goal with
    | |- context [truthy_opt ?k] => destruct (truthy_opt k) eqn:Hk; [by destruct k | done]
    end.
Qed.

Lemma endpoint_and_key_selection_witness :
  let e := {| Engine.OpenAI.options := Fixtures.bare_options;
              Engine.OpenAI.api_key := "dummy-key";
              Engine.OpenAI.base_url := "https://api.openai.com/v1";
              Engine.OpenAI.system_prompt := "You are a coding agent.";
              Engine.OpenAI.history :=
                [Engine.OpenAI.Message "system" "You are a coding agent."] |} in
  let configured :=
    or_else (Engine.env_or_empty Fixtures.bare_options !! "OPENAI_BASE_URL")
            (environ Fixtures.quiet_host !! "OPENAI_BASE_URL") in
  (∀ url, configured = Some url → truthy url = true →
          str_in "api.openai.com" url = false →
          Engine.OpenAI.base_url e = url) ∧
  (truthy_opt configured = false →
   Engine.OpenAI.base_url e
   = if str_in "glm" (lower (Engine.model Fixtures.bare_options))
     then "https://api.z.ai/api/coding/paas/v4"
     else "https://api.openai.com/v1") ∧
  truthy (Engine.OpenAI.base_url e) = true ∧
  truthy (Engine.OpenAI.api_key e) = true.
Proof.
  exact (endpoint_and_key_selection Fixtures.quiet_host Fixtures.bare_options _ eq_refl).
Defined.

Section OpenAIGrowth.
Context (h : Host) {B : Type}.
Context (create : B → Engine.OpenAI.request → B * list Engine.OpenAI.chunk).

Local Abbreviation world := (Engine.OpenAI.world (B:=B)).
Local Abbreviation hist := (λ w : world, Engine.OpenAI.history (Engine.OpenAI.eng w)).
Local Abbreviation tr := (Engine.OpenAI.trace (B:=B)).

Lemma grows_bind {A C} (m : eff world A) (k : A → eff world C) :
  grows m → (∀ a, grows (k a)) → grows (bind m k).
Proof.
  intros Hm Hk.
  apply (emits_bind hist m k (λ _ t, Forall reply_entry t)
           (λ _ _ t, Forall reply_entry t)); [exact Hm | exact Hk | |]; simpl.
  - intros a t1 r t2 H1 H2. by apply Forall_app.
  - auto.
Qed.

Lemma grows_ret {A} (a : A) : grows (ret (S:=world) a).
Proof. by apply emits_ret. Qed.

Lemma grows_raise {A} (e : exn) : grows (raise (S:=world) (A:=A) e).
Proof. by apply emits_raise. Qed.

Lemma grows_observe {A} (f : world → A) : grows (observe f).
Proof. by apply emits_observe. Qed.

Lemma grows_of_result {A} (r : result A) : grows (of_result (S:=world) r).
Proof. by apply emits_of_result. Qed.

Lemma grows_emit (ev : Engine.OpenAI.event) : grows (Engine.OpenAI.emit (B:=B) ev).
Proof. intros w. exists []. by rewrite app_nil_r. Qed.

Lemma grows_on_files {A} (m : io A) : grows (Engine.OpenAI.on_files (B:=B) m).
Proof.
  intros w. exists []. unfold Engine.OpenAI.on_files.
  destruct (m _). by rewrite app_nil_r.
Qed.

Lemma grows_send (tools : list Engine.openai_tool) :
  grows (Engine.OpenAI.send create tools).
Proof.
  intros w. exists []. unfold Engine.OpenAI.send.
  destruct (create _ _). by rewrite app_nil_r.
Qed.

Lemma grows_append (e : Engine.OpenAI.entry) :
  reply_entry e → grows (Engine.OpenAI.append_history (B:=B) e).
Proof. intros He w. exists [e]. split; [done | by constructor]. Qed.

Create HintDb grows.
Hint Resolve grows_ret grows_raise grows_observe grows_of_result grows_emit
  grows_on_files grows_send : grows.

Lemma grows_consume (stream : list Engine.OpenAI.chunk)
    (acc : list Engine.OpenAI.tool_call * string) :
  grows (Engine.OpenAI.consume (B:=B) acc stream).
Proof.
  revert acc. induction stream as [|c stream IH]; intros acc; simpl.
  - auto with grows.
  - apply grows_bind; [|done].
    unfold Engine.OpenAI.consume_chunk. destruct acc as [calls current].
    destruct (Engine.OpenAI.choices c) as [|d ?]; [auto with grows|].
    apply grows_bind.
    + destruct (truthy_opt _); [|auto with grows].
      apply grows_bind; auto with grows.
    + intros current'. apply grows_bind; [|auto with grows].
      destruct (Engine.OpenAI.tool_calls d) as [[|? ?]|]; auto with grows.
Qed.

Lemma grows_handle (calls : list Engine.OpenAI.tool_call) :
  grows (Engine.OpenAI._handle_tool_calls (B:=B) h calls).
Proof.
  induction calls as [|tc calls IH]; simpl; [auto with grows|].
  apply grows_bind; [auto with grows|]. intros o.
  apply grows_bind; [auto with grows|]. intros result.
  apply grows_bind; [apply grows_append; by right|]. intros _.
  apply grows_bind; [auto with grows|]. done.
Qed.

Lemma grows_receive_loop (tools : list Engine.openai_tool) (fuel : nat) :
  grows (Engine.OpenAI.receive_loop h create tools fuel).
Proof.
  induction fuel as [|fuel IH]; simpl; [auto with grows|].
  apply grows_bind; [auto with grows|]. intros stream.
  apply grows_bind; [apply grows_consume|]. intros [calls current].
  apply grows_bind.
  { destruct (truthy current); [apply grows_append; by left | auto with grows]. }
  intros _. destruct calls as [|tc calls]; [auto with grows|].
  apply grows_bind; [apply grows_append; by left|]. intros _.
  apply grows_bind; [apply grows_handle|]. done.
Qed.

Lemma grows_receive_response (fuel : nat) :
  grows (Engine.OpenAI.receive_response h create fuel).
Proof.
  unfold Engine.OpenAI.receive_response.
  apply grows_bind; [auto with grows|]. intros o. apply grows_receive_loop.
Qed.

(** *** The requests of a turn *)

Lemma steady_bind {A C} (o : Engine.AgentOptions) (m : eff world A)
    (k : A → eff world C) :
  steady o m → (∀ a, steady o (k a)) → steady o (bind m k).
Proof.
  intros Hm Hk w Hw Ho. unfold bind.
  destruct (Hm w Hw Ho) as (Hh1 & Ho1 & t1 & Ht1 & Hq1).
  destruct (m w) as [[a|e] w1]; simpl in *; [|eauto].
  destruct (Hk a w1 Hh1 Ho1) as (Hh2 & Ho2 & t2 & Ht2 & Hq2).
  split; [done|]. split; [done|].
  exists (t1 ++ t2). rewrite Ht2, Ht1, app_assoc. split; [done|].
  by apply Forall_app.
Qed.

Lemma steady_quiet {A} (o : Engine.AgentOptions) (m : eff world A) :
  (∀ w, Engine.OpenAI.eng (m w).2 = Engine.OpenAI.eng w ∧
        Engine.OpenAI.trace (m w).2 = Engine.OpenAI.trace w) →
  steady o m.
Proof.
  intros Hm w Hw Ho. destruct (Hm w) as [-> ->].
  split; [done|]. split; [done|]. exists []. by rewrite app_nil_r.
Qed.

Lemma steady_ret {A} (o : Engine.AgentOptions) (a : A) : steady o (ret (S:=world) a).
Proof. by apply steady_quiet. Qed.

Lemma steady_raise {A} (o : Engine.AgentOptions) (e : exn) :
  steady o (raise (S:=world) (A:=A) e).
Proof. by apply steady_quiet. Qed.

Lemma steady_observe {A} (o : Engine.AgentOptions) (f : world → A) :
  steady o (observe f).
Proof. by apply steady_quiet. Qed.

Lemma steady_of_result {A} (o : Engine.AgentOptions) (r : result A) :
  steady o (of_result (S:=world) r).
Proof. by apply steady_quiet. Qed.

Lemma steady_on_files {A} (o : Engine.AgentOptions) (m : io A) :
  steady o (Engine.OpenAI.on_files (B:=B) m).
Proof.
  apply steady_quiet. intros w. unfold Engine.OpenAI.on_files.
  by destruct (m _).
Qed.

Lemma steady_yield (o : Engine.AgentOptions) (e : Engine.envelope Engine.OpenAI.chunk) :
  steady o (Engine.OpenAI.emit (B:=B) (Engine.OpenAI.Yield e)).
Proof.
  intros w Hw Ho. split; [done|]. split; [done|].
  exists [Engine.OpenAI.Yield e]. split; [done|]. by repeat constructor.
Qed.

Lemma steady_append (o : Engine.AgentOptions) (e : Engine.OpenAI.entry) :
  Engine.OpenAI.role_of e ≠ "system" →
  steady o (Engine.OpenAI.append_history (B:=B) e).
Proof.
  intros He w Hw Ho. split; [by apply headed_snoc|]. split; [done|].
  exists []. by rewrite app_nil_r.
Qed.

Lemma steady_send (o : Engine.AgentOptions) :
  steady o (Engine.OpenAI.send create (Engine._get_openai_tools (Engine.allowed_tools o))).
Proof.
  intros w Hw Ho. unfold Engine.OpenAI.send.
  destruct (create _ _) as [b response] eqn:Hc. simpl.
  split; [done|]. split; [done|]. eexists [_]. split; [done|].
  constructor; [|constructor]. simpl. by rewrite Ho.
Qed.

Create HintDb steady.
Hint Resolve steady_ret steady_raise steady_observe steady_of_result
  steady_on_files steady_yield steady_send : steady.

Lemma steady_consume (o : Engine.AgentOptions) (stream : list Engine.OpenAI.chunk)
    (acc : list Engine.OpenAI.tool_call * string) :
  steady o (Engine.OpenAI.consume (B:=B) acc stream).
Proof.
  revert acc. induction stream as [|c stream IH]; intros acc; simpl.
  - auto with steady.
  - apply steady_bind; [|done].
    unfold Engine.OpenAI.consume_chunk. destruct acc as [calls current].
    destruct (Engine.OpenAI.choices c) as [|d ?]; [auto with steady|].
    apply steady_bind.
    + destruct (truthy_opt _); [|auto with steady].
      apply steady_bind; auto with steady.
    + intros current'. apply steady_bind; [|auto with steady].
      destruct (Engine.OpenAI.tool_calls d) as [[|? ?]|]; auto with steady.
Qed.

Lemma steady_handle (o : Engine.AgentOptions) (calls : list Engine.OpenAI.tool_call) :
  steady o (Engine.OpenAI._handle_tool_calls (B:=B) h calls).
Proof.
  induction calls as [|tc calls IH]; simpl; [auto with steady|].
  apply steady_bind; [auto with steady|]. intros o'.
  apply steady_bind; [auto with steady|]. intros result.
  apply steady_bind; [by apply steady_append|]. intros _.
  apply steady_bind; [auto with steady|]. done.
Qed.

Lemma steady_receive_loop (o : Engine.AgentOptions) (fuel : nat) :
  steady o (Engine.OpenAI.receive_loop h create
              (Engine._get_openai_tools (Engine.allowed_tools o)) fuel).
Proof.
  induction fuel as [|fuel IH]; simpl; [auto with steady|].
  apply steady_bind; [auto with steady|]. intros stream.
  apply steady_bind; [apply steady_consume|]. intros [calls current].
  apply steady_bind.
  { destruct (truthy current); [by apply steady_append | auto with steady]. }
  intros _. destruct calls as [|tc calls]; [auto with steady|].
  apply steady_bind; [by apply steady_append|]. intros _.
  apply steady_bind; [apply steady_handle|]. done.
Qed.

Lemma steady_receive_response (o : Engine.AgentOptions) (fuel : nat) :
  steady o (Engine.OpenAI.receive_response h create fuel).
Proof.
  intros w Hw Ho. unfold Engine.OpenAI.receive_response, bind, observe.
  rewrite Ho. by apply steady_receive_loop.
Qed.

(** *** Plain answers *)

Lemma plain_chunk_first (c : Engine.OpenAI.chunk) :
  plain_chunk c = true →
  ∃ d rest, Engine.OpenAI.choices c = d :: rest ∧
            (Engine.OpenAI.tool_calls d = None ∨ Engine.OpenAI.tool_calls d = Some []).
Proof.
  unfold plain_chunk. destruct (Engine.OpenAI.choices c) as [|d rest]; [done|].
  destruct (Engine.OpenAI.tool_calls d) as [[|]|] eqn:Htc; [|done|]; eauto.
Qed.

Lemma consume_plain (stream : list Engine.OpenAI.chunk)
    (calls : list Engine.OpenAI.tool_call) (current : string) (w : world) :
  forallb plain_chunk stream = true →
  Engine.OpenAI.consume (calls, current) stream w
  = (Ok (calls, current +:+ text_of stream),
     {| Engine.OpenAI.eng := Engine.OpenAI.eng w;
        Engine.OpenAI.files := Engine.OpenAI.files w;
        Engine.OpenAI.backend := Engine.OpenAI.backend w;
        Engine.OpenAI.trace :=
          Engine.OpenAI.trace w ++ map heard (filter (λ c, speaks c = true) stream) |}).
Proof.
  revert current w.
  induction stream as [|c stream IH]; intros current w Hplain; simpl.
  - rewrite append_empty_r, app_nil_r. by destruct w.
  - simpl in Hplain. apply andb_true_iff in Hplain as [Hc Hplain].
    destruct (plain_chunk_first c Hc) as (d & rest & Hd & Htc).
    unfold bind at 1. unfold Engine.OpenAI.consume_chunk. rewrite Hd.
    unfold speaks, said. rewrite Hd.
    assert (truthy_opt (Engine.OpenAI.content d)
            = truthy (default "" (Engine.OpenAI.content d))) as Ht
      by (by destruct (Engine.OpenAI.content d)).
    rewrite Ht.
    destruct (truthy (default "" (Engine.OpenAI.content d))) eqn:Hs.
    + rewrite filter_cons_True by (unfold speaks, said; by rewrite Hd).
      destruct Htc as [-> | ->]; unfold bind, Engine.OpenAI.emit, modify, ret; simpl;
        rewrite IH by done; simpl; by rewrite append_assoc, <- app_assoc.
    + rewrite filter_cons_False
        by (unfold speaks, said; rewrite Hd, Hs; discriminate).
      assert (default "" (Engine.OpenAI.content d) = "") as ->
        by (by destruct (default "" (Engine.OpenAI.content d))).
      destruct Htc as [-> | ->]; unfold bind, ret; simpl; by rewrite IH.
Qed.

(** *** What is handed to the caller *)

Lemma hands_on_bind {A C} (m : eff world A) (k : A → eff world C) :
  hands_on m → (∀ a, hands_on (k a)) → hands_on (bind m k).
Proof.
  intros Hm Hk.
  apply (emits_bind tr m k (λ _ t, Forall handed_on t)
           (λ _ _ t, Forall handed_on t)); [exact Hm | exact Hk | |]; simpl.
  - intros a t1 r t2 H1 H2. by apply Forall_app.
  - auto.
Qed.

Lemma hands_on_ret {A} (a : A) : hands_on (ret (S:=world) a).
Proof. by apply emits_ret. Qed.

Lemma hands_on_raise {A} (e : exn) : hands_on (raise (S:=world) (A:=A) e).
Proof. by apply emits_raise. Qed.

Lemma hands_on_observe {A} (f : world → A) : hands_on (observe f).
Proof. by apply emits_observe. Qed.

Lemma hands_on_of_result {A} (r : result A) : hands_on (of_result (S:=world) r).
Proof. by apply emits_of_result. Qed.

Lemma hands_on_emit (ev : Engine.OpenAI.event) :
  handed_on ev → hands_on (Engine.OpenAI.emit (B:=B) ev).
Proof. intros Hev w. exists [ev]. split; [done | by constructor]. Qed.

Lemma hands_on_append (e : Engine.OpenAI.entry) :
  hands_on (Engine.OpenAI.append_history (B:=B) e).
Proof. intros w. exists []. by rewrite app_nil_r. Qed.

Lemma hands_on_on_files {A} (m : io A) : hands_on (Engine.OpenAI.on_files (B:=B) m).
Proof.
  intros w. exists []. unfold Engine.OpenAI.on_files.
  destruct (m _). by rewrite app_nil_r.
Qed.

Lemma hands_on_send (tools : list Engine.openai_tool) :
  hands_on (Engine.OpenAI.send create tools).
Proof.
  intros w. unfold Engine.OpenAI.send.
  destruct (create _ _) as [b response]. simpl. eexists [_].
  split; [done | by repeat constructor].
Qed.

Create HintDb hands_on.
Hint Resolve hands_on_ret hands_on_raise hands_on_observe hands_on_of_result
  hands_on_append hands_on_on_files hands_on_send : hands_on.

Lemma hands_on_consume (stream : list Engine.OpenAI.chunk)
    (acc : list Engine.OpenAI.tool_call * string) :
  hands_on (Engine.OpenAI.consume (B:=B) acc stream).
Proof.
  revert acc. induction stream as [|c stream IH]; intros acc; simpl.
  - auto with hands_on.
  - apply hands_on_bind; [|done].
    unfold Engine.OpenAI.consume_chunk. destruct acc as [calls current].
    destruct (Engine.OpenAI.choices c) as [|d ?] eqn:Hd; [auto with hands_on|].
    apply hands_on_bind.
    + destruct (truthy_opt _) eqn:Ht; [|auto with hands_on].
      apply hands_on_bind; [|auto with hands_on].
      apply hands_on_emit. simpl. unfold speaks, said. rewrite Hd.
      by destruct (Engine.OpenAI.content d).
    + intros current'. apply hands_on_bind; [|auto with hands_on].
      destruct (Engine.OpenAI.tool_calls d) as [[|? ?]|]; auto with hands_on.
Qed.

Lemma hands_on_handle (calls : list Engine.OpenAI.tool_call) :
  hands_on (Engine.OpenAI._handle_tool_calls (B:=B) h calls).
Proof.
  induction calls as [|tc calls IH]; simpl; [auto with hands_on|].
  apply hands_on_bind; [auto with hands_on|]. intros o.
  apply hands_on_bind; [auto with hands_on|]. intros result.
  apply hands_on_bind; [auto with hands_on|]. intros _.
  apply hands_on_bind; [|done].
  apply hands_on_emit. simpl. split; [done | by eexists].
Qed.

Lemma hands_on_receive_loop (tools : list Engine.openai_tool) (fuel : nat) :
  hands_on (Engine.OpenAI.receive_loop h create tools fuel).
Proof.
  induction fuel as [|fuel IH]; simpl; [auto with hands_on|].
  apply hands_on_bind; [auto with hands_on|]. intros stream.
  apply hands_on_bind; [apply hands_on_consume|]. intros [calls current].
  apply hands_on_bind.
  { destruct (truthy current); auto with hands_on. }
  intros _. destruct calls as [|tc calls]; [auto with hands_on|].
  apply hands_on_bind; [auto with hands_on|]. intros _.
  apply hands_on_bind; [apply hands_on_handle|]. done.
Qed.

Lemma hands_on_receive_response (fuel : nat) :
  hands_on (Engine.OpenAI.receive_response h create fuel).
Proof.
  unfold Engine.OpenAI.receive_response.
  apply hands_on_bind; [auto with hands_on|]. intros o. apply hands_on_receive_loop.
Qed.

End OpenAIGrowth.

Section OpenAIRound.
Context (h : Host) {B : Type}.
Context (create : B → Engine.OpenAI.request → B * list Engine.OpenAI.chunk).

Local Abbreviation world := (Engine.OpenAI.world (B:=B)).
Local Abbreviation hist := (λ w : world, Engine.OpenAI.history (Engine.OpenAI.eng w)).

(** *** One round of the loop *)

(** Each call that is run is answered in the history and to the caller. *)
Lemma handle_tool_calls_answers (calls : list Engine.OpenAI.tool_call) (w : world) :
  ∃ r w' outs,
    Engine.OpenAI._handle_tool_calls h calls w = (r, w') ∧
    length outs ≤ length calls ∧
    (is_ok r = true → length outs = length calls) ∧
    Engine.OpenAI.history (Engine.OpenAI.eng w')
      = Engine.OpenAI.history (Engine.OpenAI.eng w) ++ zip_with tool_entry calls outs ∧
    Engine.OpenAI.trace w'
      = Engine.OpenAI.trace w ++ zip_with tool_outcome calls outs.
Proof.
  revert w. induction calls as [|tc calls IH]; intros w; simpl.
  - exists (Ok tt), w, []. simpl. by rewrite !app_nil_r.
  - unfold bind at 1, observe at 1. unfold bind at 1, Engine.OpenAI.on_files at 1.
    destruct (Engine.OpenAI.run_tool h _ _ _ _) as [[result|e] fs1]; simpl.
    + unfold bind at 1. simpl. unfold bind at 1. simpl.
      match goal with
      | |- context [Engine.OpenAI._handle_tool_calls h calls ?w1] =>
          destruct (IH w1) as (r & w' & outs & -> & Hle & Hlen & Hh & Ht)
      end.
      exists r, w', (Engine.py_str result :: outs). simpl in *.
      split; [done|]. split; [lia|]. split; [intros Hr; by rewrite Hlen|].
      rewrite Hh, Ht. by rewrite <- !app_assoc.
    + eexists (Raise e), _, []. simpl. rewrite !app_nil_r.
      split; [done|]. split; [lia|]. done.
Qed.






End OpenAIRound.

(** X14: a turn of the OpenAI adapter only appends to the history, and
    what it appends are entries of the assistant and of tools: for every
    backend, for any number of rounds and however the turn ends, the
    history before the turn is the beginning of the history after it. *)
Theorem history_only_grows
    (h : Host) {B : Type}
    (create : B → Engine.OpenAI.request → B * list Engine.OpenAI.chunk)
    (fuel : nat) (w : Engine.OpenAI.world) :
  ∃ added,
    Engine.OpenAI.history
      (Engine.OpenAI.eng (Engine.OpenAI.receive_response h create fuel w).2)
    = Engine.OpenAI.history (Engine.OpenAI.eng w) ++ added ∧
    Forall reply_entry added.
Proof. apply (grows_receive_response h create fuel w). Qed.

(** X15: the tool calls of the OpenAI adapter are answered one by one and
    in order.  For each call that is run, one [tool] entry with the
    identifier and the name of the call goes to the end of the history,
    and one envelope with the same identifier and the same text is handed
    to the caller; when no tool raises, every call is answered, and when
    one does, the calls before it are. *)
Theorem every_tool_call_is_answered
    (h : Host) {B : Type} (calls : list Engine.OpenAI.tool_call)
    (w : Engine.OpenAI.world (B:=B)) :
  ∃ r w' outs,
    Engine.OpenAI._handle_tool_calls h calls w = (r, w') ∧
    length outs ≤ length calls ∧
    (is_ok r = true → length outs = length calls) ∧
    Engine.OpenAI.history (Engine.OpenAI.eng w')
      = Engine.OpenAI.history (Engine.OpenAI.eng w) ++ zip_with tool_entry calls outs ∧
    Engine.OpenAI.trace w'
      = Engine.OpenAI.trace w ++ zip_with tool_outcome calls outs.
Proof. apply handle_tool_calls_answers. Qed.

(** X16: every request the OpenAI adapter ever sends is well formed.
    After construction and any sequence of [set_system_prompt], [query]
    and [receive_response], for any backend, each request in the trace
    names the model of the options, offers the tools of the allowed list,
    and carries messages that begin with the system entry and hold no
    other one. *)
Theorem every_request_is_well_formed
    (h : Host) {B : Type}
    (create : B → Engine.OpenAI.request → B * list Engine.OpenAI.chunk)
    (o : Engine.AgentOptions) (e : Engine.OpenAI.engine) (fs : FS) (b : B)
    (ops : list operation) :
  Engine.OpenAI.init h o = Ok e →
  Forall (request_of o)
    (Engine.OpenAI.trace (foldl (perform h create) (fresh e fs b) ops)).
Proof.
  intros Hinit.
  assert (headed (Engine.OpenAI.history (Engine.OpenAI.eng (fresh e fs b))) ∧
          Engine.OpenAI.options (Engine.OpenAI.eng (fresh e fs b)) = o ∧
          Forall (request_of o) (Engine.OpenAI.trace (fresh e fs b))) as Hw.
  { split; [by eapply headed_init|]. split; [|constructor].
    revert Hinit. unfold Engine.OpenAI.init.
    destruct (installed h "openai"); [|done]. simpl. by intros [= <-]. }
  revert Hw. generalize (fresh e fs b).
  induction ops as [|op ops IH]; intros w (Hh & Ho & Ht); simpl; [done|].
  apply IH. destruct op as [p|m|fuel]; simpl.
  - split; [by apply headed_set_system_prompt | done].
  - split; [by apply headed_snoc | done].
  - destruct (steady_receive_response h create o fuel w Hh Ho)
      as (Hh' & Ho' & added & Hadd & Hreq).
    split; [done|]. split; [done|]. rewrite Hadd. by apply Forall_app.
Qed.

Lemma every_request_is_well_formed_witness :
  ∃ e, Engine.OpenAI.init Fixtures.quiet_host Fixtures.bare_options = Ok e ∧
  Forall (request_of Fixtures.bare_options)
    (Engine.OpenAI.trace
       (foldl (perform Fixtures.quiet_host Fixtures.insistent)
              (fresh e Fixtures.small_fs tt)
              [Query "list the files"; ReceiveResponse 2;
               SetSystemPrompt "Be brief."; Query "again"; ReceiveResponse 1])).
Proof.
  eexists. split; [reflexivity|].
  exact (every_request_is_well_formed Fixtures.quiet_host Fixtures.insistent
           Fixtures.bare_options _ Fixtures.small_fs tt _ eq_refl).
Defined.

(** X17: a plain answer ends the turn of the OpenAI adapter after one
    round-trip.  When the backend answers the next request with chunks
    that carry no tool call, [receive_response] finishes in its first
    round: the request went out once, the chunks that carry text were
    handed on in order, the text of the whole answer is one assistant
    entry at the end of the history (no entry for an answer without
    text), and no file was touched. *)
Theorem plain_answer_ends_the_turn
    (h : Host) {B : Type}
    (create : B → Engine.OpenAI.request → B * list Engine.OpenAI.chunk)
    (fuel : nat) (w : Engine.OpenAI.world) (b : B)
    (stream : list Engine.OpenAI.chunk) :
  create (Engine.OpenAI.backend w) (next_request w) = (b, stream) →
  forallb plain_chunk stream = true →
  Engine.OpenAI.receive_response h create (S fuel) w
  = (Ok Engine.OpenAI.Finished, after_plain_answer w b stream).
Proof.
  intros Hcreate Hplain.
  unfold Engine.OpenAI.receive_response, bind at 1, observe at 1.
  cbn [Engine.OpenAI.receive_loop].
  unfold bind at 1, Engine.OpenAI.send at 1.
  fold (next_request w). rewrite Hcreate.
  unfold bind at 1. rewrite (consume_plain _ _ _ _ Hplain). simpl.
  unfold after_plain_answer.
  destruct (truthy (text_of stream)); unfold bind, Engine.OpenAI.append_history,
    modify, ret; simpl; rewrite <- app_assoc; simpl; [done|].
  rewrite app_nil_r. unfold Engine.OpenAI.with_history.
  by destruct (Engine.OpenAI.eng w).
Qed.

Lemma plain_answer_ends_the_turn_witness :
  let e := {| Engine.OpenAI.options := Fixtures.bare_options;
              Engine.OpenAI.api_key := "dummy-key";
              Engine.OpenAI.base_url := "https://api.openai.com/v1";
              Engine.OpenAI.system_prompt := "You are a coding agent.";
              Engine.OpenAI.history :=
                [Engine.OpenAI.Message "system" "You are a coding agent.";
                 Engine.OpenAI.Message "user" "Say hello."] |} in
  let w := fresh e Fixtures.small_fs tt in
  let stream := [Fixtures.text_delta "Hel"; Fixtures.text_delta "lo"] in
  Engine.OpenAI.receive_response Fixtures.quiet_host Fixtures.talkative 3 w
  = (Ok Engine.OpenAI.Finished, after_plain_answer w tt stream).
Proof.
  exact (plain_answer_ends_the_turn Fixtures.quiet_host Fixtures.talkative 2
           _ tt _ eq_refl eq_refl).
Defined.


(* ===================================================================== *)
(** ** The Gemini adapter *)
(* ===================================================================== *)

Section GeminiTurn.
Context (h : Host) {B : Type}.
Context (send_message : B → Engine.Gemini.input → B * list Engine.Gemini.chunk).

Local Abbreviation world := (Engine.Gemini.world (B:=B)).

(** Reading a stream hands on each chunk, collects the calls of all
    chunks and touches neither the files nor the chat. *)
Lemma consume_quiet (stream : list Engine.Gemini.chunk) (w : world) :
  ∃ fcs w',
    Engine.Gemini.consume stream w = (Ok fcs, w') ∧
    fcs = flat_map Engine.Gemini.function_calls_of stream ∧
    Engine.Gemini.trace w' = Engine.Gemini.trace w ++ map chunk_event stream ∧
    Engine.Gemini.files w' = Engine.Gemini.files w ∧
    Engine.Gemini.chat_session w' = Engine.Gemini.chat_session w.
Proof.
  revert w. induction stream as [|c stream IH]; intros w; simpl.
  - exists [], w. by rewrite app_nil_r.
  - unfold bind at 1. simpl. unfold bind at 1. simpl. unfold bind at 1.
    match goal with
    | |- context [Engine.Gemini.consume stream ?w1] =>
        destruct (IH w1) as (fcs & w' & Hrun & -> & Ht & Hf & Hc)
    end.
    rewrite Hrun. simpl.
    eexists _, w'. split; [reflexivity|]. split; [done|].
    rewrite Ht, Hf, Hc. simpl. by rewrite <- app_assoc.
Qed.

Lemma run_call_answers (fc : Engine.Gemini.function_call) (w : world) :
  ∃ r w',
    Engine.Gemini.run_call h fc w = (r, w') ∧
    Engine.Gemini.trace w' = Engine.Gemini.trace w ∧
    Engine.Gemini.chat_session w' = Engine.Gemini.chat_session w ∧
    Engine.Gemini._pending_tool_results (Engine.Gemini.eng w')
      = Engine.Gemini._pending_tool_results (Engine.Gemini.eng w) ∧
    match r with
    | Ok (resp, env) =>
        Engine.Gemini.fr_name resp = Engine.Gemini.fc_name fc ∧ env = outcome_of resp
    | Raise _ => True
    end.
Proof.
  unfold Engine.Gemini.run_call, bind, observe, Engine.Gemini.on_files, ret. simpl.
  destruct (Engine.dispatch _ _ _ _ _ _) as [[v|e] fs1]; [|by eexists _, _].
  destruct (Engine.verbose _); simpl; [|by eexists _, _].
  destruct (append_text _ _ _) as [[[]|e] fs2]; by eexists _, _.
Qed.

Lemma run_calls_answers (fcs : list Engine.Gemini.function_call) (w : world) :
  ∃ r w',
    Engine.Gemini.run_calls h fcs w = (r, w') ∧
    Engine.Gemini.trace w' = Engine.Gemini.trace w ∧
    Engine.Gemini.chat_session w' = Engine.Gemini.chat_session w ∧
    match r with
    | Ok rs =>
        map Engine.Gemini.fr_name rs = map Engine.Gemini.fc_name fcs ∧
        Engine.Gemini._pending_tool_results (Engine.Gemini.eng w')
        = Engine.Gemini._pending_tool_results (Engine.Gemini.eng w) ++ map outcome_of rs
    | Raise _ => True
    end.
Proof.
  revert w. induction fcs as [|fc fcs IH]; intros w; simpl.
  - exists (Ok []), w. by rewrite app_nil_r.
  - unfold bind at 1.
    destruct (run_call_answers fc w) as (r & w1 & -> & Ht1 & Hc1 & Hp1 & Hr).
    destruct r as [[resp env]|e]; [|by exists (Raise e), w1].
    destruct Hr as [Hname ->]. unfold bind at 1. simpl. unfold bind at 1.
    match goal with
    | |- context [Engine.Gemini.run_calls h fcs ?w2] =>
        destruct (IH w2) as (r & w3 & -> & Ht2 & Hc2 & Hp2)
    end.
    destruct r as [rs|e]; simpl in *.
    + eexists _, w3. split; [reflexivity|]. split; [by rewrite Ht2|].
      split; [by rewrite Hc2|]. destruct Hp2 as [Hnames Hp2].
      split; [simpl; congruence|].
      rewrite Hp2, Hp1. by rewrite <- app_assoc.
    + eexists _, w3. split; [reflexivity|]. by rewrite Ht2, Hc2.
Qed.

End GeminiTurn.

Lemma passes_passed_on (t : list Engine.Gemini.event) :
  passes t → Forall passed_on t.
Proof.
  induction 1 as [chunks|chunks results response rest _ IH].
  - apply Forall_forall. by intros ev (c & -> & _)%list_elem_of_fmap.
  - apply Forall_app. split.
    + apply Forall_forall. by intros ev (c & -> & _)%list_elem_of_fmap.
    + constructor; [done|]. apply Forall_app. split; [|done].
      apply Forall_forall. by intros ev (r & -> & _)%list_elem_of_fmap.
Qed.

(** X18: no adapter ever flags an outcome as an error.  Whatever the
    backend answers, for any number of rounds and however the turn ends,
    the OpenAI adapter hands to its caller only chunks that carry text and
    tool outcomes that are strings with [is_error = False]; the Gemini
    adapter hands on only chunks and tool outcomes with [is_error = False]
    under the identifier "dummy_id".  A tool that failed is told by the
    text of its outcome alone. *)
Theorem outcomes_are_never_flagged (h : Host) {B : Type} (fuel : nat) :
  (∀ (create : B → Engine.OpenAI.request → B * list Engine.OpenAI.chunk)
     (w : Engine.OpenAI.world),
     ∃ added,
       Engine.OpenAI.trace (Engine.OpenAI.receive_response h create fuel w).2
         = Engine.OpenAI.trace w ++ added ∧
       Forall handed_on added) ∧
  (∀ (send_message : B → Engine.Gemini.input → B * list Engine.Gemini.chunk)
     (w : Engine.Gemini.world),
     ∃ added,
       Engine.Gemini.trace (Engine.Gemini.receive_response h send_message fuel w).2
         = Engine.Gemini.trace w ++ added ∧
       Forall passed_on added).
Proof.
  split.
  - intros create w. apply (hands_on_receive_response h create fuel w).
  - intros send_message w.
    unfold Engine.Gemini.receive_response, bind, observe.
    destruct (Engine.Gemini._current_response (Engine.Gemini.eng w)) as [stream|].
    + destruct (receive_loop_passes h send_message fuel w)
        as (r & w' & added & -> & Ht & Hpass & _).
      exists added. split; [exact Ht | by apply passes_passed_on].
    + exists []. simpl. by rewrite app_nil_r.
Qed.

(** X19: the first query of a Gemini adapter finds the chat as the
    construction left it.  [_configure_tools], which the first [query]
    runs, builds the model the constructor built and opens the chat the
    constructor opened, so the query is the sending of the message on the
    fresh chat, with the tools marked as configured. *)
Theorem first_query_keeps_the_fresh_chat
    (h : Host) {B Item : Type}
    (start_chat : Engine.Gemini.generative_model → list Item → B)
    (send_message : B → Engine.Gemini.input → B * list Engine.Gemini.chunk)
    (o : Engine.AgentOptions) (fs fs' : FS) (e : Engine.Gemini.engine) (b : B)
    (message : string) :
  Engine.Gemini.init h start_chat o fs = (Ok (e, b), fs') →
  Engine.Gemini.query start_chat send_message message
    {| Engine.Gemini.eng := e; Engine.Gemini.files := fs';
       Engine.Gemini.chat_session := b; Engine.Gemini.trace := [] |}
  = Engine.Gemini.send send_message (Engine.Gemini.UserText message)
      {| Engine.Gemini.eng := Engine.Gemini.set_configured e;
         Engine.Gemini.files := fs';
         Engine.Gemini.chat_session := b; Engine.Gemini.trace := [] |}.
Proof.
  unfold Engine.Gemini.init.
  destruct (installed h "google.generativeai"); [|done]. cbn [negb].
  match goal with
  | |- context [negb (truthy_opt ?k)] => destruct (truthy_opt k); [|done]
  end.
  cbn [negb]. unfold bind at 1.
  match goal with
  | |- context [if Engine.verbose o then ?m else ?n] =>
      destruct ((if Engine.verbose o then m else n) fs) as [[[]|err] fs1]; [|done]
  end.
  unfold ret. intros [= <- <- <-].
  unfold Engine.Gemini.query, bind, observe, Engine.Gemini._configure_tools. simpl.
  unfold bind, observe. simpl.
  unfold Engine.Gemini._initialize_model.
  destruct (Engine.get_agent_allowed_tools (Engine.allowed_tools o)) eqn:Htools;
    simpl; unfold Engine.Gemini.send; simpl; done.
Qed.

Lemma first_query_keeps_the_fresh_chat_witness :
  let e := {| Engine.Gemini.options := Fixtures.read_options;
              Engine.Gemini.api_key := "key";
              Engine.Gemini.gen_model :=
                Engine.Gemini._initialize_model Fixtures.read_options;
              Engine.Gemini._current_response := None;
              Engine.Gemini._pending_tool_results := [];
              Engine.Gemini._tools_configured := false |} in
  Engine.Gemini.query Fixtures.counting_chat Fixtures.scripted_chat "What does a.txt say?"
    {| Engine.Gemini.eng := e; Engine.Gemini.files := Fixtures.work_fs;
       Engine.Gemini.chat_session := 0; Engine.Gemini.trace := [] |}
  = Engine.Gemini.send Fixtures.scripted_chat
      (Engine.Gemini.UserText "What does a.txt say?")
      {| Engine.Gemini.eng := Engine.Gemini.set_configured e;
         Engine.Gemini.files := Fixtures.work_fs;
         Engine.Gemini.chat_session := 0; Engine.Gemini.trace := [] |}.
Proof.
  exact (first_query_keeps_the_fresh_chat Fixtures.quiet_host Fixtures.counting_chat
           Fixtures.scripted_chat Fixtures.read_options Fixtures.work_fs Fixtures.work_fs
           _ 0 "What does a.txt say?" eq_refl).
Defined.

(** X20: the tool calls of a pass of the Gemini adapter are answered in
    one request.  Without calls nothing happens.  Otherwise, when no tool
    raises, exactly one request goes to the chat; it carries one result
    for each call, under the name of the call and in the order of the
    calls, and the same results wait to be handed on.  When a tool
    raises, nothing is sent and the chat is as it was. *)
Theorem tool_results_answer_the_calls
    (h : Host) {B : Type}
    (send_message : B → Engine.Gemini.input → B * list Engine.Gemini.chunk)
    (calls : list Engine.Gemini.function_call) (w : Engine.Gemini.world) :
  ∃ r w',
    Engine.Gemini._handle_tool_calls h send_message calls w = (r, w') ∧
    match calls, r with
    | [], _ => r = Ok false ∧ w' = w
    | _ :: _, Raise _ =>
        Engine.Gemini.trace w' = Engine.Gemini.trace w ∧
        Engine.Gemini.chat_session w' = Engine.Gemini.chat_session w
    | _ :: _, Ok handled =>
        handled = true ∧
        ∃ results,
          map Engine.Gemini.fr_name results = map Engine.Gemini.fc_name calls ∧
          let answer :=
            send_message (Engine.Gemini.chat_session w)
                         (Engine.Gemini.ToolResults results) in
          Engine.Gemini.chat_session w' = answer.1 ∧
          Engine.Gemini.trace w'
            = Engine.Gemini.trace w
              ++ [Engine.Gemini.Send (Engine.Gemini.ToolResults results) answer.2] ∧
          Engine.Gemini._pending_tool_results (Engine.Gemini.eng w')
            = map outcome_of results
    end.
Proof.
  destruct calls as [|fc fcs]; [by exists (Ok false), w|].
  unfold Engine.Gemini._handle_tool_calls.
  cbv beta iota. generalize (fc :: fcs). intros calls.
  unfold bind at 1. simpl. unfold bind at 1.
  match goal with
  | |- context [Engine.Gemini.run_calls h calls ?w1] =>
      destruct (run_calls_answers h calls w1) as (r & w2 & -> & Ht & Hc & Hp)
  end.
  destruct r as [rs|e]; simpl in *.
  - unfold bind at 1. unfold Engine.Gemini.send at 1. rewrite Hc.
    destruct (send_message (Engine.Gemini.chat_session w)
                (Engine.Gemini.ToolResults rs)) as [b response] eqn:Hsend. simpl.
    eexists _, _. split; [reflexivity|]. split; [done|].
    destruct Hp as [Hnames Hp].
    exists rs. rewrite Hsend. simpl. by rewrite Ht.
  - by exists (Raise e), w2.
Qed.

(** X21: an answer without function calls ends the turn of the Gemini
    adapter.  When no chunk of the current response asks for a tool,
    [receive_response] finishes in its first round, having handed on each
    chunk in order and nothing else: nothing was sent to the chat and no
    file was touched. *)
Theorem answer_without_calls_ends_the_turn
    (h : Host) {B : Type}
    (send_message : B → Engine.Gemini.input → B * list Engine.Gemini.chunk)
    (fuel : nat) (w : Engine.Gemini.world) (stream : list Engine.Gemini.chunk) :
  Engine.Gemini._current_response (Engine.Gemini.eng w) = Some stream →
  forallb no_call stream = true →
  ∃ w',
    Engine.Gemini.receive_response h send_message (S fuel) w
      = (Ok Engine.Gemini.Finished, w') ∧
    Engine.Gemini.trace w' = Engine.Gemini.trace w ++ map chunk_event stream ∧
    Engine.Gemini.files w' = Engine.Gemini.files w ∧
    Engine.Gemini.chat_session w' = Engine.Gemini.chat_session w.
Proof.
  intros Hcurrent Hquiet.
  unfold Engine.Gemini.receive_response, bind at 1, observe at 1.
  rewrite Hcurrent. cbn [Engine.Gemini.receive_loop].
  unfold bind at 1, observe at 1. rewrite Hcurrent. cbn [default id].
  destruct (consume_quiet stream w) as (fcs & w' & Hrun & Hfcs & Ht & Hf & Hc).
  unfold bind at 1. rewrite Hrun.
  assert (fcs = []) as ->.
  { rewrite Hfcs. clear -Hquiet.
    induction stream as [|c stream IH]; [done|]. simpl in *.
    apply andb_true_iff in Hquiet as [Hc Hquiet]. unfold no_call in Hc.
    destruct (Engine.Gemini.function_calls_of c); [by apply IH | done]. }
  exists w'. by destruct stream.
Qed.

Lemma answer_without_calls_ends_the_turn_witness :
  let w := (Engine.Gemini.query Fixtures.counting_chat Fixtures.scripted_chat
              "And now?"
              (Fixtures.gemini_world Fixtures.bare_options Fixtures.work_fs 1)).2 in
  ∃ w',
    Engine.Gemini.receive_response Fixtures.quiet_host Fixtures.scripted_chat 1 w
      = (Ok Engine.Gemini.Finished, w') ∧
    Engine.Gemini.trace w'
      = Engine.Gemini.trace w ++ map chunk_event [Fixtures.text_chunk] ∧
    Engine.Gemini.files w' = Engine.Gemini.files w ∧
    Engine.Gemini.chat_session w' = Engine.Gemini.chat_session w.
Proof.
  exact (answer_without_calls_ends_the_turn Fixtures.quiet_host Fixtures.scripted_chat 0
           (Engine.Gemini.query Fixtures.counting_chat Fixtures.scripted_chat
              "And now?"
              (Fixtures.gemini_world Fixtures.bare_options Fixtures.work_fs 1)).2
           [Fixtures.text_chunk] eq_refl eq_refl).
Defined.

(* ===================================================================== *)
(** ** The envelopes *)
(* ===================================================================== *)

Lemma tool_uses_app (a b : list Engine.Messages.block) :
  tool_uses (a ++ b) = tool_uses a ++ tool_uses b.
Proof. apply omap_app. Qed.

Lemma tool_uses_parts (ps : list Engine.Gemini.part) :
  tool_uses (flat_map Engine.Messages.part_blocks ps)
  = omap Engine.Gemini.part_function_call ps.
Proof.
  induction ps as [|p ps IH]; [done|].
  cbn [flat_map]. rewrite tool_uses_app, IH.
  unfold Engine.Messages.part_blocks. rewrite tool_uses_app.
  destruct (truthy_opt _);
    destruct (Engine.Gemini.part_function_call p) as [[n a]|] eqn:Hfc;
    unfold tool_uses; simpl; by rewrite Hfc.
Qed.

Lemma tool_uses_shown (c : Engine.Gemini.chunk) :
  tool_uses (Engine.Messages.content_of (Engine.AssistantMessage c))
  = flat_map calls_in (Engine.Gemini.candidates c).
Proof.
  unfold Engine.Messages.content_of, Engine.Messages._parse_content.
  induction (Engine.Gemini.candidates c) as [|first rest IH]; [done|].
  cbn [flat_map]. by rewrite tool_uses_app, tool_uses_parts, IH.
Qed.

(** X22: what the caller is shown and what is run.  The tool uses among
    the content blocks of the envelope of a Gemini chunk are the function
    calls of all its candidates, in order.  What the tool loop collects
    from a stream are the calls of the first candidate of each chunk
    only.  So when only further candidates hold calls, the turn ends
    with the chunks handed on and nothing run: the files and the chat
    are as they were, although the caller was shown tool uses. *)
Theorem shown_calls_and_run_calls
    (h : Host) {B : Type}
    (send_message : B → Engine.Gemini.input → B * list Engine.Gemini.chunk)
    (fuel : nat) (w : Engine.Gemini.world) (stream : list Engine.Gemini.chunk) :
  Engine.Gemini._current_response (Engine.Gemini.eng w) = Some stream →
  (∀ c, tool_uses (Engine.Messages.content_of (Engine.AssistantMessage c))
        = flat_map calls_in (Engine.Gemini.candidates c)) ∧
  (Engine.Gemini.consume stream w).1 = Ok (collected stream) ∧
  (collected stream = [] →
   ∃ w',
     Engine.Gemini.receive_response h send_message (S fuel) w
       = (Ok Engine.Gemini.Finished, w') ∧
     Engine.Gemini.files w' = Engine.Gemini.files w ∧
     Engine.Gemini.chat_session w' = Engine.Gemini.chat_session w ∧
     Engine.Gemini.trace w' = Engine.Gemini.trace w ++ map chunk_event stream).
Proof.
  intros Hcur.
  destruct (consume_quiet stream w) as (fcs & w1 & Hrun & -> & Ht & Hf & Hc).
  rewrite collected_calls in Hrun.
  split; [apply tool_uses_shown|]. split; [by rewrite Hrun|].
  intros Hnone. exists w1.
  unfold Engine.Gemini.receive_response, bind, observe. rewrite Hcur.
  cbn [Engine.Gemini.receive_loop]. unfold bind, observe. rewrite Hcur.
  simpl default. rewrite Hrun, Hnone.
  by destruct stream.
Qed.

Lemma shown_calls_and_run_calls_witness :
  tool_uses (Engine.Messages.content_of
               (Engine.AssistantMessage Fixtures.two_candidates))
  = [ {| Engine.Gemini.fc_name := "Bash";
         Engine.Gemini.fc_args := [("command", JStr "ls")] |} ] ∧
  collected [Fixtures.two_candidates] = [] ∧
  ∃ w',
    Engine.Gemini.receive_response Fixtures.quiet_host Fixtures.insistent_chat 1
      (Fixtures.reading_world [Fixtures.two_candidates])
      = (Ok Engine.Gemini.Finished, w') ∧
    Engine.Gemini.files w' = Fixtures.small_fs ∧
    Engine.Gemini.trace w' = [chunk_event Fixtures.two_candidates].
Proof.
  destruct (shown_calls_and_run_calls Fixtures.quiet_host Fixtures.insistent_chat 0
              (Fixtures.reading_world [Fixtures.two_candidates])
              [Fixtures.two_candidates] eq_refl) as (Hshown & _ & Hend).
  split; [by rewrite Hshown|]. split; [reflexivity|].
  destruct (Hend eq_refl) as (w' & Hrun & Hfiles & _ & Htrace).
  by exists w'.
Defined.
(* ===================================================================== *)
(** ** The session marker of the subprocess adapter *)
(* ===================================================================== *)

(** X23: a saved session is resumed.  With a spec directory that is
    set and an identifier that is not empty, [_save_session_id] keeps the
    identifier in the engine and never raises, whether the marker file
    can be written or not.  When the write of the marker goes through (on
    a path that was free or named a readable and writable file, with an
    identifier without carriage returns), an adapter constructed
    afterwards with the same options resumes the session: its identifier
    is the saved one, stripped. *)
Theorem saved_session_is_resumed
    (fs fs' : FS) (e : Engine.CustomCli.engine) (sid : string) :
  let o := Engine.CustomCli.options e in
  let saved := {| Engine.CustomCli.options := o;
                  Engine.CustomCli.prompt := Engine.CustomCli.prompt e;
                  Engine.CustomCli.session_id := Some sid |} in
  truthy_opt (Engine.spec_dir o) = true →
  truthy sid = true →
  unix_text sid = true →
  free_or_open fs (Engine.CustomCli.session_file o) = true →
  Engine.CustomCli.write_in_place (Engine.CustomCli.session_file o) sid fs
    = (Ok tt, fs') →
  (∀ fs0, (Engine.CustomCli._save_session_id sid e fs0).1 = Ok saved) ∧
  Engine.CustomCli._save_session_id sid e fs = (Ok saved, fs') ∧
  Engine.CustomCli.init fs' o
    = Ok {| Engine.CustomCli.options := o;
            Engine.CustomCli.prompt := "";
            Engine.CustomCli.session_id := Some (strip sid) |}.
Proof.
  intros o saved Hspec Hsid _ Hfile Hwrite.
  assert (∀ fs0, ∃ fs1,
            Engine.CustomCli._save_session_id sid e fs0 = (Ok saved, fs1) ∧
            ∀ fs2, Engine.CustomCli.write_in_place
                     (Engine.CustomCli.session_file o) sid fs0 = (Ok tt, fs2) →
                   fs1 = fs2) as Hsave.
  { intros fs0. unfold Engine.CustomCli._save_session_id. fold o.
    rewrite Hspec, Hsid. cbn [negb orb]. unfold bind, try_except, ret.
    destruct (Engine.CustomCli.write_in_place _ sid fs0) as [[[]|err] fs1];
      exists fs1; split; try done. by intros fs2 [= <-]. }
  split; [|split].
  - intros fs0. by destruct (Hsave fs0) as (fs1 & -> & _).
  - destruct (Hsave fs) as (fs1 & -> & Hsame). by rewrite (Hsame fs' Hwrite).
  - assert (fs' !! Engine.CustomCli.session_file o
            = Some (File true true (Text sid))) as Hmarker.
    { revert Hwrite. unfold Engine.CustomCli.write_in_place, write_text.
      unfold free_or_open in Hfile.
      destruct (last _) as [d|]; [destruct (fs !! d) as [[|]|]; try done|];
        destruct (fs !! Engine.CustomCli.session_file o) as [[|[|] [|] data]|];
        try done;
        try (intros [= <-]; by rewrite lookup_insert_eq);
        destruct (path_fault _); try done;
        intros [= <-]; by rewrite lookup_insert_eq. }
    unfold Engine.CustomCli.init, Engine.CustomCli._load_session_id.
    cbn [Engine.CustomCli.options]. rewrite Hspec. cbn [negb].
    unfold exists_, read_text. by rewrite Hmarker.
Qed.

Lemma saved_session_is_resumed_witness :
  Engine.CustomCli.init
    (<["specs/001/.droid_session_id" := File true true (Text "sess-42")]>
       Fixtures.spec_fs)
    Fixtures.cli_options
  = Ok {| Engine.CustomCli.options := Fixtures.cli_options;
          Engine.CustomCli.prompt := "";
          Engine.CustomCli.session_id := Some "sess-42" |}.
Proof.
  exact (proj2 (proj2 (saved_session_is_resumed Fixtures.spec_fs
                         (<["specs/001/.droid_session_id"
                              := File true true (Text "sess-42")]> Fixtures.spec_fs)
                         Fixtures.cli_engine "sess-42"
                         eq_refl eq_refl eq_refl eq_refl eq_refl))).
Defined.
